(** * The parking-discount request engine of [src/lib/parking-api.ts]

    A shallow embedding of the template engine (token substitution,
    directives, template parsing, request assembly, response evaluation)
    and of [sendParkingDiscount], followed by the properties of the
    specification that concern them.

    Modelling conventions.
    - A JavaScript string is a [string]: the sequence of the bytes of its
      UTF-8 form.  Every delimiter the code looks for is ASCII, so scanning,
      slicing and searching agree with the code-unit view; white space is
      recognised on its UTF-8 form.
    - A JavaScript value is a [JValue]; an object is the list of its own
      properties in insertion order, and [enumerate] gives them in the order
      of [Object.keys] (array indices first).  What a read finds beyond the
      own properties (string indices, prototype members), and whether it
      throws, is left to the [Runtime].  An object whose prototype was
      replaced through [__proto__] is a [JWith].
    - Engine services whose definition is not part of the repository
      ([JSON.parse], [JSON.stringify], [RegExp], case mapping, number
      formatting, UTF-8 decoding) are the fields of the class [Runtime]; all
      general statements hold for every runtime.
    - A call that may throw has an [Outcome]: [Returned] or [Thrown]; the
      network and the configuration store are the nodes of an [Action]
      tree. *)

From Stdlib Require Import String Ascii List Bool Arith NArith Lia.
From Stdlib Require Import ZArith Floats.PrimFloat.
From Stdlib Require Import Permutation Sorted.
From Stdlib Require Uint63 Floats.FloatOps Floats.SpecFloat.
Import ListNotations.
Open Scope list_scope.
Open Scope string_scope.

#[global] Set Warnings "-register-all".

(** ** Characters and strings *)

Definition char_code (c : ascii) : N := N_of_ascii c.

Definition in_range (lo hi : N) (c : ascii) : bool :=
  (N.leb lo (char_code c) && N.leb (char_code c) hi)%bool.

Definition is_digit (c : ascii) : bool := in_range 48 57 c.
Definition is_upper (c : ascii) : bool := in_range 65 90 c.
Definition is_lower (c : ascii) : bool := in_range 97 122 c.
Definition is_alnum (c : ascii) : bool := is_digit c || is_upper c || is_lower c.

(** [\w] of a regular expression without the unicode flag. *)
Definition is_word (c : ascii) : bool := is_alnum c || Ascii.eqb c "_".

(** [[\w-]] *)
Definition is_word_dash (c : ascii) : bool := is_word c || Ascii.eqb c "-".

(** [[\w$]] *)
Definition is_word_dollar (c : ascii) : bool := is_word c || Ascii.eqb c "$".

(** [[a-zA-Z0-9_.-]], the characters of a token name. *)
Definition is_token_char (c : ascii) : bool :=
  is_alnum c || Ascii.eqb c "_" || Ascii.eqb c "." || Ascii.eqb c "-".

(** The one-byte white space of ECMAScript: TAB, LF, VT, FF, CR, SP. *)
Definition is_space1 (c : ascii) : bool :=
  in_range 9 13 c || Ascii.eqb c " ".

(** The white space of ECMAScript ([\s], and what [trim] removes) that takes
    two or three bytes: U+00A0; U+1680, U+2000..U+200A, U+2028, U+2029,
    U+202F, U+205F, U+3000, U+FEFF. *)
Definition is_space2 (c1 c2 : ascii) : bool :=
  (N.eqb (char_code c1) 194 && N.eqb (char_code c2) 160)%bool.

Definition is_space3 (c1 c2 c3 : ascii) : bool :=
  let a := char_code c1 in let b := char_code c2 in let d := char_code c3 in
  ((N.eqb a 225 && N.eqb b 154 && N.eqb d 128)
   || (N.eqb a 226 && N.eqb b 128
       && (in_range 128 138 c3 || N.eqb d 168 || N.eqb d 169 || N.eqb d 175))
   || (N.eqb a 226 && N.eqb b 129 && N.eqb d 159)
   || (N.eqb a 227 && N.eqb b 128 && N.eqb d 128)
   || (N.eqb a 239 && N.eqb b 187 && N.eqb d 191))%bool.

(** [\s*], greedy: what is left after the leading white space. *)
Fixpoint skip_ws (s : string) : string :=
  match s with
  | String c1 r1 =>
    if is_space1 c1 then skip_ws r1 else
    match r1 with
    | String c2 r2 =>
      if is_space2 c1 c2 then skip_ws r2 else
      match r2 with
      | String c3 r3 => if is_space3 c1 c2 c3 then skip_ws r3 else s
      | EmptyString => s
      end
    | EmptyString => s
    end
  | EmptyString => EmptyString
  end.

Definition all_ws (s : string) : bool :=
  match skip_ws s with EmptyString => true | _ => false end.

Definition trimStart (s : string) : string := skip_ws s.

Fixpoint trimEnd (s : string) : string :=
  match s with
  | EmptyString => EmptyString
  | String c r => if all_ws s then EmptyString else String c (trimEnd r)
  end.

(** [String.prototype.trim] *)
Definition trim (s : string) : string := trimEnd (trimStart s).

Definition is_empty (s : string) : bool :=
  match s with EmptyString => true | _ => false end.

(** [s.startsWith(p)] *)
Definition startsWith (s p : string) : bool := String.prefix p s.

(** [s.includes(p)] *)
Fixpoint includes (s p : string) : bool :=
  if String.prefix p s then true
  else match s with
       | EmptyString => false
       | String _ r => includes r p
       end.

(** [s.indexOf(c)] for a one-character [c]; [None] stands for -1. *)
Fixpoint indexOf (s : string) (c : ascii) : option nat :=
  match s with
  | EmptyString => None
  | String d r =>
    if Ascii.eqb d c then Some 0
    else match indexOf r c with Some n => Some (S n) | None => None end
  end.

(** [s.lastIndexOf(c)] *)
Fixpoint lastIndexOf (s : string) (c : ascii) : option nat :=
  match s with
  | EmptyString => None
  | String d r =>
    match lastIndexOf r c with
    | Some n => Some (S n)
    | None => if Ascii.eqb d c then Some 0 else None
    end
  end.

(** [s.slice(0, n)] and [s.slice(n)] for an index within the string. *)
Fixpoint take (n : nat) (s : string) : string :=
  match n, s with
  | S k, String c r => String c (take k r)
  | _, _ => EmptyString
  end.

Fixpoint drop (n : nat) (s : string) : string :=
  match n, s with
  | S k, String _ r => drop k r
  | _, _ => s
  end.

(** The longest prefix of characters satisfying [p], and the rest. *)
Fixpoint span (p : ascii -> bool) (s : string) : string * string :=
  match s with
  | String c r =>
    if p c then let (a, b) := span p r in (String c a, b) else (EmptyString, s)
  | EmptyString => (EmptyString, EmptyString)
  end.

(** The text up to the first [c], and the text after it. *)
Fixpoint cut_at (c : ascii) (s : string) : option (string * string) :=
  match s with
  | EmptyString => None
  | String d r =>
    if Ascii.eqb d c then Some (EmptyString, r)
    else match cut_at c r with
         | Some (a, b) => Some (String d a, b)
         | None => None
         end
  end.

(** A letter of a pattern matched under the [i] flag (no unicode flag: only
    the two ASCII cases of the letter match). *)
Definition ci_eqb (pat c : ascii) : bool :=
  Ascii.eqb pat c
  || (is_lower pat && N.eqb (char_code c + 32) (char_code pat))%bool.

(** [strip_prefix_ci p s]: [s] without the prefix [p], compared under [i]. *)
Fixpoint strip_prefix_ci (p s : string) : option string :=
  match p, s with
  | EmptyString, _ => Some s
  | String a p', String c s' => if ci_eqb a c then strip_prefix_ci p' s' else None
  | String _ _, EmptyString => None
  end.

(** [strip_prefix p s]: [s] without the literal prefix [p]. *)
Fixpoint strip_prefix (p s : string) : option string :=
  match p, s with
  | EmptyString, _ => Some s
  | String a p', String c s' => if Ascii.eqb a c then strip_prefix p' s' else None
  | String _ _, EmptyString => None
  end.

(** [s.replace(re, ...)] for a global [re] that never matches the empty
    string: [m] tells, for the text at the current position, the replacement
    and the length of the match; matches are taken leftmost, one after the
    other. *)
Fixpoint gsub_from (m : string -> option (string * nat)) (skip : nat) (s : string)
  : string :=
  match s with
  | EmptyString => EmptyString
  | String c r =>
    match skip with
    | S k => gsub_from m k r
    | O =>
      match m s with
      | Some (rep, len) => rep ++ gsub_from m (pred len) r
      | None => String c (gsub_from m 0 r)
      end
    end
  end.

Definition gsub (m : string -> option (string * nat)) (s : string) : string :=
  gsub_from m 0 s.

(** [s.match(re)] for a [re] without the global flag: the first position at
    which [m] matches. *)
Fixpoint search {A : Type} (m : string -> option A) (s : string) : option A :=
  match m s with
  | Some a => Some a
  | None => match s with
            | EmptyString => None
            | String _ r => search m r
            end
  end.

(** [s.split(re)] for [re] a run [[...]+] of the separators [sep]. *)
Fixpoint split_runs (sep : ascii -> bool) (prev_sep : bool) (s : string)
  : list string :=
  match s with
  | EmptyString => [EmptyString]
  | String c r =>
    if sep c then
      if prev_sep then split_runs sep true r
      else EmptyString :: split_runs sep true r
    else match split_runs sep false r with
         | p :: ps => String c p :: ps
         | [] => [String c EmptyString]
         end
  end.

(** [s.split(c)] for a one-character [c]. *)
Fixpoint split_char (c : ascii) (s : string) : list string :=
  match s with
  | EmptyString => [EmptyString]
  | String d r =>
    if Ascii.eqb d c then EmptyString :: split_char c r
    else match split_char c r with
         | p :: ps => String d p :: ps
         | [] => [String d EmptyString]
         end
  end.

(** [.filter(Boolean)] on strings *)
Definition nonempty (l : list string) : list string :=
  filter (fun s => negb (is_empty s)) l.

(** [parts.join(sep)] *)
Fixpoint join (sep : string) (l : list string) : string :=
  match l with
  | [] => EmptyString
  | [x] => x
  | x :: r => x ++ sep ++ join sep r
  end.

(** ** JavaScript values *)

(** [JObj props] is an ordinary object: its prototype is [Object.prototype].
    [JWith proto props] is an object whose prototype was replaced by [proto]
    (an object or [null]) by a write of [__proto__].  [JFun src] is a
    function, [src] its text. *)
Inductive JValue : Type :=
| JUndefined
| JNull
| JBool (b : bool)
| JNum (n : float)
| JStr (s : string)
| JArr (items : list JValue)
| JObj (props : list (string * JValue))
| JWith (proto : JValue) (props : list (string * JValue))
| JFun (src : string).

(** The own enumerable properties of an object, in property order. *)
Definition Props : Type := list (string * JValue).

Fixpoint obj_get (o : Props) (k : string) : option JValue :=
  match o with
  | [] => None
  | (k', v) :: r => if String.eqb k' k then Some v else obj_get r k
  end.

(** [o[k] = v]: an existing property keeps its place. *)
Fixpoint obj_set (o : Props) (k : string) (v : JValue) : Props :=
  match o with
  | [] => [(k, v)]
  | (k', v') :: r =>
    if String.eqb k' k then (k', v) :: r else (k', v') :: obj_set r k v
  end.

(** [delete o[k]] *)
Fixpoint obj_delete (o : Props) (k : string) : Props :=
  match o with
  | [] => []
  | (k', v') :: r =>
    if String.eqb k' k then obj_delete r k else (k', v') :: obj_delete r k
  end.

(** [Object.keys(o)] *)
Definition obj_keys (o : Props) : list string := map fst o.

(** [{ ...base, ...more }] once [base] is spread: the properties of [more]
    are defined one after the other. *)
Definition spread (base more : Props) : Props :=
  fold_left (fun o kv => obj_set o (fst kv) (snd kv)) more base.

Definition has_key (o : Props) (k : string) : bool :=
  match obj_get o k with Some _ => true | None => false end.

(** The type of [v] is Object. *)
Definition is_object (v : JValue) : bool :=
  match v with JArr _ | JObj _ | JWith _ _ | JFun _ => true | _ => false end.

(** A write of [__proto__] on an object whose prototype is [p] and which has
    no own property of that name reaches the accessor of [Object.prototype]:
    no object of the chain has an own property [__proto__], and the chain
    does not end in [null]. *)
Fixpoint reaches_accessor (p : JValue) : bool :=
  match p with
  | JObj props => negb (has_key props "__proto__")
  | JWith q props => (negb (has_key props "__proto__") && reaches_accessor q)%bool
  | JArr _ | JFun _ => true
  | _ => false
  end.

(** [o[k] = v] for an object [o] built by the engine.  A write of
    [__proto__] that reaches the accessor replaces the prototype when [v] is
    an object or [null] and does nothing otherwise; every other write
    defines or updates an own property. *)
Definition put (o : JValue) (k : string) (v : JValue) : JValue :=
  match o with
  | JObj props =>
    if (String.eqb k "__proto__" && negb (has_key props k))%bool then
      if (is_object v || match v with JNull => true | _ => false end)%bool
      then JWith v props else o
    else JObj (obj_set props k v)
  | JWith p props =>
    if (String.eqb k "__proto__" && negb (has_key props k) && reaches_accessor p)%bool
    then
      if (is_object v || match v with JNull => true | _ => false end)%bool
      then JWith v props else o
    else JWith p (obj_set props k v)
  | _ => o
  end.

(** The own properties after [o[k] = v], for an ordinary object with the
    own properties [o]. *)
Definition assign (o : Props) (k : string) (v : JValue) : Props :=
  if (String.eqb k "__proto__" && negb (has_key o k))%bool then o
  else obj_set o k v.

Definition digit_char (n : nat) : ascii := ascii_of_nat (48 + n).

(** The decimal numeral of [n] (at most [fuel] digits). *)
Fixpoint decimal_from (fuel n : nat) (acc : string) : string :=
  match fuel with
  | O => acc
  | S f =>
    let acc' := String (digit_char (n mod 10)) acc in
    if Nat.leb n 9 then acc' else decimal_from f (n / 10) acc'
  end.

Definition decimal (n : nat) : string := decimal_from (S n) n EmptyString.

(** The elements of an array as the properties ["0"], ["1"], ... *)
Fixpoint indexed_from (i : nat) (l : list JValue) : Props :=
  match l with
  | [] => []
  | v :: r => (decimal i, v) :: indexed_from (S i) r
  end.

(** The value of a canonical array index (["0"], ["7"], ["12"]). *)
Fixpoint digits_value (s : string) (acc : nat) : nat :=
  match s with
  | EmptyString => acc
  | String c r => digits_value r (10 * acc + (nat_of_ascii c - 48))
  end.

Definition all_chars (p : ascii -> bool) (s : string) : bool :=
  is_empty (snd (span p s)).

Definition parse_index (s : string) : option nat :=
  match s with
  | EmptyString => None
  | String c r =>
    if (all_chars is_digit s && (negb (Ascii.eqb c "0") || is_empty r))%bool
    then Some (digits_value s 0) else None
  end.

Fixpoint digits_number (s : string) (acc : N) : N :=
  match s with
  | EmptyString => acc
  | String c r => digits_number r (10 * acc + (char_code c - 48))%N
  end.

(** The array index a property key stands for: a canonical numeral below
    2^32 - 1. *)
Definition array_index (s : string) : option N :=
  match s with
  | EmptyString => None
  | String c r =>
    if (all_chars is_digit s && (negb (Ascii.eqb c "0") || is_empty r))%bool
    then
      let n := digits_number s 0 in
      if N.ltb n 4294967295 then Some n else None
    else None
  end.

(** [insert_index n kv l]: [kv], of index [n], put into [l], which is in
    ascending order of index. *)
Fixpoint insert_index {A : Type} (n : N) (kv : string * A) (l : list (N * (string * A)))
  : list (N * (string * A)) :=
  match l with
  | [] => [(n, kv)]
  | (m, kv') :: r =>
    if N.leb n m then (n, kv) :: l else (m, kv') :: insert_index n kv r
  end.

Fixpoint index_entries {A : Type} (o : list (string * A)) : list (N * (string * A)) :=
  match o with
  | [] => []
  | kv :: r =>
    match array_index (fst kv) with
    | Some n => insert_index n kv (index_entries r)
    | None => index_entries r
    end
  end.

Definition named_entries {A : Type} (o : list (string * A)) : list (string * A) :=
  filter (fun kv => match array_index (fst kv) with Some _ => false | None => true end) o.

(** The own properties in the order in which [Object.keys],
    [Object.entries], a spread and [JSON.stringify] go through them: the
    array indices in ascending order, then the other keys in insertion
    order. *)
Definition enumerate {A : Type} (o : list (string * A)) : list (string * A) :=
  (map snd (index_entries o) ++ named_entries o)%list.

(** [v ?? ...], [v == null] *)
Definition is_nullish (v : JValue) : bool :=
  match v with JUndefined | JNull => true | _ => false end.

(** [Boolean(v)] *)
Definition truthy (v : JValue) : bool :=
  match v with
  | JUndefined | JNull => false
  | JBool b => b
  | JNum n => negb (PrimFloat.eqb n 0%float || PrimFloat.is_nan n)
  | JStr s => negb (is_empty s)
  | JArr _ | JObj _ | JWith _ _ | JFun _ => true
  end.

(** [typeof v === 'object'] *)
Definition typeof_object (v : JValue) : bool :=
  match v with JNull | JArr _ | JObj _ | JWith _ _ => true | _ => false end.

(** [typeof v === 'string'] *)
Definition typeof_string (v : JValue) : bool :=
  match v with JStr _ => true | _ => false end.

(** [a === b].  Two objects met by the engine are never the same object:
    each comes out of its own parse or literal. *)
Definition strict_eq (a b : JValue) : bool :=
  match a, b with
  | JUndefined, JUndefined => true
  | JNull, JNull => true
  | JBool x, JBool y => Bool.eqb x y
  | JNum x, JNum y => PrimFloat.eqb x y
  | JStr x, JStr y => String.eqb x y
  | _, _ => false
  end.

(** What a call does: it returns, or it throws. *)
Inductive Outcome (A : Type) : Type :=
| Returned (a : A)
| Thrown.

Arguments Returned {A} a.
Arguments Thrown {A}.

Definition bind {A B : Type} (x : Outcome A) (k : A -> Outcome B) : Outcome B :=
  match x with
  | Returned a => k a
  | Thrown => Thrown
  end.

Notation "x <- e ;; k" := (bind e (fun x => k))
  (at level 61, e at next level, right associativity).

(** The outcomes of [l] when all returned, [Thrown] when one threw. *)
Fixpoint all_returned {A : Type} (l : list (Outcome A)) : Outcome (list A) :=
  match l with
  | [] => Returned []
  | x :: r => a <- x ;; rest <- all_returned r ;; Returned (a :: rest)
  end.

(** ** The runtime *)

Class Runtime : Type := {
  (** [JSON.parse(text)]; [None] when it throws. *)
  JSON_parse : string -> option JValue;
  (** [JSON.stringify(v)] *)
  JSON_stringify : JValue -> string;
  (** [new RegExp(pattern).test(text)]; [None] when the pattern is refused. *)
  RegExp_test : string -> string -> option bool;
  toLowerCase : string -> string;
  toUpperCase : string -> string;
  (** [String(n)] for a number *)
  Number_toString : float -> string;
  (** [Number(v)] for a [v] that is not an object *)
  ToNumber : JValue -> float;
  (** UTF-8 decoding as [URLSearchParams] does it, malformed bytes replaced. *)
  utf8_decode : string -> string;
  (** [v[k]] when [k] is not an own property the model holds: indices and
      length of a string, the length of an array, prototype members. *)
  get_inherited : JValue -> string -> JValue;
  (** [k in v] for such a [k]. *)
  has_inherited : JValue -> string -> bool;
  (** Reading [v[k]] throws: [k] is an accessor of the prototype chain that
      refuses [v] ([caller] and [arguments] of a function). *)
  read_throws : JValue -> string -> bool;
  (** [String(v)] and [Number(v)] for an object [v] whose conversion runs
      code the model does not hold: a function it finds as [toString] or
      [valueOf], or the methods an object with a replaced prototype
      inherits. *)
  String_exotic : JValue -> Outcome string;
  Number_exotic : JValue -> Outcome float
}.

Section Engine.

Context {rt : Runtime}.

(** [v[k]] for a [v] that is neither null nor undefined, when the read
    returns. *)
Definition get_prop (v : JValue) (k : string) : JValue :=
  match v with
  | JObj o | JWith _ o =>
    match obj_get o k with Some x => x | None => get_inherited v k end
  | JArr l =>
    match parse_index k with
    | Some i => match nth_error l i with Some x => x | None => get_inherited v k end
    | None => get_inherited v k
    end
  | _ => get_inherited v k
  end.

(** [v[k]] under a name [k] that comes from data (a segment of a path, the
    name of a token): the read may throw.  The names the engine spells out
    itself are read with [get_prop]: the values it reads them from come out
    of [JSON.parse] or of an object literal, and none has a throwing
    accessor under such a name. *)
Definition get_member (v : JValue) (k : string) : Outcome JValue :=
  if read_throws v k then Thrown else Returned (get_prop v k).

(** [k in v] for an object or an array [v]. *)
Definition has_prop (v : JValue) (k : string) : bool :=
  match v with
  | JObj o | JWith _ o =>
    match obj_get o k with Some _ => true | None => has_inherited v k end
  | JArr l =>
    match parse_index k with
    | Some i => if Nat.ltb i (List.length l) then true else has_inherited v k
    | None => has_inherited v k
    end
  | _ => has_inherited v k
  end.

(** [String(v)].  An ordinary object is converted by the method it finds
    as [toString]: the one of [Object.prototype] unless it has an own
    property of that name, which, when it is no function, is passed over
    for [valueOf]; the [valueOf] of [Object.prototype] gives the object
    back, an own one that is no function is passed over, and the conversion
    then throws.  An array is joined. *)
Fixpoint ToString (v : JValue) : Outcome string :=
  match v with
  | JUndefined => Returned "undefined"
  | JNull => Returned "null"
  | JBool true => Returned "true"
  | JBool false => Returned "false"
  | JNum n => Returned (Number_toString n)
  | JStr s => Returned s
  | JArr l =>
    texts <- all_returned
               (map (fun x => if is_nullish x then Returned EmptyString else ToString x)
                    l) ;;
    Returned (join "," texts)
  | JObj o =>
    match obj_get o "toString" with
    | None => Returned "[object Object]"
    | Some (JFun _) => String_exotic v
    | Some _ =>
      match obj_get o "valueOf" with
      | Some (JFun _) => String_exotic v
      | _ => Thrown
      end
    end
  | JWith _ _ => String_exotic v
  | JFun src => Returned src
  end.

(** [Number(v)]: an object is converted by [valueOf], which for the objects
    of the model gives no primitive value, then by [toString]. *)
Definition Number_of (v : JValue) : Outcome float :=
  match v with
  | JObj o =>
    match obj_get o "valueOf" with
    | Some (JFun _) => Number_exotic v
    | _ => s <- ToString v ;; Returned (ToNumber (JStr s))
    end
  | JArr _ => s <- ToString v ;; Returned (ToNumber (JStr s))
  | JWith _ _ | JFun _ => Number_exotic v
  | _ => Returned (ToNumber v)
  end.

(** The own enumerable properties a spread or [Object.entries] sees. *)
Definition own_entries (v : JValue) : Props :=
  match v with
  | JObj o | JWith _ o => enumerate o
  | JArr l => indexed_from 0 l
  | JStr s => indexed_from 0 (map (fun c => JStr (String c EmptyString)) (list_ascii_of_string s))
  | _ => []
  end.

(** safeJsonParse, lines 25-32. *)
Definition safeJsonParse (value : option string) : JValue :=
  match value with
  | None => JNull
  | Some s =>
    if is_empty s then JNull
    else match JSON_parse s with Some v => v | None => JNull end
  end.

(** ** Token substitution *)

(** A context is the object literal built at lines 516-527. *)
Definition TemplateContext : Type := Props.

(** [/\[(\d+)\]/g], replaced by [.$1] (line 339). *)
Definition match_index (s : string) : option (string * nat) :=
  match strip_prefix "[" s with
  | Some r =>
    let (ds, r') := span is_digit r in
    if (negb (is_empty ds) && startsWith r' "]")%bool
    then Some ("." ++ ds, String.length ds + 2)
    else None
  | None => None
  end.

(** The loop of lines 342-345. *)
Fixpoint walk (current : JValue) (parts : list string) : Outcome JValue :=
  match parts with
  | [] => Returned current
  | part :: rest =>
    if is_nullish current then Returned JUndefined
    else next <- get_member current part ;; walk next rest
  end.

(** getValueByPath, lines 337-347. *)
Definition getValueByPath (obj : JValue) (path : string) : Outcome JValue :=
  if is_empty path then Returned JUndefined
  else
    let normalized := gsub match_index path in
    let parts := nonempty (split_char "." normalized) in
    walk obj parts.

(** [/#\{([a-zA-Z0-9_.-]+)\}/g], replaced by [{{$1}}] (line 70). *)
Definition match_legacy (s : string) : option (string * nat) :=
  match strip_prefix "#{" s with
  | Some r =>
    let (name, r') := span is_token_char r in
    if (negb (is_empty name) && startsWith r' "}")%bool
    then Some ("{{" ++ name ++ "}}", String.length name + 3)
    else None
  | None => None
  end.

(** TEMPLATE_TOKEN_RE, line 67: the name of the token at the front of [s]
    and the length of the token. *)
Definition match_token (s : string) : option (string * nat) :=
  match strip_prefix "{{" s with
  | Some r =>
    let (name, r') := span is_token_char (skip_ws r) in
    match strip_prefix "}}" (skip_ws r') with
    | Some rest =>
      if is_empty name then None
      else Some (name, String.length s - String.length rest)
    | None => None
    end
  | None => None
  end.

(** The callback of lines 71-76. *)
Definition resolve (context : TemplateContext) (key : string) : Outcome string :=
  rawValue <- (if includes key "." then getValueByPath (JObj context) key
               else get_member (JObj context) key) ;;
  match rawValue with
  | JUndefined | JNull => Returned EmptyString
  | JStr s => Returned s
  | v => ToString v
  end.

(** [s.replace(re, callback)] for a global [re] that never matches the
    empty string and a callback that may throw: [m] tells, for the text at
    the current position, what the callback does and the length of the
    match. *)
Fixpoint replace_from (m : string -> option (Outcome string * nat)) (skip : nat)
    (s : string) : Outcome string :=
  match s with
  | EmptyString => Returned EmptyString
  | String c r =>
    match skip with
    | S k => replace_from m k r
    | O =>
      match m s with
      | Some (callback, len) =>
        rep <- callback ;; rest <- replace_from m (pred len) r ;; Returned (rep ++ rest)
      | None => rest <- replace_from m 0 r ;; Returned (String c rest)
      end
    end
  end.

(** applyTemplate, lines 69-77. *)
Definition applyTemplate (value : string) (context : TemplateContext)
  : Outcome string :=
  let normalized := gsub match_legacy value in
  replace_from (fun s => match match_token s with
                         | Some (key, len) => Some (resolve context key, len)
                         | None => None
                         end) 0 normalized.

(** The loop of lines 83-86: the results of the properties, in the order of
    [Object.entries], assigned one after the other to an empty object. *)
Definition assign_all (results : list (string * Outcome JValue)) : Outcome JValue :=
  fold_left
    (fun next kr => o <- next ;; v <- snd kr ;; Returned (put o (fst kr) v))
    (enumerate results) (Returned (JObj [])).

(** replaceTemplates, lines 79-90. *)
Fixpoint replaceTemplates (value : JValue) (context : TemplateContext)
  : Outcome JValue :=
  match value with
  | JStr s => s' <- applyTemplate s context ;; Returned (JStr s')
  | JArr l =>
    items <- all_returned (map (fun item => replaceTemplates item context) l) ;;
    Returned (JArr items)
  | JObj o | JWith _ o =>
    assign_all (map (fun kv => (fst kv, replaceTemplates (snd kv) context)) o)
  | _ => Returned value
  end.

(** ** Object literals and directives *)

(** Line 98: a comma or an opening brace, white space, a bare key of [\w]
    and [-] characters, white space and a colon; the key is put between
    double quotes and the white space before the colon is dropped. *)
Definition match_bare_key (s : string) : option (string * nat) :=
  match s with
  | String c r =>
    if (Ascii.eqb c "," || Ascii.eqb c "{")%bool then
      let r1 := skip_ws r in
      let (key, r2) := span is_word_dash r1 in
      match strip_prefix ":" (skip_ws r2) with
      | Some rest =>
        if is_empty key then None
        else
          let lead := take (String.length s - String.length r1) s in
          Some (lead ++ String (ascii_of_nat 34) key
                     ++ String (ascii_of_nat 34) ":",
                String.length s - String.length rest)
      | None => None
      end
    else None
  | EmptyString => None
  end.

(** [/,\s*([}\]])/g], replaced by [$1] (line 99). *)
Definition match_trailing_comma (s : string) : option (string * nat) :=
  match strip_prefix "," s with
  | Some r =>
    match skip_ws r with
    | String c rest =>
      if (Ascii.eqb c "}" || Ascii.eqb c "]")%bool
      then Some (String c EmptyString, String.length s - String.length rest)
      else None
    | EmptyString => None
    end
  | None => None
  end.

(** Lines 96-97: every backtick and every single quote becomes a double
    quote. *)
Fixpoint unify_quotes (s : string) : string :=
  match s with
  | EmptyString => EmptyString
  | String c r =>
    String (if (Ascii.eqb c "`" || Ascii.eqb c "'")%bool then ascii_of_nat 34 else c)
           (unify_quotes r)
  end.

(** parseObjectLiteral, lines 92-101. *)
Definition parseObjectLiteral (raw : string) : JValue :=
  let cleaned := trim raw in
  if negb (startsWith cleaned "{") then JNull
  else
    let cleaned :=
      gsub match_trailing_comma (gsub match_bare_key (unify_quotes cleaned)) in
    safeJsonParse (Some cleaned).

(** One match of [#name\{([\s\S]*?)\}] under [i] at the front of [s]: the
    captured text and the length of the match. *)
Definition match_directive (name : string) (s : string) : option (string * nat) :=
  match strip_prefix_ci ("#" ++ name ++ "{") s with
  | Some r =>
    match cut_at "}" r with
    | Some (inner, rest) => Some (inner, String.length s - String.length rest)
    | None => None
    end
  | None => None
  end.

(** extractDirective, lines 104-108. *)
Definition extractDirective (raw : string) (name : string) : option string :=
  match search (match_directive name) raw with
  | Some (inner, _) => Some (trim inner)
  | None => None
  end.

(** One match of [#(?:n1|n2|...)\{[\s\S]*?\}] under [i], removed. *)
Fixpoint match_any_directive (names : list string) (s : string)
  : option (string * nat) :=
  match names with
  | [] => None
  | name :: rest =>
    match match_directive name s with
    | Some (_, len) => Some (EmptyString, len)
    | None => match_any_directive rest s
    end
  end.

(** stripDirectives, lines 130-134. *)
Definition stripDirectives (raw : string) (names : list string) : string :=
  if is_empty raw then raw
  else gsub (match_any_directive names) raw.

(** The body of the loops of lines 120-126 and 184-190: the key and value
    of one [key=value] or [key:value] part, when it has a key. *)
Definition parse_pair (pair : string) : option (string * string) :=
  let sepIndex :=
    match indexOf pair "=" with
    | Some i => Some i
    | None => indexOf pair ":"
    end in
  match sepIndex with
  | None | Some O => None
  | Some i =>
    let key := trim (take i pair) in
    let value := trim (drop (S i) pair) in
    if is_empty key then None else Some (key, value)
  end.

Definition collect_pairs (pairs : list string) : Props :=
  fold_left
    (fun acc pair =>
       match parse_pair pair with
       | Some (key, value) => assign acc key (JStr value)
       | None => acc
       end)
    pairs [].

(** [[&;\n]] and [[&;\r\n]] *)
Definition is_header_sep (c : ascii) : bool :=
  (Ascii.eqb c "&" || Ascii.eqb c ";" || N.eqb (char_code c) 10)%bool.

Definition is_note_sep (c : ascii) : bool :=
  (is_header_sep c || N.eqb (char_code c) 13)%bool.

(** [a || b] on values *)
Definition or_else (a b : JValue) : JValue := if truthy a then a else b.

(** parseHeaderDirective, lines 110-128; [JNull] is the [null] result. *)
Definition parseHeaderDirective (raw : string) : JValue :=
  let trimmed := trim raw in
  if is_empty trimmed then JNull
  else
    let obj :=
      if startsWith trimmed "{"
      then or_else (parseObjectLiteral trimmed) (safeJsonParse (Some trimmed))
      else JNull in
    if truthy obj then obj
    else
      let pairs := nonempty (map trim (split_runs is_header_sep false trimmed)) in
      match pairs with
      | [] => JNull
      | _ =>
        let headers := collect_pairs pairs in
        match headers with [] => JNull | _ => JObj headers end
      end.

(** The loop of lines 137-139 over the keys. *)
Fixpoint first_named (keys : list string) (lowerName : string) : option string :=
  match keys with
  | [] => None
  | key :: rest =>
    if String.eqb (toLowerCase key) lowerName then Some key
    else first_named rest lowerName
  end.

(** findHeaderKey, lines 136-141. *)
Definition findHeaderKey (headers : Props) (lowerName : string) : option string :=
  first_named (obj_keys (enumerate headers)) lowerName.

(** hasHeader, lines 143-145. *)
Definition hasHeader (headers : Props) (name : string) : bool :=
  match findHeaderKey headers (toLowerCase name) with
  | Some _ => true
  | None => false
  end.

(** setHeader, lines 147-154. *)
Definition setHeader (headers : Props) (name : string) (value : JValue) : Props :=
  match findHeaderKey headers (toLowerCase name) with
  | Some existingKey =>
    if negb (is_empty existingKey) then assign headers existingKey value
    else assign headers name value
  | None => assign headers name value
  end.

(** One turn of the loop of lines 158-162. *)
Definition merge_one (next : Props) (kv : string * JValue) : Props :=
  let (key, value) := kv in
  let next :=
    match findHeaderKey next (toLowerCase key) with
    | Some existingKey =>
      if (negb (is_empty existingKey) && negb (String.eqb existingKey key))%bool
      then obj_delete next existingKey
      else next
    | None => next
    end in
  assign next key value.

(** mergeHeaders, lines 156-164. *)
Definition mergeHeaders (headers overrides : Props) : Props :=
  fold_left merge_one overrides (spread [] headers).

(** parseNoteVariables, lines 166-193. *)
Definition parseNoteVariables (note : option string) : Outcome Props :=
  match note with
  | None => Returned []
  | Some note =>
    if is_empty note then Returned []
    else
      let trimmed := trim note in
      if is_empty trimmed then Returned []
      else
        let parsed :=
          if startsWith trimmed "{" then safeJsonParse (Some trimmed) else JNull in
        if (truthy parsed && typeof_object parsed)%bool then
          fold_left
            (fun vars kv =>
               if is_nullish (snd kv) then vars
               else acc <- vars ;; text <- ToString (snd kv) ;;
                    Returned (assign acc (fst kv) (JStr text)))
            (own_entries parsed) (Returned [])
        else
          Returned
            (collect_pairs (nonempty (map trim (split_runs is_note_sep false trimmed))))
  end.

(** ** URLSearchParams *)

Definition hex_value (c : ascii) : option nat :=
  if is_digit c then Some (nat_of_ascii c - 48)
  else if in_range 65 70 c then Some (nat_of_ascii c - 55)
  else if in_range 97 102 c then Some (nat_of_ascii c - 87)
  else None.

Definition hex_digit (n : nat) : ascii :=
  if Nat.ltb n 10 then ascii_of_nat (48 + n) else ascii_of_nat (55 + n).

(** Percent-decoding of a byte sequence. *)
Fixpoint percent_decode (s : string) : string :=
  match s with
  | EmptyString => EmptyString
  | String c r =>
    if Ascii.eqb c "%" then
      match r with
      | String h1 (String h2 r2) =>
        match hex_value h1, hex_value h2 with
        | Some a, Some b => String (ascii_of_nat (16 * a + b)) (percent_decode r2)
        | _, _ => String c (percent_decode r)
        end
      | _ => String c (percent_decode r)
      end
    else String c (percent_decode r)
  end.

Fixpoint plus_to_space (s : string) : string :=
  match s with
  | EmptyString => EmptyString
  | String c r => String (if Ascii.eqb c "+" then " "%char else c) (plus_to_space r)
  end.

Definition form_decode (s : string) : string :=
  utf8_decode (percent_decode (plus_to_space s)).

(** The bytes the form serializer leaves as they are. *)
Definition form_safe (c : ascii) : bool :=
  (is_alnum c || Ascii.eqb c "*" || Ascii.eqb c "-" || Ascii.eqb c "."
   || Ascii.eqb c "_")%bool.

Fixpoint form_encode (s : string) : string :=
  match s with
  | EmptyString => EmptyString
  | String c r =>
    if form_safe c then String c (form_encode r)
    else if Ascii.eqb c " " then String "+" (form_encode r)
    else String "%" (String (hex_digit (nat_of_ascii c / 16))
                       (String (hex_digit (nat_of_ascii c mod 16)) (form_encode r)))
  end.

(** The list of name-value pairs of a [URLSearchParams] object. *)
Definition URLSearchParams : Type := list (string * string).

Definition parse_tuple (bytes : string) : string * string :=
  match cut_at "=" bytes with
  | Some (name, value) => (form_decode name, form_decode value)
  | None => (form_decode bytes, form_decode EmptyString)
  end.

(** [new URLSearchParams(init)] for a string [init]. *)
Definition usp_parse (init : string) : URLSearchParams :=
  let input := match strip_prefix "?" init with Some r => r | None => init end in
  map parse_tuple (nonempty (split_char "&" input)).

Fixpoint usp_remove (l : URLSearchParams) (name : string) : URLSearchParams :=
  match l with
  | [] => []
  | (n, v) :: r =>
    if String.eqb n name then usp_remove r name else (n, v) :: usp_remove r name
  end.

(** [params.set(name, value)] *)
Fixpoint usp_set (l : URLSearchParams) (name value : string) : URLSearchParams :=
  match l with
  | [] => [(name, value)]
  | (n, v) :: r =>
    if String.eqb n name then (n, value) :: usp_remove r name
    else (n, v) :: usp_set r name value
  end.

(** [params.toString()] *)
Definition usp_toString (l : URLSearchParams) : string :=
  join "&" (map (fun nv => form_encode (fst nv) ++ "=" ++ form_encode (snd nv)) l).

(** parseKeyValuePairs, lines 196-210; [JNull] is the [null] result. *)
Definition parseKeyValuePairs (raw : string) : JValue :=
  let trimmed := trim raw in
  if is_empty trimmed then JNull
  else if startsWith trimmed "{" then
    let obj := or_else (parseObjectLiteral trimmed) (safeJsonParse (Some trimmed)) in
    or_else obj JNull
  else if (negb (includes trimmed "=") && negb (includes trimmed ":"))%bool then JNull
  else
    let params := usp_parse trimmed in
    let result :=
      fold_left (fun res nv => assign res (fst nv) (JStr (snd nv))) params [] in
    match result with [] => JNull | _ => JObj result end.

(** ** Request templates *)

(** CustomRequestConfig, lines 48-54.  The fields hold what the parse put
    there; an absent field is [JUndefined]. *)
Record CustomRequestConfig : Type := {
  url : JValue;
  method : JValue;
  headers : JValue;
  body : JValue;
  bodyType : JValue
}.

(** The loop of lines 230-232: [baseParams.set(key, value)] for every
    entry, the value converted to a string. *)
Definition set_all (entries : Props) (params : URLSearchParams)
  : Outcome URLSearchParams :=
  fold_left
    (fun ps kv => acc <- ps ;; text <- ToString (snd kv) ;;
                  Returned (usp_set acc (fst kv) text))
    entries (Returned params).

(** applyBodyDirective, lines 212-240: the configuration after the call. *)
Definition applyBodyDirective (config : CustomRequestConfig) (directive : string)
  : Outcome CustomRequestConfig :=
  let trimmed := trim directive in
  if is_empty trimmed then Returned config
  else
    let overrides := parseKeyValuePairs trimmed in
    let replaced :=
      {| url := url config; method := method config; headers := headers config;
         body := JStr trimmed; bodyType := JStr "raw" |} in
    if (truthy (body config) && typeof_object (body config))%bool then
      if truthy overrides then
        Returned
          {| url := url config; method := method config; headers := headers config;
             body := JObj (spread (spread [] (own_entries (body config)))
                                  (own_entries overrides));
             bodyType := bodyType config |}
      else Returned replaced
    else
      match body config with
      | JStr b =>
        if (negb (is_empty b) && truthy overrides)%bool then
          baseParams <- set_all (own_entries overrides) (usp_parse b) ;;
          Returned
            {| url := url config; method := method config; headers := headers config;
               body := JStr (usp_toString baseParams);
               bodyType := if truthy (bodyType config) then bodyType config
                           else JStr "form" |}
        else Returned replaced
      | _ => Returned replaced
      end.

(** The part [const\s+kw\s*=\s*] of the patterns of lines 254-261 at the
    front of [s]: what follows it. *)
Definition match_const (kw : string) (s : string) : option string :=
  match strip_prefix "const" s with
  | Some r =>
    let r1 := skip_ws r in
    if Nat.ltb (String.length r1) (String.length r) then
      match strip_prefix kw r1 with
      | Some r2 =>
        match strip_prefix "=" (skip_ws r2) with
        | Some r3 => Some (skip_ws r3)
        | None => None
        end
      | None => None
      end
    else None
  | None => None
  end.

Definition is_quote (c : ascii) : bool :=
  (Ascii.eqb c "`" || Ascii.eqb c "'" || N.eqb (char_code c) 34)%bool.

(** [const kw = q...q]: the text between the quotes [q], up to the first
    closing one (group 2 of lines 254, 257, 259, 261). *)
Definition match_const_string (kw : string) (s : string) : option string :=
  match match_const kw s with
  | Some (String q r) =>
    if is_quote q then
      match cut_at q r with
      | Some (inner, _) => Some inner
      | None => None
      end
    else None
  | _ => None
  end.

(** [const kw = {...}]: the text from the brace to the first closing brace,
    both included (group 1 of lines 258, 260). *)
Definition match_const_object (kw : string) (s : string) : option string :=
  match match_const kw s with
  | Some r =>
    if startsWith r "{" then
      match cut_at "}" r with
      | Some (inner, _) => Some (inner ++ "}")
      | None => None
      end
    else None
  | None => None
  end.

Definition option_value (o : option string) : JValue :=
  match o with Some s => JStr s | None => JUndefined end.

(** Lines 250-252: the parsed object read as a configuration. *)
Definition config_of (parsed : JValue) : CustomRequestConfig :=
  {| url := get_prop parsed "url";
     method := get_prop parsed "method";
     headers := get_prop parsed "headers";
     body := get_prop parsed "body";
     bodyType := get_prop parsed "bodyType" |}.

(** Lines 254-290: the snippet syntax. *)
Definition parse_snippet (trimmed : string) : option CustomRequestConfig :=
  match search (match_const_string "url") trimmed with
  | None => None
  | Some urlMatch =>
    let methodMatch := search (match_const_string "method") trimmed in
    let headersMatch := search (match_const_object "headers") trimmed in
    let bodyTypeMatch := search (match_const_string "bodyType") trimmed in
    let bodyObjectMatch := search (match_const_object "body") trimmed in
    let bodyStringMatch := search (match_const_string "body") trimmed in
    let headers :=
      match headersMatch with
      | Some h => or_else (parseObjectLiteral h) JUndefined
      | None => JUndefined
      end in
    let body :=
      match bodyObjectMatch with
      | Some b =>
        or_else (or_else (parseObjectLiteral b) (safeJsonParse (Some b))) JUndefined
      | None => option_value bodyStringMatch
      end in
    let rawBodyType :=
      match bodyTypeMatch with
      | Some b => Some (toLowerCase (trim b))
      | None => None
      end in
    let explicitBodyType :=
      match rawBodyType with
      | Some b =>
        if (String.eqb b "json" || String.eqb b "form" || String.eqb b "raw")%bool
        then JStr b else JUndefined
      | None => JUndefined
      end in
    let inferredBodyType :=
      if typeof_object body then JStr "form"
      else match body with
           | JStr b => if includes b "=" then JStr "form" else JStr "raw"
           | _ => JUndefined
           end in
    Some {| url := JStr urlMatch;
            method := option_value methodMatch;
            headers := headers;
            body := body;
            bodyType := or_else explicitBodyType inferredBodyType |}
  end.

(** Lines 243-292: the configuration the template holds, its directives
    left out; [None] is the [null] result. *)
Definition template_config (raw : string) : option CustomRequestConfig :=
  let trimmed := trim (gsub (match_any_directive ["body"; "header"]) raw) in
  if is_empty trimmed then None
  else if startsWith trimmed "{" then
    let parsed := safeJsonParse (Some trimmed) in
    if is_nullish parsed then None
    else if truthy (get_prop parsed "url") then Some (config_of parsed)
    else None
  else parse_snippet trimmed.

(** Lines 294-301: the [#header] directive of the template, spread over the
    headers. *)
Definition with_header_directive (raw : string) (config : CustomRequestConfig)
  : CustomRequestConfig :=
  match extractDirective raw "header" with
  | Some hd =>
    if is_empty hd then config
    else
      let headerOverrides := parseHeaderDirective hd in
      if truthy headerOverrides then
        {| url := url config; method := method config;
           headers :=
             JObj (spread
                     (spread [] (own_entries (or_else (headers config) (JObj []))))
                     (own_entries headerOverrides));
           body := body config; bodyType := bodyType config |}
      else config
  | None => config
  end.

(** parseRequestTemplate, lines 242-307; [Returned None] is the [null]
    result. *)
Definition parseRequestTemplate (raw : string) : Outcome (option CustomRequestConfig) :=
  match template_config raw with
  | None => Returned None
  | Some config =>
    let config := with_header_directive raw config in
    match extractDirective raw "body" with
    | Some bd =>
      if is_empty bd then Returned (Some config)
      else applied <- applyBodyDirective config bd ;; Returned (Some applied)
    | None => Returned (Some config)
    end
  end.

(** ** Responses *)

(** parseResponseTemplate, lines 310-314; [JNull] is the [null] result. *)
Definition parseResponseTemplate (raw : option string) : JValue :=
  match raw with
  | None => JNull
  | Some r =>
    if is_empty r then JNull else or_else (safeJsonParse (Some r)) JNull
  end.

(** Line 321: an identifier, an opening parenthesis, anything up to the last
    closing parenthesis, then white space and an optional semicolon up to
    the end of the text; the result is the text between the parentheses. *)
Definition match_jsonp (s : string) : option string :=
  match s with
  | String c r =>
    if (is_upper c || is_lower c || Ascii.eqb c "_" || Ascii.eqb c "$")%bool then
      match strip_prefix "(" (snd (span is_word_dollar r)) with
      | Some r1 =>
        match lastIndexOf r1 ")" with
        | Some i =>
          let tail := skip_ws (drop (S i) r1) in
          if (is_empty tail || String.eqb tail ";")%bool
          then Some (take i r1) else None
        | None => None
        end
      | None => None
      end
    else None
  | EmptyString => None
  end.

(** tryParseJsonFromText, lines 316-335; [JNull] is the [null] result. *)
Definition tryParseJsonFromText (text : string) : JValue :=
  if is_empty text then JNull
  else
    let trimmed := trim text in
    if is_empty trimmed then JNull
    else
      let candidate :=
        match match_jsonp trimmed with
        | Some inner => inner
        | None => trimmed
        end in
      let direct := safeJsonParse (Some candidate) in
      if truthy direct then direct
      else
        match indexOf trimmed "{", lastIndexOf trimmed "}" with
        | Some firstBrace, Some lastBrace =>
          if Nat.ltb firstBrace lastBrace then
            safeJsonParse (Some (drop firstBrace (take (S lastBrace) trimmed)))
          else JNull
        | _, _ => JNull
        end.

Record DiscountInfo : Type := {
  plate : string;
  discountcharge : float;
  needcharge : string;
  entertime : string;
  staytime : string
}.

(** extractDiscountInfo, lines 349-360; [Returned None] is the [null]
    result. *)
Definition extractDiscountInfo (jsonResponse : JValue) : Outcome (option DiscountInfo) :=
  if negb (truthy jsonResponse) then Returned None
  else
    let info := get_prop jsonResponse "info" in
    if (negb (typeof_object info) || strict_eq info JNull)%bool then Returned None
    else if negb (has_prop info "discountcharge") then Returned None
    else
      plate <- ToString (or_else (get_prop info "plate") (JStr "")) ;;
      discountcharge <-
        Number_of (or_else (get_prop info "discountcharge") (JNum 0%float)) ;;
      needcharge <- ToString (or_else (get_prop info "needcharge") (JStr "0")) ;;
      entertime <- ToString (or_else (get_prop info "entertime") (JStr "")) ;;
      staytime <- ToString (or_else (get_prop info "staytime") (JStr "")) ;;
      Returned (Some {| plate := plate; discountcharge := discountcharge;
                        needcharge := needcharge; entertime := entertime;
                        staytime := staytime |}).

(** [p ? getValueByPath(json, p) : undefined] for a [p] read from the rule:
    a truthy [p] that is not a string has no [replace] method. *)
Definition value_at (json : JValue) (p : JValue) : Outcome JValue :=
  if truthy p then
    match p with
    | JStr path => getValueByPath json path
    | _ => Thrown
    end
  else Returned JUndefined.

(** [new RegExp(pattern).test(text)] *)
Definition regex_test (pattern : JValue) (text : string) : Outcome bool :=
  source <- ToString pattern ;;
  match RegExp_test source text with
  | Some b => Returned b
  | None => Thrown
  end.

(** [v?.k] *)
Definition get_opt (v : JValue) (k : string) : JValue :=
  if is_nullish v then JUndefined else get_prop v k.

Record Evaluated : Type := {
  ev_success : bool;
  ev_message : option string;
  ev_redirectUrl : option string;
  ev_json : JValue
}.

(** Lines 376-389: the success of a JSON response under [successRule]. *)
Definition json_success (json successRule : JValue) : Outcome bool :=
  if truthy successRule then
    targetValue <- value_at json (get_prop successRule "path") ;;
    let equals := get_prop successRule "equals" in
    if negb (strict_eq equals JUndefined) then
      if strict_eq targetValue equals then Returned true
      else
        found <- ToString targetValue ;;
        expected <- ToString equals ;;
        Returned (String.eqb found expected)
    else if truthy (get_prop successRule "regex") then
      target <- (if negb (strict_eq targetValue JUndefined) then ToString targetValue
                 else Returned (JSON_stringify json)) ;;
      regex_test (get_prop successRule "regex") target
    else if truthy (get_prop successRule "path") then Returned (truthy targetValue)
    else Returned false
  else Returned false.

(** Line 368: the type of a rule, inferred from its paths when not given. *)
Definition effective_type (config : JValue) : JValue :=
  or_else (get_prop config "type")
    (if truthy (or_else (or_else (get_opt (get_prop config "success") "path")
                                 (get_prop config "messagePath"))
                        (get_prop config "redirectPath"))
     then JStr "json" else JStr "text").

(** evaluateCustomResponse, lines 362-411; [Returned None] is the [null]
    result. *)
Definition evaluateCustomResponse (responseText : string) (config : JValue)
  : Outcome (option Evaluated) :=
  if negb (truthy config) then Returned None
  else
    let success := get_prop config "success" in
    if strict_eq (effective_type config) (JStr "json") then
      let json := tryParseJsonFromText responseText in
      if negb (truthy json) then
        Returned (Some {| ev_success := false;
                          ev_message := Some "Invalid JSON response";
                          ev_redirectUrl := None;
                          ev_json := JUndefined |})
      else
        ok <- json_success json success ;;
        messageValue <- value_at json (get_prop config "messagePath") ;;
        redirectValue <- value_at json (get_prop config "redirectPath") ;;
        message <- (if negb (strict_eq messageValue JUndefined)
                    then text <- ToString messageValue ;; Returned (Some text)
                    else Returned None) ;;
        Returned (Some {| ev_success := ok;
                          ev_message := message;
                          ev_redirectUrl :=
                            match redirectValue with
                            | JStr r => Some r
                            | _ => None
                            end;
                          ev_json := json |})
    else if truthy (get_opt success "regex") then
      ok <- regex_test (get_opt success "regex") responseText ;;
      Returned (Some {| ev_success := ok; ev_message := Some responseText;
                        ev_redirectUrl := None; ev_json := JUndefined |})
    else if negb (strict_eq (get_opt success "equals") JUndefined) then
      expected <- ToString (get_opt success "equals") ;;
      Returned (Some {| ev_success := includes responseText expected;
                        ev_message := Some responseText;
                        ev_redirectUrl := None; ev_json := JUndefined |})
    else
      Returned (Some {| ev_success := false; ev_message := Some responseText;
                        ev_redirectUrl := None; ev_json := JUndefined |}).

(** buildRequestBody, lines 413-434; [Returned None] is [undefined]. *)
Definition buildRequestBody (body bodyType : JValue) (context : TemplateContext)
  : Outcome (option string) :=
  match body with
  | JUndefined => Returned None
  | _ =>
    resolved <- replaceTemplates body context ;;
    match resolved with
    | JStr text => Returned (Some text)
    | resolvedObj =>
      if strict_eq bodyType (JStr "json") then
        Returned (Some (JSON_stringify resolvedObj))
      else
        match resolvedObj with
        | JNull => Thrown
        | _ =>
          params <-
            fold_left
              (fun ps kv =>
                 acc <- ps ;;
                 text <- (match snd kv with
                          | JNull => Returned EmptyString
                          | v => ToString v
                          end) ;;
                 Returned (usp_set acc (fst kv) text))
              (own_entries resolvedObj) (Returned []) ;;
          Returned (Some (usp_toString params))
        end
    end
  end.

(** ** One submission *)

(** The columns of a discount type that the engine reads
    ([src/lib/db/schema.ts], lines 19-36); [useCustomRequest] is the column
    after [Boolean(...)], line 484. *)
Record DiscountTypeRecord : Type := {
  name : string;
  jsessionid : option string;
  refererUrl : option string;
  scanUrl : option string;
  postParams : option string;
  useCustomRequest : bool;
  requestTemplate : option string;
  responseTemplate : option string
}.

(** The third argument of sendParkingDiscount, lines 458-463. *)
Record ContextOverrides : Type := {
  note : option string;
  guestName : option string;
  phone : option string;
  extra : option Props
}.

(** ParkingRequestResult, lines 436-448. *)
Record ParkingRequestResult : Type := {
  success : bool;
  message : option string;
  rawResponse : option string;
  redirectUrl : option string;
  discountInfo : option DiscountInfo
}.

(** The arguments of one [fetch]. *)
Record Request : Type := {
  req_url : string;
  req_method : string;
  req_headers : Props;
  req_body : option string
}.

(** What the engine reads of a response: [response.ok], and the text of the
    body unless reading it fails. *)
Record Response : Type := {
  ok : bool;
  text : option string
}.

(** The calls of one submission to its collaborators, each with what follows
    its outcome. *)
Inductive Action (A : Type) : Type :=
| Done (a : A)
| GetDiscountTypeByCode (discountTypeCode : string)
    (k : Outcome (option DiscountTypeRecord) -> Action A)
| Fetch (request : Request) (k : Outcome Response -> Action A).

Arguments Done {A} a.
Arguments GetDiscountTypeByCode {A} discountTypeCode k.
Arguments Fetch {A} request k.

Definition failure (msg : string) : ParkingRequestResult :=
  {| success := false; message := Some msg; rawResponse := None;
     redirectUrl := None; discountInfo := None |}.

(** The [catch] of lines 687-693. *)
Definition caught : ParkingRequestResult :=
  failure "Failed to request parking system".

(** [s || undefined] for a string or null [s]. *)
Definition string_or_undefined (s : option string) : JValue :=
  match s with
  | Some x => if is_empty x then JUndefined else JStr x
  | None => JUndefined
  end.

Definition is_truthy_string (s : option string) : bool :=
  match s with Some x => negb (is_empty x) | None => false end.

(** Lines 511-515: the directives and the variables of the note. *)
Definition noteRaw_of (contextOverrides : option ContextOverrides) : option string :=
  match contextOverrides with
  | Some o => note o
  | None => None
  end.

Definition note_directive (noteRaw : option string) (which : string) : option string :=
  match noteRaw with
  | Some n => if is_empty n then None else extractDirective n which
  | None => None
  end.

Definition cleanedNote_of (noteRaw : option string) : option string :=
  match noteRaw with
  | Some n =>
    if is_empty n then None else Some (trim (stripDirectives n ["body"; "header"]))
  | None => None
  end.

(** Lines 515-527. *)
Definition build_context (plateNumber discountTypeCode : string)
    (discountType : DiscountTypeRecord) (contextOverrides : option ContextOverrides)
  : Outcome TemplateContext :=
  let cleanedNote := cleanedNote_of (noteRaw_of contextOverrides) in
  noteVars <- parseNoteVariables cleanedNote ;;
  let base : Props :=
    [ ("plate", JStr plateNumber);
      ("discountType", JStr discountTypeCode);
      ("jsessionid", string_or_undefined (jsessionid discountType));
      ("referer", string_or_undefined (refererUrl discountType));
      ("scanUrl", string_or_undefined (scanUrl discountType));
      ("note", string_or_undefined cleanedNote);
      ("name", string_or_undefined
                 (match contextOverrides with Some o => guestName o | None => None end));
      ("phone", string_or_undefined
                  (match contextOverrides with Some o => phone o | None => None end)) ] in
  Returned
    (spread (spread base (enumerate noteVars))
            (match contextOverrides with
             | Some o => match extra o with Some e => enumerate e | None => [] end
             | None => []
             end)).

(** Lines 529-547: the template with the directives of the note on top. *)
Definition effective_config (requestConfig : CustomRequestConfig)
    (noteRaw : option string) : Outcome CustomRequestConfig :=
  let copied :=
    {| url := url requestConfig;
       method := method requestConfig;
       headers :=
         if truthy (headers requestConfig)
         then JObj (spread [] (own_entries (headers requestConfig)))
         else JUndefined;
       body :=
         if (truthy (body requestConfig) && typeof_object (body requestConfig))%bool
         then JObj (spread [] (own_entries (body requestConfig)))
         else body requestConfig;
       bodyType := bodyType requestConfig |} in
  let withHeaders :=
    match note_directive noteRaw "header" with
    | Some hd =>
      if is_empty hd then copied
      else
        let headerOverrides := parseHeaderDirective hd in
        if truthy headerOverrides then
          {| url := url copied; method := method copied;
             headers :=
               JObj (mergeHeaders (own_entries (or_else (headers copied) (JObj [])))
                                  (own_entries headerOverrides));
             body := body copied; bodyType := bodyType copied |}
        else copied
    | None => copied
    end in
  match note_directive noteRaw "body" with
  | Some bd =>
    if is_empty bd then Returned withHeaders else applyBodyDirective withHeaders bd
  | None => Returned withHeaders
  end.

(** Lines 557-560: every header value converted to a string and
    token-substituted, assigned under its key to an empty object. *)
Definition resolve_headers (headers : Props) (context : TemplateContext)
  : Outcome Props :=
  fold_left
    (fun resolved kv =>
       acc <- resolved ;;
       text <- ToString (snd kv) ;;
       value <- applyTemplate text context ;;
       Returned (assign acc (fst kv) (JStr value)))
    (enumerate headers) (Returned []).

(** Lines 549-579: the request that is sent. *)
Definition assemble_request (config : CustomRequestConfig) (context : TemplateContext)
  : Outcome Request :=
  match url config with
  | JStr u =>
    resolvedUrl <- applyTemplate u context ;;
    match or_else (method config) (JStr "POST") with
    | JStr m =>
      let method := toUpperCase m in
      let headers := spread [] (own_entries (or_else (headers config) (JObj []))) in
      let jsessionid := get_prop (JObj context) "jsessionid" in
      headers <-
        (if (negb (hasHeader headers "cookie") && truthy jsessionid)%bool
         then session <- ToString jsessionid ;;
              Returned (setHeader headers "Cookie" (JStr ("JSESSIONID=" ++ session)))
         else Returned headers) ;;
      resolvedHeaders <- resolve_headers headers context ;;
      let referer := get_prop (JObj context) "referer" in
      let resolvedHeaders :=
        if (negb (hasHeader resolvedHeaders "referer") && truthy referer)%bool
        then setHeader resolvedHeaders "Referer" referer
        else resolvedHeaders in
      if negb (String.eqb method "GET") then
        let resolvedBodyType :=
          or_else (bodyType config)
                  (if typeof_object (body config) then JStr "form" else JUndefined) in
        body <- buildRequestBody (body config) resolvedBodyType context ;;
        let resolvedHeaders :=
          if strict_eq resolvedBodyType (JStr "json") then
            if negb (hasHeader resolvedHeaders "content-type")
            then setHeader resolvedHeaders "Content-Type" (JStr "application/json")
            else resolvedHeaders
          else if strict_eq resolvedBodyType (JStr "form") then
            if negb (hasHeader resolvedHeaders "content-type")
            then setHeader resolvedHeaders "Content-Type"
                   (JStr "application/x-www-form-urlencoded; charset=UTF-8")
            else resolvedHeaders
          else resolvedHeaders in
        Returned {| req_url := resolvedUrl; req_method := method;
                    req_headers := resolvedHeaders; req_body := body |}
      else
        Returned {| req_url := resolvedUrl; req_method := method;
                    req_headers := resolvedHeaders; req_body := None |}
    | _ => Thrown
    end
  | _ => Thrown
  end.

(** Lines 587-615: the result of the custom flow for a response. *)
Definition custom_result (customResponse : JValue) (response : Response)
  : Outcome ParkingRequestResult :=
  match text response with
  | None => Thrown
  | Some responseText =>
    evaluated <- evaluateCustomResponse responseText customResponse ;;
    match evaluated with
    | Some ev =>
      info <- extractDiscountInfo (ev_json ev) ;;
      Returned {| success := ev_success ev;
                  message := ev_message ev;
                  rawResponse := Some responseText;
                  redirectUrl := ev_redirectUrl ev;
                  discountInfo := info |}
    | None =>
      let jsonResponse := tryParseJsonFromText responseText in
      info <- extractDiscountInfo (or_else jsonResponse JUndefined) ;;
      match info with
      | Some info =>
        Returned {| success := true; message := None;
                    rawResponse := Some responseText;
                    redirectUrl := None; discountInfo := Some info |}
      | None =>
        Returned {| success := ok response;
                    message := if ok response then None else Some "Request failed";
                    rawResponse := Some responseText;
                    redirectUrl := None; discountInfo := None |}
      end
    end
  end.

Definition PARKING_API_URL : string :=
  "http://www.szdaqin.cn/shopDiscount/goDicount.do?responseFunction=goDicount&querytype=0".

Definition DEFAULT_BODY_PARAMS : Props :=
  [ ("id", JStr "8"); ("businessid", JStr "3"); ("parkid", JStr "229");
    ("type", JStr "null"); ("serialNumber", JStr ""); ("orderno", JStr "");
    ("totalcount", JStr "1") ].

(** Lines 625-658: the request of the legacy flow. *)
Definition legacy_request (plateNumber : string) (discountType : DiscountTypeRecord)
    (jsessionid : string) : Outcome Request :=
  let storedPostParams := safeJsonParse (postParams discountType) in
  let headers : Props :=
    [ ("X-Requested-With", JStr "XMLHttpRequest");
      ("Content-Type", JStr "application/x-www-form-urlencoded; charset=UTF-8");
      ("Origin", JStr "http://www.szdaqin.cn");
      ("Accept", JStr "text/plain, */*; q=0.01");
      ("Accept-Language", JStr "zh-CN,zh;q=0.9,en;q=0.8");
      ("User-Agent", JStr "Mozilla/5.0 (iPhone; CPU iPhone OS 18_7 like Mac OS X) AppleWebKit/605.1.15 (KHTML, like Gecko) Version/26.2 Mobile/15E148 Safari/604.1");
      ("Cookie", JStr ("JSESSIONID=" ++ jsessionid)) ] in
  let headers :=
    match refererUrl discountType with
    | Some referer =>
      if is_empty referer then headers else obj_set headers "Referer" (JStr referer)
    | None => headers
    end in
  let bodyParams :=
    obj_set (spread DEFAULT_BODY_PARAMS
                    (own_entries (or_else storedPostParams (JObj []))))
            "plate" (JStr plateNumber) in
  pairs <- all_returned
             (map (fun kv => text <- ToString (snd kv) ;; Returned (fst kv, text))
                  (enumerate bodyParams)) ;;
  Returned {| req_url := PARKING_API_URL;
              req_method := "POST";
              req_headers := headers;
              req_body := Some (usp_toString pairs) |}.

(** Lines 660-686: the result of the legacy flow for a response. *)
Definition legacy_result (response : Response) : Outcome ParkingRequestResult :=
  match text response with
  | None => Thrown
  | Some responseText =>
    let jsonResponse := tryParseJsonFromText responseText in
    found <- extractDiscountInfo (or_else jsonResponse JUndefined) ;;
    match found with
    | Some info =>
      Returned {| success := true; message := None;
                  rawResponse := Some responseText;
                  redirectUrl := None; discountInfo := Some info |}
    | None =>
      let info := get_opt jsonResponse "info" in
      errorMessage <-
        (if (truthy info && typeof_object info)%bool then
           let errmsg := get_prop info "errmsg" in
           if (truthy errmsg && negb (strict_eq errmsg (JStr "ok")))%bool
           then ToString errmsg
           else Returned "Parking discount request failed"
         else Returned "Parking discount request failed") ;;
      Returned {| success := false; message := Some errorMessage;
                  rawResponse := Some responseText;
                  redirectUrl := None; discountInfo := None |}
    end
  end.

(** What is returned once a call has returned or thrown. *)
Definition settle (r : Outcome ParkingRequestResult) : ParkingRequestResult :=
  match r with
  | Returned result => result
  | Thrown => caught
  end.

(** Lines 484-686, once the discount type is loaded. *)
Definition submit (plateNumber discountTypeCode : string)
    (contextOverrides : option ContextOverrides) (discountType : DiscountTypeRecord)
  : Action ParkingRequestResult :=
  let customRequestRaw :=
    if useCustomRequest discountType then
      match requestTemplate discountType with
      | Some t => Some (trim t)
      | None => None
      end
    else Some EmptyString in
  let customResponse := parseResponseTemplate (responseTemplate discountType) in
  if (is_truthy_string (responseTemplate discountType) && negb (truthy customResponse))%bool
  then Done (failure ("Custom response template parse failed for " ++ name discountType))
  else if (useCustomRequest discountType && negb (is_truthy_string customRequestRaw))%bool
  then Done (failure ("Custom request enabled but template is empty for "
                        ++ name discountType))
  else
    match customRequestRaw with
    | Some (String c r) =>
      match parseRequestTemplate (String c r) with
      | Thrown => Done caught
      | Returned None =>
        Done (failure ("Custom request template parse failed for " ++ name discountType))
      | Returned (Some requestConfig) =>
        match
          (context <- build_context plateNumber discountTypeCode discountType
                        contextOverrides ;;
           effectiveRequestConfig <-
             effective_config requestConfig (noteRaw_of contextOverrides) ;;
           assemble_request effectiveRequestConfig context)
        with
        | Thrown => Done caught
        | Returned request =>
          Fetch request
            (fun outcome => Done (settle (bind outcome (custom_result customResponse))))
        end
      end
    | _ =>
      match jsessionid discountType with
      | Some (String c r) =>
        match legacy_request plateNumber discountType (String c r) with
        | Thrown => Done caught
        | Returned request =>
          Fetch request (fun outcome => Done (settle (bind outcome legacy_result)))
        end
      | _ =>
        Done (failure ("Discount type " ++ name discountType
                         ++ " missing Session ID. Configure in settings."))
      end
    end.

(** sendParkingDiscount, lines 455-694. *)
Definition sendParkingDiscount (plateNumber discountTypeCode : string)
    (contextOverrides : option ContextOverrides) : Action ParkingRequestResult :=
  if String.eqb discountTypeCode "none" then Done (failure "Discount type not set")
  else
    GetDiscountTypeByCode discountTypeCode
      (fun loaded =>
         match loaded with
         | Thrown => Done caught
         | Returned None =>
           Done (failure ("Discount type not found: " ++ discountTypeCode))
         | Returned (Some discountType) =>
           submit plateNumber discountTypeCode contextOverrides discountType
         end).

End Engine.

Arguments Returned {A} a.
Arguments Thrown {A}.
Arguments Done {A} a.
Arguments GetDiscountTypeByCode {A} discountTypeCode k.
Arguments Fetch {A} request k.

Notation "x <- e ;; k" := (bind e (fun x => k))
  (at level 61, e at next level, right associativity).

(** ** A runtime to evaluate with

    [Reference.runtime] computes, so that the engine can be run on concrete
    inputs.  It follows ECMAScript on what the examples below use: JSON
    texts made of objects, arrays, strings with the simple escapes, integers
    and the three literals; patterns that are plain text (letters, digits,
    spaces); ASCII letters for the case mappings; integers for number
    formatting; well-formed UTF-8.  Elsewhere it gives up ([None], or the
    text unchanged). *)

Module Reference.

Definition dquote : ascii := ascii_of_nat 34.
Definition backslash : ascii := ascii_of_nat 92.

(** The text [s] with every apostrophe turned into a double quote: a way to
    write JSON texts in this file. *)
Fixpoint dq (s : string) : string :=
  match s with
  | EmptyString => EmptyString
  | String c r => String (if Ascii.eqb c "'" then dquote else c) (dq r)
  end.

Definition json_ws (c : ascii) : bool :=
  (Ascii.eqb c " " || N.eqb (char_code c) 9 || N.eqb (char_code c) 10
   || N.eqb (char_code c) 13)%bool.

Fixpoint skip_json_ws (s : string) : string :=
  match s with
  | String c r => if json_ws c then skip_json_ws r else s
  | EmptyString => EmptyString
  end.

Definition unescape (c : ascii) : option ascii :=
  if (Ascii.eqb c dquote || Ascii.eqb c backslash || Ascii.eqb c "/")%bool then Some c
  else if Ascii.eqb c "n" then Some (ascii_of_nat 10)
  else if Ascii.eqb c "r" then Some (ascii_of_nat 13)
  else if Ascii.eqb c "t" then Some (ascii_of_nat 9)
  else if Ascii.eqb c "b" then Some (ascii_of_nat 8)
  else if Ascii.eqb c "f" then Some (ascii_of_nat 12)
  else None.

(** The characters of a JSON string after its opening quote. *)
Fixpoint parse_string_body (s : string) : option (string * string) :=
  match s with
  | EmptyString => None
  | String c r =>
    if Ascii.eqb c dquote then Some (EmptyString, r)
    else if Ascii.eqb c backslash then
      match r with
      | String e r2 =>
        match unescape e, parse_string_body r2 with
        | Some x, Some (a, b) => Some (String x a, b)
        | _, _ => None
        end
      | EmptyString => None
      end
    else if N.ltb (char_code c) 32 then None
    else match parse_string_body r with
         | Some (a, b) => Some (String c a, b)
         | None => None
         end
  end.

Definition nat_to_float (n : nat) : float :=
  PrimFloat.of_uint63 (Uint63.of_Z (Z.of_nat n)).

(** An integer numeral at the front of [s]. *)
Definition parse_integer (s : string) : option (JValue * string) :=
  let (negative, digits) :=
    match strip_prefix "-" s with
    | Some r => (true, r)
    | None => (false, s)
    end in
  let (ds, rest) := span is_digit digits in
  let more :=
    match rest with
    | String c _ => (Ascii.eqb c "." || Ascii.eqb c "e" || Ascii.eqb c "E")%bool
    | EmptyString => false
    end in
  match parse_index ds with
  | Some n =>
    if more then None
    else
      let f := nat_to_float n in
      Some (JNum (if negative then PrimFloat.opp f else f), rest)
  | None => None
  end.

Fixpoint parse_value (fuel : nat) (s : string) : option (JValue * string) :=
  match fuel with
  | O => None
  | S f =>
    match skip_json_ws s with
    | EmptyString => None
    | String c r =>
      if Ascii.eqb c "{" then
        match strip_prefix "}" (skip_json_ws r) with
        | Some rest => Some (JObj [], rest)
        | None => parse_members f [] r
        end
      else if Ascii.eqb c "[" then
        match strip_prefix "]" (skip_json_ws r) with
        | Some rest => Some (JArr [], rest)
        | None => parse_elements f [] r
        end
      else if Ascii.eqb c dquote then
        match parse_string_body r with
        | Some (str, rest) => Some (JStr str, rest)
        | None => None
        end
      else
        match strip_prefix "true" (String c r), strip_prefix "false" (String c r),
              strip_prefix "null" (String c r) with
        | Some rest, _, _ => Some (JBool true, rest)
        | _, Some rest, _ => Some (JBool false, rest)
        | _, _, Some rest => Some (JNull, rest)
        | _, _, _ => parse_integer (String c r)
        end
    end
  end
with parse_members (fuel : nat) (acc : Props) (s : string) : option (JValue * string) :=
  match fuel with
  | O => None
  | S f =>
    match strip_prefix (String dquote EmptyString) (skip_json_ws s) with
    | Some r =>
      match parse_string_body r with
      | Some (key, r1) =>
        match strip_prefix ":" (skip_json_ws r1) with
        | Some r2 =>
          match parse_value f r2 with
          | Some (v, r3) =>
            let acc := obj_set acc key v in
            match skip_json_ws r3 with
            | String d r4 =>
              if Ascii.eqb d "," then parse_members f acc r4
              else if Ascii.eqb d "}" then Some (JObj acc, r4)
              else None
            | EmptyString => None
            end
          | None => None
          end
        | None => None
        end
      | None => None
      end
    | None => None
    end
  end
with parse_elements (fuel : nat) (acc : list JValue) (s : string)
  : option (JValue * string) :=
  match fuel with
  | O => None
  | S f =>
    match parse_value f s with
    | Some (v, r) =>
      match skip_json_ws r with
      | String d r1 =>
        if Ascii.eqb d "," then parse_elements f (acc ++ [v])%list r1
        else if Ascii.eqb d "]" then Some (JArr (acc ++ [v])%list, r1)
        else None
      | EmptyString => None
      end
    | None => None
    end
  end.

Definition json_parse (s : string) : option JValue :=
  match parse_value (S (String.length s)) s with
  | Some (v, rest) => if is_empty (skip_json_ws rest) then Some v else None
  | None => None
  end.

Definition float_integer (f : float) : option Z :=
  match FloatOps.Prim2SF f with
  | SpecFloat.S754_zero _ => Some 0%Z
  | SpecFloat.S754_finite s m e =>
    let sign := if s then (-1)%Z else 1%Z in
    if (0 <=? e)%Z then Some (sign * Z.pos m * 2 ^ e)%Z
    else
      let d := (2 ^ (- e))%Z in
      if (Z.pos m mod d =? 0)%Z then Some (sign * (Z.pos m / d))%Z else None
  | _ => None
  end.

Definition number_to_string (f : float) : string :=
  match float_integer f with
  | Some z =>
    if (z <? 0)%Z then "-" ++ decimal (Z.to_nat (- z)) else decimal (Z.to_nat z)
  | None => "NaN"
  end.

Definition to_number (v : JValue) : float :=
  match v with
  | JNum n => n
  | JBool true => nat_to_float 1
  | JBool false | JNull => 0%float
  | JStr s =>
    match parse_index (trim s) with
    | Some n => nat_to_float n
    | None => if is_empty (trim s) then 0%float else PrimFloat.nan
    end
  | _ => PrimFloat.nan
  end.

Fixpoint quote_chars (s : string) : string :=
  match s with
  | EmptyString => EmptyString
  | String c r =>
    if (Ascii.eqb c dquote || Ascii.eqb c backslash)%bool
    then String backslash (String c (quote_chars r))
    else if N.eqb (char_code c) 10 then String backslash (String "n" (quote_chars r))
    else String c (quote_chars r)
  end.

Definition quote (s : string) : string :=
  String dquote (quote_chars s ++ String dquote EmptyString).

Fixpoint json_stringify (v : JValue) : string :=
  match v with
  | JUndefined | JFun _ => "undefined"
  | JNull => "null"
  | JBool true => "true"
  | JBool false => "false"
  | JNum n => number_to_string n
  | JStr s => quote s
  | JArr l =>
    "[" ++ join "," (map (fun x =>
                            match x with
                            | JUndefined | JFun _ => "null"
                            | _ => json_stringify x
                            end) l) ++ "]"
  | JObj o | JWith _ o =>
    "{" ++ join ","
             (map (fun kt => quote (fst kt) ++ ":" ++ snd kt)
                  (enumerate
                     (flat_map (fun kv =>
                                  match snd kv with
                                  | JUndefined | JFun _ => []
                                  | _ => [(fst kv, json_stringify (snd kv))]
                                  end) o))) ++ "}"
  end.

Definition is_plain (c : ascii) : bool := (is_alnum c || Ascii.eqb c " ")%bool.

Definition regexp_test (pattern text : string) : option bool :=
  if all_chars is_plain pattern then Some (includes text pattern) else None.

Definition lower_char (c : ascii) : ascii :=
  if is_upper c then ascii_of_N (char_code c + 32) else c.

Definition upper_char (c : ascii) : ascii :=
  if is_lower c then ascii_of_N (char_code c - 32) else c.

Fixpoint map_chars (f : ascii -> ascii) (s : string) : string :=
  match s with
  | EmptyString => EmptyString
  | String c r => String (f c) (map_chars f r)
  end.

(** What a read finds on the prototype chain: the constructor of an
    ordinary object, and, for an object with a replaced prototype, what that
    prototype holds. *)
Fixpoint inherited (v : JValue) (k : string) : JValue :=
  match v with
  | JObj _ =>
    if String.eqb k "constructor" then JFun "function Object() { [native code] }"
    else JUndefined
  | JWith p _ =>
    match p with
    | JObj o | JWith _ o =>
      match obj_get o k with Some x => x | None => inherited p k end
    | _ => JUndefined
    end
  | JStr s =>
    if String.eqb k "length" then JNum (nat_to_float (String.length s))
    else match parse_index k with
         | Some i =>
           match String.get i s with
           | Some c => JStr (String c EmptyString)
           | None => JUndefined
           end
         | None => JUndefined
         end
  | JArr l => if String.eqb k "length" then JNum (nat_to_float (List.length l)) else JUndefined
  | _ => JUndefined
  end.

(** The accessors [caller] and [arguments] of a built-in function throw. *)
Definition throws (v : JValue) (k : string) : bool :=
  match v with
  | JFun _ => (String.eqb k "caller" || String.eqb k "arguments")%bool
  | _ => false
  end.

(** The method an object with a replaced prototype finds as [k]: an own
    property or one of the chain, [Some None] for the method of
    [Object.prototype], [None] when the chain ends in [null] or leaves the
    objects. *)
Fixpoint finds (v : JValue) (k : string) : option (option JValue) :=
  match v with
  | JObj o => match obj_get o k with Some x => Some (Some x) | None => Some None end
  | JWith p o => match obj_get o k with Some x => Some (Some x) | None => finds p k end
  | _ => None
  end.

(** [String(v)] for such an object: ['[object Object]'] when [toString] is
    the method of [Object.prototype]; a [TypeError] when it is no function. *)
Definition string_exotic (v : JValue) : Outcome string :=
  match finds v "toString" with
  | Some None => Returned "[object Object]"
  | _ => Thrown
  end.

#[global] Instance runtime : Runtime := {
  JSON_parse := json_parse;
  JSON_stringify := json_stringify;
  RegExp_test := regexp_test;
  toLowerCase := map_chars lower_char;
  toUpperCase := map_chars upper_char;
  Number_toString := number_to_string;
  ToNumber := to_number;
  utf8_decode := fun s => s;
  get_inherited := inherited;
  has_inherited := fun _ _ => false;
  read_throws := throws;
  String_exotic := string_exotic;
  Number_exotic := fun v => s <- string_exotic v ;; Returned (to_number (JStr s))
}.

End Reference.


(** ** Running a submission *)

(** What a submission asked of its collaborators, in order. *)
Inductive Event : Type :=
| Loaded (discountTypeCode : string)
| Fetched (request : Request).

(** [run store network a]: the result of [a] and the calls it made, when
    the configuration store answers as [store] and the network as
    [network]. *)
Fixpoint run {A : Type}
    (store : string -> Outcome (option DiscountTypeRecord))
    (network : Request -> Outcome Response) (a : Action A) : A * list Event :=
  match a with
  | Done r => (r, [])
  | GetDiscountTypeByCode c k =>
    let (r, events) := run store network (k (store c)) in (r, Loaded c :: events)
  | Fetch request k =>
    let (r, events) := run store network (k (network request)) in
    (r, Fetched request :: events)
  end.

(** [requestTemplate] is absent, empty or white space only. *)
Definition blank_template (discountType : DiscountTypeRecord) : bool :=
  match requestTemplate discountType with
  | Some raw => is_empty (trim raw)
  | None => true
  end.

(** [jsessionid] is absent or empty. *)
Definition no_session (discountType : DiscountTypeRecord) : bool :=
  negb (is_truthy_string (jsessionid discountType)).

(** [responseTemplate] is not empty and [parseResponseTemplate] gives
    [null] for it. *)
Definition broken_response_template {rt : Runtime} (discountType : DiscountTypeRecord)
  : bool :=
  (is_truthy_string (responseTemplate discountType)
   && negb (truthy (parseResponseTemplate (responseTemplate discountType))))%bool.

(** The header names of [headers], compared without case, are distinct. *)
Definition names_distinct {rt : Runtime} (headers : Props) : Prop :=
  NoDup (map toLowerCase (obj_keys headers)).

(** Header values after token substitution (lines 557-560), as a map over
    the entries in the order of [Object.entries]: every value is converted
    and substituted, and the entries are kept under their keys, but for a
    key [__proto__], which an assignment does not define. *)
Definition substitute_values {rt : Runtime} (headers : Props)
    (context : TemplateContext) : Outcome Props :=
  substituted <-
    all_returned
      (map (fun kv =>
              text <- ToString (snd kv) ;;
              value <- applyTemplate text context ;;
              Returned (fst kv, JStr value))
           (enumerate headers)) ;;
  Returned (filter (fun kv => negb (String.eqb (fst kv) "__proto__")) substituted).

(** The headers of a request in the order section 4.4 of the specification
    states: every value is token-substituted, only then is the cookie
    injected, then the referer. *)
Definition headers_in_stated_order {rt : Runtime} (config : CustomRequestConfig)
    (context : TemplateContext) : Outcome Props :=
  let template_headers :=
    spread [] (own_entries (or_else (headers config) (JObj []))) in
  substituted <- substitute_values template_headers context ;;
  let jsessionid := get_prop (JObj context) "jsessionid" in
  with_cookie <-
    (if (negb (hasHeader substituted "cookie") && truthy jsessionid)%bool
     then session <- ToString jsessionid ;;
          Returned (setHeader substituted "Cookie" (JStr ("JSESSIONID=" ++ session)))
     else Returned substituted) ;;
  let referer := get_prop (JObj context) "referer" in
  Returned
    (if (negb (hasHeader with_cookie "referer") && truthy referer)%bool
     then setHeader with_cookie "Referer" referer
     else with_cookie).

(** The default [Content-Type] of lines 570-578. *)
Definition default_content_type {rt : Runtime} (resolvedBodyType : JValue)
    (resolvedHeaders : Props) : Props :=
  if strict_eq resolvedBodyType (JStr "json") then
    if negb (hasHeader resolvedHeaders "content-type")
    then setHeader resolvedHeaders "Content-Type" (JStr "application/json")
    else resolvedHeaders
  else if strict_eq resolvedBodyType (JStr "form") then
    if negb (hasHeader resolvedHeaders "content-type")
    then setHeader resolvedHeaders "Content-Type"
           (JStr "application/x-www-form-urlencoded; charset=UTF-8")
    else resolvedHeaders
  else resolvedHeaders.


(** [body] is an object (an array counts), line 218. *)
Definition body_is_object (config : CustomRequestConfig) : bool :=
  (truthy (body config) && typeof_object (body config))%bool.

(** [body] is a string that is not empty, line 228. *)
Definition body_is_text (config : CustomRequestConfig) : bool :=
  match body config with
  | JStr b => negb (is_empty b)
  | _ => false
  end.

(** Both components of every pair are what a UTF-8 decoding yields. *)
Definition decoded_params {rt : Runtime} (l : URLSearchParams) : Prop :=
  Forall (fun nv => utf8_decode (fst nv) = fst nv /\ utf8_decode (snd nv) = snd nv) l.

(** One pair of the serialization of [usp_toString]. *)
Definition encoded_pair (nv : string * string) : string :=
  form_encode (fst nv) ++ "=" ++ form_encode (snd nv).


(** A byte that continues a character starts no white space. *)
Definition inert (c : ascii) : Prop := (128 <= char_code c <= 191)%N.

(** ** Templates as pieces *)














(** ** Sample data

    Records, collaborators, templates and responses the properties are
    evaluated on, with the reference runtime.  JSON texts are written with
    apostrophes and read through [Reference.dq]. *)

Module Samples.

(** A discount type named [VIP]. *)
Definition record (useCustom : bool) (session request response : option string)
  : DiscountTypeRecord :=
  {| name := "VIP"; jsessionid := session; refererUrl := None; scanUrl := None;
     postParams := None; useCustomRequest := useCustom;
     requestTemplate := request; responseTemplate := response |}.

(** A store that holds [r] under the code [vip] and nothing else. *)
Definition store_of (r : DiscountTypeRecord) (code : string)
  : Outcome (option DiscountTypeRecord) :=
  Returned (if String.eqb code "vip" then Some r else None).

(** A network that answers every request with the same status and text. *)
Definition answer (status_ok : bool) (body : string) (_ : Request) : Outcome Response :=
  Returned {| ok := status_ok; text := Some body |}.

Definition charged : string :=
  Reference.dq
    "{'info':{'discountcharge':5,'plate':'A1','entertime':'t0','staytime':'2h'}}".

Definition errmsg_ok : string := Reference.dq "{'info':{'errmsg':'ok'}}".

Definition errmsg_bad : string := Reference.dq "{'info':{'errmsg':'bad plate'}}".


Definition plain_template : string := Reference.dq "{'url':'https://x/y'}".

Definition get_template : string :=
  Reference.dq
    "{'url':'https://x/y?p={{plate}}','method':'get','headers':{'X-Plate':'{{plate}}'},'body':{'a':'1'}}".

(** What [parseRequestTemplate] reads from [get_template]. *)
Definition get_config : CustomRequestConfig :=
  {| url := JStr "https://x/y?p={{plate}}"; method := JStr "get";
     headers := JObj [("X-Plate", JStr "{{plate}}")];
     body := JObj [("a", JStr "1")]; bodyType := JUndefined |}.

Definition session_context (session : string) : TemplateContext :=
  [("plate", JStr "A1"); ("jsessionid", JStr session); ("referer", JStr "https://x/")].



Definition body_config (b t : JValue) : CustomRequestConfig :=
  {| url := JStr "https://x/y"; method := JUndefined; headers := JUndefined;
     body := b; bodyType := t |}.

Definition blank_directive_template : string :=
  Reference.dq "{'url':'https://x/y','body':{'a':'1'}} #body{ }".

Definition header_directive_template : string :=
  Reference.dq
    "{'url':'https://x/y','headers':{'Content-Type':'text/plain'}} #header{content-type=application/json}".


(** A response whose [plate] has no string form. *)
Definition charged_odd : string :=
  Reference.dq "{'info':{'discountcharge':5,'plate':{'toString':1}}}".

(** The context of a submission for the plate [A1] under the code [vip],
    for a record with the session [session] and no note. *)
Definition vip_context (session : string) : TemplateContext :=
  [("plate", JStr "A1"); ("discountType", JStr "vip"); ("jsessionid", JStr session);
   ("referer", JUndefined); ("scanUrl", JUndefined); ("note", JUndefined);
   ("name", JUndefined); ("phone", JUndefined)].

End Samples.

(** * Properties *)

Section Strings.

(** *** Strings *)

Lemma append_empty (s : string) : s ++ "" = s.
Proof. induction s as [|c r IH]; cbn; [reflexivity | now rewrite IH]. Qed.

Lemma append_assoc (a b c : string) : (a ++ b) ++ c = a ++ (b ++ c).
Proof. induction a as [|x a IH]; cbn; [reflexivity | now rewrite IH]. Qed.


Lemma string_length_ind (P : string -> Prop) :
  (forall s, (forall r, String.length r < String.length s -> P r) -> P s) ->
  forall s, P s.
Proof.
  intros Hstep s. remember (String.length s) as n eqn:Hn. revert s Hn.
  induction n as [n IH] using lt_wf_ind. intros s ->.
  apply Hstep. intros r Hr. now apply (IH (String.length r)).
Qed.

Lemma skip_ws_0 : skip_ws "" = "".
Proof. reflexivity. Qed.

Lemma skip_ws_1 (c1 : ascii) :
  skip_ws (String c1 "") = if is_space1 c1 then "" else String c1 "".
Proof. cbn. now destruct (is_space1 c1). Qed.

Lemma skip_ws_2 (c1 c2 : ascii) :
  skip_ws (String c1 (String c2 ""))
  = if is_space1 c1 then skip_ws (String c2 "")
    else if is_space2 c1 c2 then "" else String c1 (String c2 "").
Proof. reflexivity. Qed.

Lemma skip_ws_3 (c1 c2 c3 : ascii) (r3 : string) :
  skip_ws (String c1 (String c2 (String c3 r3)))
  = if is_space1 c1 then skip_ws (String c2 (String c3 r3))
    else if is_space2 c1 c2 then skip_ws (String c3 r3)
    else if is_space3 c1 c2 c3 then skip_ws r3
    else String c1 (String c2 (String c3 r3)).
Proof. reflexivity. Qed.

Ltac ws_cases s IH :=
  induction s as [s IH] using string_length_ind;
  destruct s as [|?c1 [|?c2 [|?c3 ?r3]]];
  rewrite ?skip_ws_3, ?skip_ws_2, ?skip_ws_1, ?skip_ws_0;
  repeat match goal with
         | |- context [if ?b then _ else _] => destruct b eqn:?
         end.

Lemma skip_ws_length (s : string) : String.length (skip_ws s) <= String.length s.
Proof.
  ws_cases s IH; cbn [String.length]; try lia;
    (etransitivity; [apply IH; cbn; lia | cbn; lia]).
Qed.

Lemma skip_ws_firm (s : string) : skip_ws (skip_ws s) = skip_ws s.
Proof.
  ws_cases s IH; try reflexivity; try (apply IH; cbn; lia);
    rewrite ?skip_ws_3, ?skip_ws_2, ?skip_ws_1, ?skip_ws_0;
    repeat match goal with H : _ = _ |- _ => rewrite H end; reflexivity.
Qed.

Lemma trimEnd_head (s : string) :
  trimEnd s = "" \/ exists c r, s = String c r /\ trimEnd s = String c (trimEnd r).
Proof.
  destruct s as [|c r]; [now left|]. cbn [trimEnd].
  destruct (all_ws (String c r)); [now left|]. right. now exists c, r.
Qed.

Lemma shorter_not_equal (x s : string) :
  String.length x < String.length s -> skip_ws x <> s.
Proof.
  intros Hlt Heq. pose proof (skip_ws_length x) as H. rewrite Heq in H. lia.
Qed.

(** What it takes for a string to start with no white space. *)
Lemma firm_iff (c1 : ascii) (r1 : string) :
  skip_ws (String c1 r1) = String c1 r1 <->
  is_space1 c1 = false
  /\ (forall c2 r2, r1 = String c2 r2 ->
      is_space2 c1 c2 = false
      /\ (forall c3 r3, r2 = String c3 r3 -> is_space3 c1 c2 c3 = false)).
Proof.
  destruct r1 as [|c2 [|c3 r3]];
    rewrite ?skip_ws_3, ?skip_ws_2, ?skip_ws_1, ?skip_ws_0.
  - destruct (is_space1 c1).
    + split; [discriminate | intros [H _]; discriminate H].
    + split; [|reflexivity]. intros _. split; [reflexivity | discriminate].
  - destruct (is_space1 c1) eqn:E1.
    { split; [|intros [H _]; discriminate H].
      intro H. exfalso. revert H. rewrite <- skip_ws_1. apply shorter_not_equal. cbn; lia. }
    destruct (is_space2 c1 c2) eqn:E2.
    { split; [discriminate|]. intros [_ H]. destruct (H c2 "" eq_refl). congruence. }
    split; [|reflexivity]. intros _. split; [reflexivity|].
    intros ? ? [= <- <-]. split; [assumption|]. discriminate.
  - destruct (is_space1 c1) eqn:E1.
    { split; [|intros [H _]; discriminate H].
      intro H. exfalso. revert H. apply shorter_not_equal. cbn; lia. }
    destruct (is_space2 c1 c2) eqn:E2.
    { split.
      - intro H. exfalso. revert H. apply shorter_not_equal. cbn; lia.
      - intros [_ H]. destruct (H c2 _ eq_refl). congruence. }
    destruct (is_space3 c1 c2 c3) eqn:E3.
    { split.
      - intro H. exfalso. revert H. apply shorter_not_equal. cbn; lia.
      - intros [_ H]. destruct (H c2 _ eq_refl) as [_ H']. 
        specialize (H' c3 r3 eq_refl). congruence. }
    split; [|reflexivity]. intros _. split; [reflexivity|].
    intros ? ? [= <- <-]. split; [assumption|]. intros ? ? [= <- <-]. assumption.
Qed.

Lemma firm_trimEnd (s : string) : skip_ws s = s -> skip_ws (trimEnd s) = trimEnd s.
Proof.
  intro Hfirm.
  destruct (trimEnd_head s) as [->|[c1 [r1 [-> H1]]]]; [reflexivity|].
  rewrite H1. apply firm_iff in Hfirm. destruct Hfirm as [E1 Hrest].
  apply firm_iff. split; [assumption|].
  intros c2 t2 Ht2.
  destruct (trimEnd_head r1) as [H|[c2' [r2 [-> H2]]]]; [congruence|].
  rewrite H2 in Ht2. injection Ht2 as <- <-.
  destruct (Hrest c2' r2 eq_refl) as [E2 Hrest']. split; [assumption|].
  intros c3 t3 Ht3.
  destruct (trimEnd_head r2) as [H|[c3' [r3 [-> H3]]]]; [congruence|].
  rewrite H3 in Ht3. injection Ht3 as <- <-.
  now apply (Hrest' c3' r3).
Qed.

Lemma inert_firm (c : ascii) (r : string) : inert c -> skip_ws (String c r) = String c r.
Proof.
  intro H. apply firm_iff. unfold inert in H.
  destruct c as [[] [] [] [] [] [] [] []]; cbn in H; try lia;
    (split; [reflexivity|]; intros c2 r2 _; split; [reflexivity|];
     intros c3 r3 _; reflexivity).
Qed.

Lemma space2_inert (c1 c2 : ascii) : is_space2 c1 c2 = true -> inert c2.
Proof.
  unfold is_space2, inert. intro H. apply andb_true_iff in H. destruct H as [_ H].
  apply N.eqb_eq in H. rewrite H. lia.
Qed.

Lemma space3_inert (c1 c2 c3 : ascii) :
  is_space3 c1 c2 c3 = true -> inert c2 /\ inert c3.
Proof.
  unfold is_space3, inert, in_range. cbv zeta. intro H.
  repeat match type of H with
         | (_ || _)%bool = true => apply orb_true_iff in H; destruct H as [H|H]
         end;
    repeat match goal with
           | H : (_ && _)%bool = true |- _ => apply andb_true_iff in H; destruct H
           | H : (_ || _)%bool = true |- _ => apply orb_true_iff in H; destruct H
           | H : N.eqb _ _ = true |- _ => apply N.eqb_eq in H
           | H : N.leb _ _ = true |- _ => apply N.leb_le in H
           end; lia.
Qed.

Lemma skip_ws_space1 (c1 : ascii) (r1 : string) :
  is_space1 c1 = true -> skip_ws (String c1 r1) = skip_ws r1.
Proof.
  intro H. destruct r1 as [|c2 [|c3 r3]];
    rewrite ?skip_ws_3, ?skip_ws_2, ?skip_ws_1, H; reflexivity.
Qed.

Lemma skip_ws_space2 (c1 c2 : ascii) (r2 : string) :
  is_space1 c1 = false -> is_space2 c1 c2 = true ->
  skip_ws (String c1 (String c2 r2)) = skip_ws r2.
Proof.
  intros H1 H2. destruct r2 as [|c3 r3];
    rewrite ?skip_ws_3, ?skip_ws_2, H1, H2; reflexivity.
Qed.

Lemma skip_ws_space3 (c1 c2 c3 : ascii) (r3 : string) :
  is_space1 c1 = false -> is_space2 c1 c2 = false -> is_space3 c1 c2 c3 = true ->
  skip_ws (String c1 (String c2 (String c3 r3))) = skip_ws r3.
Proof. intros H1 H2 H3. now rewrite skip_ws_3, H1, H2, H3. Qed.

Lemma all_ws_firm (s : string) : skip_ws s = s -> s <> "" -> all_ws s = false.
Proof.
  intros Hfirm Hne. unfold all_ws. rewrite Hfirm. destruct s; [contradiction|reflexivity].
Qed.

Lemma trimEnd_inert (c : ascii) (r : string) :
  inert c -> trimEnd (String c r) = String c (trimEnd r).
Proof.
  intro H. cbn [trimEnd]. rewrite all_ws_firm; [reflexivity| |discriminate].
  now apply inert_firm.
Qed.

(** White space at the front and the trimmed end: the two removals
    commute. *)
Lemma skip_ws_trimEnd (s : string) : skip_ws (trimEnd s) = trimEnd (skip_ws s).
Proof.
  induction s as [s IH] using string_length_ind.
  destruct s as [|c1 r1]; [reflexivity|].
  destruct (all_ws (String c1 r1)) eqn:Hall.
  { cbn [trimEnd]. rewrite Hall. unfold all_ws in Hall.
    destruct (skip_ws (String c1 r1)); [reflexivity|discriminate]. }
  assert (Hhead : trimEnd (String c1 r1) = String c1 (trimEnd r1))
    by (cbn [trimEnd]; now rewrite Hall).
  destruct (is_space1 c1) eqn:E1.
  { rewrite Hhead, !skip_ws_space1 by assumption. apply IH. cbn; lia. }
  destruct r1 as [|c2 r2].
  { rewrite Hhead. cbn [trimEnd]. rewrite skip_ws_1, E1. cbn [trimEnd].
    now rewrite Hall. }
  destruct (is_space2 c1 c2) eqn:E2.
  { rewrite Hhead, (trimEnd_inert _ _ (space2_inert _ _ E2)).
    rewrite !skip_ws_space2 by assumption. apply IH. cbn; lia. }
  destruct r2 as [|c3 r3].
  { rewrite skip_ws_2, E1, E2. apply firm_trimEnd. now rewrite skip_ws_2, E1, E2. }
  destruct (is_space3 c1 c2 c3) eqn:E3.
  { destruct (space3_inert _ _ _ E3) as [I2 I3].
    rewrite Hhead, (trimEnd_inert _ _ I2), (trimEnd_inert _ _ I3).
    rewrite !skip_ws_space3 by assumption. apply IH. cbn; lia. }
  rewrite skip_ws_3, E1, E2, E3. apply firm_trimEnd. now rewrite skip_ws_3, E1, E2, E3.
Qed.

Lemma trimEnd_twice (s : string) : trimEnd (trimEnd s) = trimEnd s.
Proof.
  induction s as [|c r IH]; [reflexivity|].
  cbn [trimEnd]. destruct (all_ws (String c r)) eqn:Hall; [reflexivity|].
  assert (Hhead : trimEnd (String c r) = String c (trimEnd r))
    by (cbn [trimEnd]; now rewrite Hall).
  cbn [trimEnd]. rewrite IH.
  replace (all_ws (String c (trimEnd r))) with false; [reflexivity|].
  symmetry. rewrite <- Hhead. unfold all_ws. rewrite skip_ws_trimEnd.
  unfold all_ws in Hall.
  destruct (skip_ws (String c r)) as [|c' r'] eqn:Hskip; [discriminate|].
  cbn [trimEnd]. rewrite all_ws_firm; [reflexivity| |discriminate].
  rewrite <- Hskip. apply skip_ws_firm.
Qed.

(** [trim] is idempotent. *)
Lemma trim_twice (s : string) : trim (trim s) = trim s.
Proof.
  unfold trim, trimStart.
  rewrite firm_trimEnd by apply skip_ws_firm. apply trimEnd_twice.
Qed.






End Strings.

Section Objects.

(** *** Objects *)

(** Setting the pairs of a list with distinct keys a second time changes
    nothing, for any store whose [set] is idempotent and leaves alone what
    another key has settled. *)
Lemma fold_set_twice {S K V : Type} (set : S -> K -> V -> S) :
  (forall s k v, set (set s k v) k v = set s k v) ->
  (forall s k v k' v', k <> k' -> set s k v = s -> set (set s k' v') k v = set s k' v') ->
  forall (o : list (K * V)) (s : S),
    NoDup (map fst o) ->
    let set_all := fold_left (fun s kv => set s (fst kv) (snd kv)) o in
    set_all (set_all s) = set_all s.
Proof.
  intros Hsame Hother o s Hnd set_all. subst set_all.
  assert (Hstable :
            forall o s,
              NoDup (map fst o) ->
              forall k v,
                (In (k, v) o \/ (~ In k (map fst o) /\ set s k v = s)) ->
                let r := fold_left (fun s kv => set s (fst kv) (snd kv)) o s in
                set r k v = r).
  { clear o s Hnd.
    induction o as [|[k0 v0] o IH]; cbn [fold_left map fst snd]; intros s Hnd k v H.
    - destruct H as [[]|[_ H]]. exact H.
    - inversion Hnd as [|x xs Hnot Hnd']; subst.
      apply IH; [assumption|].
      destruct H as [[[= -> ->]|Hin]|[Hnot' Hs]].
      + right. split; [assumption | apply Hsame].
      + left. exact Hin.
      + right. cbn in Hnot'. split; [tauto|].
        apply Hother; [|assumption]. intro; subst; tauto. }
  assert (Hall :
            forall o r,
              (forall k v, In (k, v) o -> set r k v = r) ->
              fold_left (fun s kv => set s (fst kv) (snd kv)) o r = r).
  { clear. induction o as [|[k v] o IH]; cbn [fold_left fst snd]; intros r Hr;
      [reflexivity|].
    rewrite (Hr k v (or_introl eq_refl)). apply IH.
    intros k' v' Hin. apply Hr. now right. }
  apply Hall. intros k v Hin. apply (Hstable o s Hnd k v). now left.
Qed.

Lemma obj_set_keys_in (o : Props) (k : string) (v : JValue) :
  In k (obj_keys o) -> obj_keys (obj_set o k v) = obj_keys o.
Proof.
  unfold obj_keys. induction o as [|[k' v'] o IH]; cbn; [tauto|].
  intros [->|Hin].
  - now rewrite String.eqb_refl.
  - destruct (String.eqb k' k); cbn; [reflexivity|]. now rewrite IH.
Qed.

Lemma obj_set_keys_fresh (o : Props) (k : string) (v : JValue) :
  ~ In k (obj_keys o) -> obj_set o k v = (o ++ [(k, v)])%list.
Proof.
  unfold obj_keys. induction o as [|[k' v'] o IH]; cbn; [reflexivity|].
  intros Hnot. destruct (String.eqb k' k) eqn:E.
  - apply String.eqb_eq in E. tauto.
  - rewrite IH; tauto.
Qed.

Lemma obj_keys_app (a b : Props) :
  obj_keys (a ++ b)%list = (obj_keys a ++ obj_keys b)%list.
Proof. apply map_app. Qed.

Lemma obj_set_keys_distinct (o : Props) (k : string) (v : JValue) :
  NoDup (obj_keys o) -> NoDup (obj_keys (obj_set o k v)).
Proof.
  intros Hnd. destruct (in_dec string_dec k (obj_keys o)) as [Hin|Hnot].
  - now rewrite obj_set_keys_in.
  - rewrite obj_set_keys_fresh by assumption. rewrite obj_keys_app. cbn.
    apply NoDup_app; [assumption | repeat constructor; cbn; tauto |].
    intros x Hx [<-|[]]. tauto.
Qed.

Lemma spread_keys_distinct (more base : Props) :
  NoDup (obj_keys base) -> NoDup (obj_keys (spread base more)).
Proof.
  unfold spread. revert base.
  induction more as [|[k v] more IH]; cbn; intros base Hnd; [assumption|].
  apply IH. now apply obj_set_keys_distinct.
Qed.

Lemma spread_fresh (more base : Props) :
  NoDup (obj_keys (base ++ more)%list) -> spread base more = (base ++ more)%list.
Proof.
  unfold spread. revert base.
  induction more as [|[k v] more IH]; cbn; intros base Hnd.
  - now rewrite app_nil_r.
  - rewrite obj_keys_app in Hnd. cbn in Hnd.
    rewrite obj_set_keys_fresh.
    + rewrite IH; rewrite <- app_assoc; cbn; [reflexivity|].
      now rewrite obj_keys_app.
    + apply NoDup_remove_2 in Hnd. intro Hin. apply Hnd.
      apply in_or_app. now left.
Qed.

(** Spreading an object whose keys are distinct copies it. *)
Lemma spread_copy (o : Props) : NoDup (obj_keys o) -> spread [] o = o.
Proof. intro Hnd. now rewrite spread_fresh. Qed.

Lemma spread_copy_twice (o : Props) : spread [] (spread [] o) = spread [] o.
Proof. apply spread_copy, spread_keys_distinct. constructor. Qed.

(** Setting, key by key, a function of each value builds the object with
    the same keys in the same order. *)
Lemma fold_set_map (f : JValue -> JValue) (o acc : Props) :
  NoDup (obj_keys (acc ++ o)%list) ->
  fold_left (fun next kv => obj_set next (fst kv) (f (snd kv))) o acc
  = (acc ++ map (fun kv => (fst kv, f (snd kv))) o)%list.
Proof.
  revert acc. induction o as [|[k v] o IH]; cbn; intros acc Hnd.
  - now rewrite app_nil_r.
  - rewrite obj_keys_app in Hnd. cbn in Hnd.
    rewrite obj_set_keys_fresh.
    + rewrite IH; rewrite <- app_assoc; cbn; [reflexivity|].
      now rewrite obj_keys_app.
    + apply NoDup_remove_2 in Hnd. intro Hin. apply Hnd.
      apply in_or_app. now left.
Qed.

Lemma obj_set_twice (o : Props) (k : string) (v : JValue) :
  obj_set (obj_set o k v) k v = obj_set o k v.
Proof.
  induction o as [|[k' v'] o IH]; cbn.
  - now rewrite String.eqb_refl.
  - destruct (String.eqb k' k) eqn:E; cbn; rewrite E; [reflexivity | now rewrite IH].
Qed.

Lemma obj_set_stable_other (o : Props) (k : string) (v : JValue) (k' : string)
    (v' : JValue) :
  k <> k' -> obj_set o k v = o -> obj_set (obj_set o k' v') k v = obj_set o k' v'.
Proof.
  intro Hne. induction o as [|[n x] o IH]; cbn; [discriminate|].
  destruct (String.eqb n k) eqn:Enk.
  - intros [= ->]. apply String.eqb_eq in Enk. subst n.
    destruct (String.eqb k k') eqn:E; [apply String.eqb_eq in E; congruence|].
    cbn. now rewrite String.eqb_refl.
  - intros [= Hset]. destruct (String.eqb n k') eqn:Enk'; cbn; rewrite Enk.
    + now rewrite Hset.
    + now rewrite IH.
Qed.

(** Spreading the same distinct-keyed object a second time changes
    nothing. *)
Lemma spread_twice (base more : Props) :
  NoDup (obj_keys more) -> spread (spread base more) more = spread base more.
Proof.
  unfold spread, obj_keys.
  apply (fold_set_twice obj_set).
  - intros s k v. apply obj_set_twice.
  - intros s k v k' v' Hne. now apply obj_set_stable_other.
Qed.

(** *** The order of enumeration *)

Lemma insert_index_perm {A : Type} (n : N) (kv : string * A) (l : list (N * (string * A))) :
  Permutation (insert_index n kv l) ((n, kv) :: l).
Proof.
  induction l as [|[m kv'] l IH]; cbn [insert_index]; [reflexivity|].
  destruct (N.leb n m); [reflexivity|].
  rewrite IH. apply perm_swap.
Qed.

Lemma index_entries_perm {A : Type} (o : list (string * A)) :
  Permutation
    (map snd (index_entries o))
    (filter (fun kv => match array_index (fst kv) with Some _ => true | None => false end) o).
Proof.
  induction o as [|kv o IH]; cbn [index_entries filter]; [reflexivity|].
  destruct (array_index (fst kv)) as [n|]; [|exact IH].
  rewrite (Permutation_map snd (insert_index_perm n kv (index_entries o))).
  cbn [map snd]. now apply perm_skip.
Qed.

Lemma partition_perm {A : Type} (p : A -> bool) (l : list A) :
  Permutation (filter p l ++ filter (fun x => negb (p x)) l) l.
Proof.
  induction l as [|x l IH]; cbn [filter]; [reflexivity|].
  destruct (p x); cbn [negb app].
  - now apply perm_skip.
  - rewrite <- Permutation_middle. now apply perm_skip.
Qed.

(** Enumeration reorders the properties and nothing else. *)
Lemma enumerate_perm {A : Type} (o : list (string * A)) : Permutation (enumerate o) o.
Proof.
  unfold enumerate, named_entries. rewrite index_entries_perm.
  etransitivity; [|apply (partition_perm
                            (fun kv => match array_index (fst kv) with
                                       | Some _ => true | None => false end) o)].
  apply Permutation_app_head.
  rewrite (filter_ext
             (fun kv : string * A =>
                match array_index (fst kv) with Some _ => false | None => true end)
             (fun kv => negb match array_index (fst kv) with
                             | Some _ => true | None => false end)); [reflexivity|].
  intro kv. now destruct (array_index (fst kv)).
Qed.

Lemma enumerate_keys_distinct {A : Type} (o : list (string * A)) :
  NoDup (map fst o) -> NoDup (map fst (enumerate o)).
Proof.
  intro H. eapply Permutation_NoDup; [|exact H].
  apply Permutation_map. symmetry. apply enumerate_perm.
Qed.

Lemma enumerate_in {A : Type} (o : list (string * A)) (kv : string * A) :
  In kv (enumerate o) <-> In kv o.
Proof.
  split; apply Permutation_in; [|symmetry]; apply enumerate_perm.
Qed.

Lemma enumerate_key_in {A : Type} (o : list (string * A)) (k : string) :
  In k (map fst (enumerate o)) <-> In k (map fst o).
Proof.
  split; apply Permutation_in; apply Permutation_map; [|symmetry]; apply enumerate_perm.
Qed.



Lemma obj_get_in (o : Props) (k : string) (v : JValue) :
  NoDup (obj_keys o) -> In (k, v) o -> obj_get o k = Some v.
Proof.
  unfold obj_keys. induction o as [|[k' v'] o IH]; cbn [map fst obj_get]; intros Hnd Hin.
  - contradiction.
  - inversion Hnd as [|? ? Hfresh Hnd']. subst. destruct Hin as [[= -> ->]|Hin].
    + now rewrite String.eqb_refl.
    + destruct (String.eqb k' k) eqn:E; [|now apply IH].
      apply String.eqb_eq in E. subst k'. exfalso. apply Hfresh.
      change k with (fst (k, v)). now apply in_map.
Qed.

Lemma obj_get_none (o : Props) (k : string) :
  obj_get o k = None <-> ~ In k (obj_keys o).
Proof.
  unfold obj_keys. induction o as [|[k' v'] o IH]; cbn [map fst obj_get].
  - tauto.
  - destruct (String.eqb k' k) eqn:E.
    + apply String.eqb_eq in E. subst. split; [discriminate | intro H; exfalso; apply H; now left].
    + apply String.eqb_neq in E. rewrite IH. split.
      * intros H [H'|H']; [now apply E | now apply H].
      * intros H H'. apply H. now right.
Qed.

Lemma obj_get_some_in (o : Props) (k : string) (v : JValue) :
  obj_get o k = Some v -> In (k, v) o.
Proof.
  induction o as [|[k' v'] o IH]; cbn [obj_get]; [discriminate|].
  destruct (String.eqb k' k) eqn:E.
  - apply String.eqb_eq in E. subst. intros [= ->]. now left.
  - intro H. right. now apply IH.
Qed.

(** Enumeration does not change what a key holds. *)
Lemma obj_get_enumerate (o : Props) (k : string) :
  NoDup (obj_keys o) -> obj_get (enumerate o) k = obj_get o k.
Proof.
  intro Hnd. destruct (obj_get o k) as [v|] eqn:E.
  - apply obj_get_in; [now apply (enumerate_keys_distinct o)|].
    apply enumerate_in. now apply obj_get_some_in.
  - apply obj_get_none. apply obj_get_none in E. intro H. apply E.
    exact (proj1 (enumerate_key_in o k) H).
Qed.

End Objects.

Section Substitution.

Context {rt : Runtime}.

(** *** Token substitution *)















Lemma all_chars_cons (p : ascii -> bool) (c : ascii) (x : string) :
  all_chars p (String c x) = true <-> p c = true /\ all_chars p x = true.
Proof.
  unfold all_chars. cbn [span]. destruct (p c).
  - destruct (span p x). cbn [snd]. tauto.
  - cbn [snd is_empty]. split; [discriminate | intros [H _]; discriminate H].
Qed.

Lemma all_chars_split (p : ascii -> bool) (x y : string) :
  all_chars p (x ++ y) = true -> all_chars p x = true /\ all_chars p y = true.
Proof.
  induction x as [|c x IH]; cbn [append]; intro H.
  - now split.
  - apply all_chars_cons in H. destruct H as [Hc H]. destruct (IH H).
    split; [now apply all_chars_cons | assumption].
Qed.






















(** *** Names and paths *)










(** A value that is missing along the way ends the walk with [undefined]. *)
Lemma walk_missing (current : JValue) (segments : list string) :
  is_nullish current = true -> segments <> [] ->
  walk current segments = Returned JUndefined.
Proof.
  intros H Hne. destruct segments; [contradiction|]. cbn [walk]. now rewrite H.
Qed.


(** *** Values *)

Lemma fold_thrown {A B : Type} (step : Outcome A -> B -> Outcome A) (l : list B) :
  (forall x, step Thrown x = Thrown) -> fold_left step l Thrown = Thrown.
Proof. intro H. induction l as [|x l IH]; cbn [fold_left]; [reflexivity|]. now rewrite H. Qed.

(** A loop that converts and stores, seen as a conversion of all entries
    followed by the stores. *)
Lemma fold_converted {S A B : Type} (convert : string * A -> Outcome B)
    (store : S -> string -> B -> S) (l : list (string * A)) (s : S) :
  fold_left (fun acc kv => a <- acc ;; v <- convert kv ;; Returned (store a (fst kv) v))
            l (Returned s)
  = (converted <- all_returned
                    (map (fun kv => v <- convert kv ;; Returned (fst kv, v)) l) ;;
     Returned (fold_left (fun a kv => store a (fst kv) (snd kv)) converted s)).
Proof.
  revert s. induction l as [|kv l IH]; intro s; cbn [fold_left map all_returned bind].
  - reflexivity.
  - destruct (convert kv) as [v|]; cbn [bind].
    + rewrite IH.
      destruct (all_returned (map (fun kv => v <- convert kv ;; Returned (fst kv, v)) l));
        reflexivity.
    + apply fold_thrown. reflexivity.
Qed.

Lemma all_returned_keys {A B : Type} (convert : string * A -> Outcome B)
    (l : list (string * A)) (converted : list (string * B)) :
  all_returned (map (fun kv => v <- convert kv ;; Returned (fst kv, v)) l)
  = Returned converted ->
  map fst converted = map fst l.
Proof.
  revert converted. induction l as [|kv l IH]; intro converted;
    cbn [map all_returned bind].
  - now intros [= <-].
  - destruct (convert kv) as [v|]; cbn [bind]; [|discriminate].
    destruct (all_returned (map (fun kv => v <- convert kv ;; Returned (fst kv, v)) l))
      as [rest|]; cbn [bind]; [|discriminate].
    intros [= <-]. cbn [map fst]. f_equal. now apply IH.
Qed.


Lemma has_key_in (o : Props) (k : string) : has_key o k = true <-> In k (obj_keys o).
Proof.
  unfold has_key. destruct (obj_get o k) as [v|] eqn:E.
  - split; [intros _|reflexivity]. apply obj_get_some_in in E.
    change k with (fst (k, v)). now apply in_map.
  - split; [discriminate|]. intro H. now apply obj_get_none in E.
Qed.








End Substitution.

Section Headers.

Context {rt : Runtime}.

(** *** Header maps *)

Lemma first_named_some (keys : list string) (lowerName key : string) :
  first_named keys lowerName = Some key ->
  In key keys /\ toLowerCase key = lowerName.
Proof.
  induction keys as [|k keys IH]; cbn; [discriminate|].
  destruct (String.eqb (toLowerCase k) lowerName) eqn:E.
  - intros [= <-]. apply String.eqb_eq in E. tauto.
  - intro H. destruct (IH H). tauto.
Qed.

Lemma first_named_none (keys : list string) (lowerName : string) :
  first_named keys lowerName = None ->
  ~ In lowerName (map toLowerCase keys).
Proof.
  induction keys as [|k keys IH]; cbn; [tauto|].
  destruct (String.eqb (toLowerCase k) lowerName) eqn:E; [discriminate|].
  apply String.eqb_neq in E. intros H [Heq|Hin]; [tauto|]. now apply IH.
Qed.

Lemma findHeaderKey_some (headers : Props) (lowerName key : string) :
  findHeaderKey headers lowerName = Some key ->
  In key (obj_keys headers) /\ toLowerCase key = lowerName.
Proof.
  unfold findHeaderKey. intro H. apply first_named_some in H.
  destruct H as [Hin Hlower]. split; [|exact Hlower].
  exact (proj1 (enumerate_key_in headers key) Hin).
Qed.

Lemma findHeaderKey_none (headers : Props) (lowerName : string) :
  findHeaderKey headers lowerName = None ->
  ~ In lowerName (map toLowerCase (obj_keys headers)).
Proof.
  unfold findHeaderKey. intros H Hin. apply first_named_none in H. apply H.
  apply in_map_iff in Hin. destruct Hin as [k [Hk Hin]].
  apply in_map_iff. exists k. split; [exact Hk|].
  exact (proj2 (enumerate_key_in headers k) Hin).
Qed.

Lemma obj_delete_keys (o : Props) (k : string) :
  obj_keys (obj_delete o k)
  = filter (fun x => negb (String.eqb x k)) (obj_keys o).
Proof.
  unfold obj_keys. induction o as [|[k' v'] o IH]; cbn; [reflexivity|].
  destruct (String.eqb k' k); cbn; now rewrite IH.
Qed.

Lemma same_name_same_key (keys : list string) (a b : string) :
  NoDup (map toLowerCase keys) ->
  In a keys -> In b keys -> toLowerCase a = toLowerCase b -> a = b.
Proof.
  induction keys as [|k keys IH]; cbn; [tauto|].
  intros Hnd Ha Hb Heq. inversion Hnd as [|x l Hnot Hnd']; subst.
  destruct Ha as [->|Ha], Hb as [->|Hb]; try reflexivity.
  - exfalso. apply Hnot. rewrite Heq. now apply in_map.
  - exfalso. apply Hnot. rewrite <- Heq. now apply in_map.
  - now apply IH.
Qed.

Lemma filter_names_distinct (keep : string -> bool) (keys : list string) :
  NoDup (map toLowerCase keys) -> NoDup (map toLowerCase (filter keep keys)).
Proof.
  induction keys as [|k keys IH]; cbn; [trivial|].
  intro Hnd. inversion Hnd as [|x l Hnot Hnd']; subst.
  destruct (keep k); cbn; [|now apply IH].
  constructor; [|now apply IH].
  intro Hin. apply Hnot. apply in_map_iff in Hin. destruct Hin as [y [Hy Hin]].
  apply filter_In in Hin. rewrite <- Hy. apply in_map. tauto.
Qed.

Lemma names_distinct_keys (headers : Props) :
  names_distinct headers -> NoDup (obj_keys headers).
Proof. apply NoDup_map_inv. Qed.

(** An assignment defines the property or leaves the object as it is. *)
Lemma assign_cases (o : Props) (k : string) (v : JValue) :
  assign o k v = obj_set o k v \/ assign o k v = o.
Proof. unfold assign. destruct (_ && _)%bool; tauto. Qed.

Lemma assign_plain (o : Props) (k : string) (v : JValue) :
  k <> "__proto__" -> assign o k v = obj_set o k v.
Proof. intro H. unfold assign. apply String.eqb_neq in H. now rewrite H. Qed.

Lemma assign_keys_distinct (o : Props) (k : string) (v : JValue) :
  NoDup (obj_keys o) -> NoDup (obj_keys (assign o k v)).
Proof.
  intro H. destruct (assign_cases o k v) as [-> | ->];
    [now apply obj_set_keys_distinct | exact H].
Qed.

(** One override keeps the names distinct. *)
Lemma merge_one_distinct (next : Props) (key : string) (value : JValue) :
  (forall k, toLowerCase k = toLowerCase "" -> k = "") ->
  names_distinct next -> names_distinct (merge_one next (key, value)).
Proof.
  intros Hempty Hnd. unfold merge_one, names_distinct in *.
  destruct (findHeaderKey next (toLowerCase key)) as [existingKey|] eqn:Hfind.
  - destruct (findHeaderKey_some _ _ _ Hfind) as [Hin Hlower].
    destruct (String.eqb existingKey key) eqn:Hsame.
    + apply String.eqb_eq in Hsame. subst existingKey.
      rewrite andb_false_r.
      destruct (assign_cases next key value) as [-> | ->]; [|exact Hnd].
      now rewrite obj_set_keys_in.
    + apply String.eqb_neq in Hsame.
      destruct existingKey as [|c r]; cbn [is_empty negb andb].
      { exfalso. apply Hsame. symmetry. apply Hempty. now rewrite Hlower. }
      assert (Hfresh : ~ In (toLowerCase key)
                         (map toLowerCase (obj_keys (obj_delete next (String c r))))).
      { rewrite obj_delete_keys. intro H. apply in_map_iff in H.
        destruct H as [y [Hy Hy']]. apply filter_In in Hy'. destruct Hy' as [Hy' Hne].
        apply negb_true_iff, String.eqb_neq in Hne. apply Hne.
        apply (same_name_same_key _ _ _ Hnd Hy' Hin). congruence. }
      destruct (assign_cases (obj_delete next (String c r)) key value) as [-> | ->].
      * rewrite obj_set_keys_fresh.
        -- rewrite obj_keys_app, map_app. cbn.
           apply NoDup_app.
           ++ rewrite obj_delete_keys. now apply filter_names_distinct.
           ++ repeat constructor; cbn; tauto.
           ++ intros x Hx [<-|[]]. tauto.
        -- intro H. apply Hfresh. now apply in_map.
      * rewrite obj_delete_keys. now apply filter_names_distinct.
  - apply findHeaderKey_none in Hfind.
    destruct (assign_cases next key value) as [-> | ->]; [|exact Hnd].
    rewrite obj_set_keys_fresh.
    + rewrite obj_keys_app, map_app. cbn.
      apply NoDup_app; [assumption | repeat constructor; cbn; tauto |].
      intros x Hx [<-|[]]. tauto.
    + intro H. apply Hfind. now apply in_map.
Qed.

(** mergeHeaders keeps a header map free of names that differ by case
    only: what the note's [#header] directive merges into. *)
Theorem mergeHeaders_keeps_names_distinct (headers overrides : Props) :
  (forall k, toLowerCase k = toLowerCase "" -> k = "") ->
  names_distinct headers -> names_distinct (mergeHeaders headers overrides).
Proof.
  intros Hempty Hnd. unfold mergeHeaders.
  rewrite spread_copy by now apply names_distinct_keys.
  revert headers Hnd.
  induction overrides as [|[key value] overrides IH]; cbn; intros headers Hnd.
  - assumption.
  - apply IH. now apply merge_one_distinct.
Qed.

Lemma setHeader_keys_distinct (headers : Props) (name : string) (value : JValue) :
  NoDup (obj_keys headers) -> NoDup (obj_keys (setHeader headers name value)).
Proof.
  intro Hnd. unfold setHeader.
  destruct (findHeaderKey headers (toLowerCase name)) as [k|];
    [destruct (negb (is_empty k))|]; now apply assign_keys_distinct.
Qed.

Lemma mergeHeaders_of_copy (headers overrides : Props) :
  mergeHeaders (spread [] headers) overrides = mergeHeaders headers overrides.
Proof. unfold mergeHeaders. now rewrite spread_copy_twice. Qed.

End Headers.
Section Params.

Context {rt : Runtime}.

(** *** URLSearchParams *)

Lemma decode_encode_char (c : ascii) (r : string) :
  percent_decode (plus_to_space (form_encode (String c r)))
  = String c (percent_decode (plus_to_space (form_encode r))).
Proof. destruct c as [[] [] [] [] [] [] [] []]; reflexivity. Qed.

Lemma decode_encode (x : string) :
  percent_decode (plus_to_space (form_encode x)) = x.
Proof.
  induction x as [|c r IH]; [reflexivity|].
  rewrite decode_encode_char. now rewrite IH.
Qed.

Lemma form_decode_encode (x : string) : form_decode (form_encode x) = utf8_decode x.
Proof. unfold form_decode. now rewrite decode_encode. Qed.

Lemma cut_encoded (x rest : string) :
  cut_at "=" (form_encode x ++ String "=" rest) = Some (form_encode x, rest).
Proof.
  induction x as [|c r IH]; [reflexivity|].
  destruct c as [[] [] [] [] [] [] [] []]; cbn; rewrite IH; reflexivity.
Qed.

Lemma split_encoded (x rest : string) :
  split_char "&" (form_encode x ++ rest)
  = match split_char "&" rest with
    | p :: ps => (form_encode x ++ p) :: ps
    | [] => [form_encode x]
    end.
Proof.
  induction x as [|c r IH].
  - cbn. destruct (split_char "&" rest) as [|p ps] eqn:E; [|reflexivity].
    destruct rest as [|d rest']; cbn in E; [discriminate|].
    destruct (Ascii.eqb d "&"); [discriminate|].
    destruct (split_char "&" rest'); discriminate.
  - destruct c as [[] [] [] [] [] [] [] []]; cbn; rewrite IH;
      destruct (split_char "&" rest); reflexivity.
Qed.

Lemma encoded_not_query (x rest : string) :
  strip_prefix "?" (form_encode x ++ String "=" rest) = None.
Proof.
  destruct x as [|c r]; [reflexivity|].
  destruct c as [[] [] [] [] [] [] [] []]; reflexivity.
Qed.

Lemma encoded_pair_not_empty (nv : string * string) : is_empty (encoded_pair nv) = false.
Proof. unfold encoded_pair. destruct (form_encode (fst nv)); reflexivity. Qed.

Lemma split_encoded_pair (nv : string * string) (rest : string) :
  split_char "&" (encoded_pair nv ++ rest)
  = match split_char "&" rest with
    | p :: ps => (encoded_pair nv ++ p) :: ps
    | [] => [encoded_pair nv]
    end.
Proof.
  unfold encoded_pair. rewrite !append_assoc. rewrite split_encoded.
  cbn [append split_char]. cbn [Ascii.eqb Bool.eqb]. rewrite split_encoded.
  destruct (split_char "&" rest); cbn [append]; rewrite ?append_assoc; reflexivity.
Qed.

Lemma split_join_encoded_pairs (nv : string * string) (l : list (string * string)) :
  split_char "&" (join "&" (map encoded_pair (nv :: l))) = map encoded_pair (nv :: l).
Proof.
  revert nv. induction l as [|nv' l IH]; intro nv.
  - cbn [map join]. rewrite <- (append_empty (encoded_pair nv)) at 1.
    rewrite split_encoded_pair. cbn. now rewrite append_empty.
  - change (join "&" (map encoded_pair (nv :: nv' :: l)))
      with (encoded_pair nv ++ String "&" (join "&" (map encoded_pair (nv' :: l)))).
    rewrite split_encoded_pair. cbn [split_char]. cbn [Ascii.eqb Bool.eqb].
    rewrite IH. cbn. now rewrite append_empty.
Qed.

Lemma nonempty_encoded_pairs (l : list (string * string)) :
  nonempty (map encoded_pair l) = map encoded_pair l.
Proof.
  induction l as [|nv l IH]; [reflexivity|].
  cbn. rewrite encoded_pair_not_empty. cbn. f_equal. exact IH.
Qed.

Lemma parse_encoded_pair (nv : string * string) :
  parse_tuple (encoded_pair nv) = (utf8_decode (fst nv), utf8_decode (snd nv)).
Proof.
  unfold parse_tuple, encoded_pair. cbn [append]. rewrite cut_encoded.
  now rewrite !form_decode_encode.
Qed.

(** Parsing a serialization gives the pairs back, decoded. *)
Lemma usp_parse_toString (l : URLSearchParams) :
  usp_parse (usp_toString l)
  = map (fun nv => (utf8_decode (fst nv), utf8_decode (snd nv))) l.
Proof.
  unfold usp_parse, usp_toString. fold encoded_pair.
  destruct l as [|nv l]; [reflexivity|].
  assert (Hq : strip_prefix "?" (join "&" (map encoded_pair (nv :: l))) = None).
  { destruct l as [|nv' l]; cbn [map join]; unfold encoded_pair at 1.
    - cbn [append]. apply encoded_not_query.
    - rewrite append_assoc. cbn [append]. apply encoded_not_query. }
  rewrite Hq, split_join_encoded_pairs, nonempty_encoded_pairs, map_map.
  apply map_ext. intro a. apply parse_encoded_pair.
Qed.

Lemma decoded_params_stable (l : URLSearchParams) :
  decoded_params l ->
  map (fun nv => (utf8_decode (fst nv), utf8_decode (snd nv))) l = l.
Proof.
  induction 1 as [|[n v] l [Hn Hv] _ IH]; cbn; [reflexivity|].
  cbn in Hn, Hv. now rewrite Hn, Hv, IH.
Qed.

Lemma usp_toString_not_empty (nv : string * string) (l : URLSearchParams) :
  is_empty (usp_toString (nv :: l)) = false.
Proof.
  unfold usp_toString. fold encoded_pair.
  destruct l; cbn [map join].
  - apply encoded_pair_not_empty.
  - pose proof (encoded_pair_not_empty nv). destruct (encoded_pair nv); [discriminate|reflexivity].
Qed.

Lemma usp_remove_absent_set (l : URLSearchParams) (k k' v' : string) :
  k <> k' -> usp_remove l k = l -> usp_remove (usp_set l k' v') k = usp_set l k' v'.
Proof.
  intros Hne. induction l as [|[n x] l IH]; cbn.
  - intros _. destruct (String.eqb k' k) eqn:E; [|reflexivity].
    apply String.eqb_eq in E. congruence.
  - destruct (String.eqb n k) eqn:Enk.
    + intro H. exfalso.
      assert (Hlen : forall m, List.length (usp_remove m k) <= List.length m).
      { induction m as [|[a b] m IHm]; cbn; [lia|].
        destruct (String.eqb a k); cbn; lia. }
      specialize (Hlen l). rewrite H in Hlen. cbn in Hlen. lia.
    + intros [= H]. destruct (String.eqb n k') eqn:Enk'; cbn; rewrite Enk.
      * f_equal. clear IH. apply String.eqb_eq in Enk'. subst n.
        revert H. clear. induction l as [|[a b] l IH]; cbn; [reflexivity|].
        destruct (String.eqb a k) eqn:Ea.
        -- intro H. exfalso.
           assert (Hlen : forall m, List.length (usp_remove m k) <= List.length m).
           { induction m as [|[a' b'] m IHm]; cbn; [lia|].
             destruct (String.eqb a' k); cbn; lia. }
           specialize (Hlen l). rewrite H in Hlen. cbn in Hlen. lia.
        -- intros [= H]. destruct (String.eqb a k'); cbn; [now apply IH|].
           rewrite Ea. f_equal. now apply IH.
      * f_equal. now apply IH.
Qed.

Lemma usp_set_remove_commute (l : URLSearchParams) (k v k' : string) :
  k <> k' -> usp_set (usp_remove l k') k v = usp_remove (usp_set l k v) k'.
Proof.
  intro Hne. induction l as [|[n x] l IH]; cbn.
  - destruct (String.eqb k k') eqn:E; [|reflexivity].
    apply String.eqb_eq in E. congruence.
  - destruct (String.eqb n k') eqn:Enk'.
    + destruct (String.eqb n k) eqn:Enk.
      * apply String.eqb_eq in Enk, Enk'. congruence.
      * cbn. now rewrite Enk'.
    + cbn. destruct (String.eqb n k) eqn:Enk; cbn; rewrite Enk'.
      * f_equal. clear IH. revert Hne. clear.
        induction l as [|[a b] l IH]; cbn; intro Hne; [reflexivity|].
        destruct (String.eqb a k') eqn:Eak'; destruct (String.eqb a k) eqn:Eak; cbn;
          rewrite ?Eak', ?Eak; try (now apply IH); f_equal; now apply IH.
      * f_equal. exact IH.
Qed.

(** A pair that a [set] would not change stays so when another name is
    set. *)
Lemma usp_set_stable_other (l : URLSearchParams) (k v k' v' : string) :
  k <> k' -> usp_set l k v = l -> usp_set (usp_set l k' v') k v = usp_set l k' v'.
Proof.
  intro Hne. induction l as [|[n x] l IH]; cbn.
  - discriminate.
  - destruct (String.eqb n k) eqn:Enk.
    + intros [= -> Hrem]. apply String.eqb_eq in Enk. subst n.
      destruct (String.eqb k k') eqn:E;
        [apply String.eqb_eq in E; congruence|].
      cbn. rewrite String.eqb_refl. f_equal.
      now apply usp_remove_absent_set.
    + intros [= Hset]. destruct (String.eqb n k') eqn:Enk'; cbn; rewrite Enk.
      * f_equal. rewrite usp_set_remove_commute by assumption. now rewrite Hset.
      * f_equal. now apply IH.
Qed.

Lemma usp_remove_twice (l : URLSearchParams) (k : string) :
  usp_remove (usp_remove l k) k = usp_remove l k.
Proof.
  induction l as [|[n x] l IH]; cbn; [reflexivity|].
  destruct (String.eqb n k) eqn:E; cbn; rewrite ?E; [exact IH | now rewrite IH].
Qed.

Lemma usp_set_twice (l : URLSearchParams) (k v : string) :
  usp_set (usp_set l k v) k v = usp_set l k v.
Proof.
  induction l as [|[n x] l IH]; cbn.
  - now rewrite String.eqb_refl.
  - destruct (String.eqb n k) eqn:E; cbn; rewrite E.
    + now rewrite usp_remove_twice.
    + now rewrite IH.
Qed.

(** Setting every pair of [overrides] once more changes nothing. *)
Lemma usp_set_all_twice (overrides l : URLSearchParams) :
  NoDup (map fst overrides) ->
  let set_all := fold_left (fun ps nv => usp_set ps (fst nv) (snd nv)) overrides in
  set_all (set_all l) = set_all l.
Proof.
  apply (fold_set_twice usp_set).
  - intros s k v. apply usp_set_twice.
  - intros s k v k' v' Hne. now apply usp_set_stable_other.
Qed.

Lemma usp_remove_decoded (l : URLSearchParams) (k : string) :
  decoded_params l -> decoded_params (usp_remove l k).
Proof.
  unfold decoded_params. induction 1 as [|[n v] l H _ IH]; cbn; [constructor|].
  destruct (String.eqb n k); [assumption | now constructor].
Qed.

Lemma usp_set_decoded (l : URLSearchParams) (k v : string) :
  utf8_decode k = k -> utf8_decode v = v ->
  decoded_params l -> decoded_params (usp_set l k v).
Proof.
  intros Hk Hv. unfold decoded_params.
  induction 1 as [|[n x] l [Hn Hx] Hl IH]; cbn.
  - repeat constructor; assumption.
  - destruct (String.eqb n k).
    + constructor; [cbn in *; tauto | now apply usp_remove_decoded].
    + constructor; [cbn in *; tauto | exact IH].
Qed.

Lemma usp_parse_decoded (init : string) :
  (forall s, utf8_decode (utf8_decode s) = utf8_decode s) ->
  decoded_params (usp_parse init).
Proof.
  intro Hidem. unfold usp_parse, decoded_params.
  apply Forall_forall. intros nv Hin. apply in_map_iff in Hin.
  destruct Hin as [bytes [<- _]]. unfold parse_tuple, form_decode.
  destruct (cut_at "=" bytes) as [[n v]|]; cbn; now rewrite !Hidem.
Qed.

Lemma usp_set_not_nil (l : URLSearchParams) (k v : string) : usp_set l k v <> [].
Proof. destruct l as [|[n x] l]; cbn; [|destruct (String.eqb n k)]; discriminate. Qed.

End Params.

Section Running.

Context {rt : Runtime}.

Variable store : string -> Outcome (option DiscountTypeRecord).
Variable network : Request -> Outcome Response.

(** *** Submissions *)

Lemma not_none (discountTypeCode : string) :
  discountTypeCode <> "none" -> String.eqb discountTypeCode "none" = false.
Proof. intro H. now apply String.eqb_neq. Qed.

Lemma run_loaded (plateNumber discountTypeCode : string)
    (contextOverrides : option ContextOverrides) (discountType : DiscountTypeRecord) :
  discountTypeCode <> "none" ->
  store discountTypeCode = Returned (Some discountType) ->
  run store network (sendParkingDiscount plateNumber discountTypeCode contextOverrides)
  = (fst (run store network
            (submit plateNumber discountTypeCode contextOverrides discountType)),
     Loaded discountTypeCode
       :: snd (run store network
                 (submit plateNumber discountTypeCode contextOverrides discountType))).
Proof.
  intros Hcode Hstore. unfold sendParkingDiscount.
  rewrite (not_none _ Hcode). cbn [run]. rewrite Hstore.
  now destruct (run store network _).
Qed.

(** The custom flow once the template is parsed: the request is assembled
    from the effective configuration and sent, or the submission ends in
    the [catch]. *)
Lemma submit_custom (plateNumber discountTypeCode : string)
    (contextOverrides : option ContextOverrides) (discountType : DiscountTypeRecord)
    (raw : string) (requestConfig : CustomRequestConfig) :
  broken_response_template discountType = false ->
  useCustomRequest discountType = true ->
  requestTemplate discountType = Some raw ->
  trim raw <> "" ->
  parseRequestTemplate (trim raw) = Returned (Some requestConfig) ->
  run store network (submit plateNumber discountTypeCode contextOverrides discountType)
  = match
      (context <- build_context plateNumber discountTypeCode discountType
                    contextOverrides ;;
       effective <- effective_config requestConfig (noteRaw_of contextOverrides) ;;
       assemble_request effective context)
    with
    | Returned request =>
      (settle (bind (network request)
                    (custom_result (parseResponseTemplate (responseTemplate discountType)))),
       [Fetched request])
    | Thrown => (caught, [])
    end.
Proof.
  intros Hbroken Hcustom Hraw Hne Hparse. unfold submit.
  unfold broken_response_template in Hbroken. rewrite Hbroken, Hcustom, Hraw.
  destruct (trim raw) as [|c r] eqn:Htrim; [contradiction|].
  cbn [is_truthy_string is_empty negb andb]. rewrite Hparse.
  destruct (bind _ _) as [request|]; reflexivity.
Qed.

End Running.

Section Assembly.

Context {rt : Runtime}.

(** *** Request assembly *)

Lemma applyBodyDirective_headers (config applied : CustomRequestConfig)
    (directive : string) :
  applyBodyDirective config directive = Returned applied ->
  headers applied = headers config
  /\ url applied = url config
  /\ method applied = method config.
Proof.
  unfold applyBodyDirective.
  destruct (is_empty (trim directive)); [intros [= <-]; tauto|].
  destruct (truthy (body config) && typeof_object (body config))%bool.
  - destruct (truthy (parseKeyValuePairs (trim directive))); intros [= <-]; cbn; tauto.
  - destruct (body config); try (intros [= <-]; cbn; tauto).
    destruct (negb (is_empty s) && truthy (parseKeyValuePairs (trim directive)))%bool;
      [|intros [= <-]; cbn; tauto].
    destruct (set_all _ _); cbn [bind]; [|discriminate].
    intros [= <-]; cbn; tauto.
Qed.

Lemma applyBodyDirective_cases (config : CustomRequestConfig) (directive : string) :
  is_empty (trim directive) = false ->
  let trimmed := trim directive in
  let overrides := parseKeyValuePairs trimmed in
  (body_is_object config = true -> truthy overrides = true ->
   applyBodyDirective config directive
   = Returned
       {| url := url config; method := method config; headers := headers config;
          body := JObj (spread (spread [] (own_entries (body config)))
                               (own_entries overrides));
          bodyType := bodyType config |})
  /\ (forall b, body config = JStr b -> b <> "" -> truthy overrides = true ->
      applyBodyDirective config directive
      = match set_all (own_entries overrides) (usp_parse b) with
        | Returned baseParams =>
          Returned
            {| url := url config; method := method config; headers := headers config;
               body := JStr (usp_toString baseParams);
               bodyType := if truthy (bodyType config) then bodyType config
                           else JStr "form" |}
        | Thrown => Thrown
        end)
  /\ (truthy overrides = false
      \/ (body_is_object config = false /\ body_is_text config = false) ->
      applyBodyDirective config directive
      = Returned
          {| url := url config; method := method config; headers := headers config;
             body := JStr trimmed; bodyType := JStr "raw" |}).
Proof.
  intros Hne trimmed overrides. unfold applyBodyDirective. rewrite Hne.
  fold trimmed. fold overrides. unfold body_is_object, body_is_text.
  split; [|split].
  - intros Hobj Hov. rewrite Hobj, Hov. reflexivity.
  - intros b Hb Hbne Hov. rewrite Hb. cbn [truthy typeof_object]. rewrite andb_false_r.
    destruct b; [contradiction|]. cbn [is_empty negb andb]. rewrite Hov.
    reflexivity.
  - intros [Hov|[Hobj Htext]].
    + rewrite Hov.
      destruct (truthy (body config) && typeof_object (body config))%bool;
        [reflexivity|].
      destruct (body config); try reflexivity.
      rewrite andb_false_r. reflexivity.
    + rewrite Hobj. destruct (body config); try reflexivity.
      rewrite Htext. reflexivity.
Qed.

(** The headers of the effective configuration when the note carries a
    [#header] directive that parses: the overrides are merged into a copy
    of the headers of the template. *)
Lemma effective_config_headers (requestConfig effective : CustomRequestConfig)
    (noteRaw : option string) (directive : string) :
  note_directive noteRaw "header" = Some directive ->
  directive <> "" ->
  truthy (parseHeaderDirective directive) = true ->
  effective_config requestConfig noteRaw = Returned effective ->
  headers effective
  = JObj (mergeHeaders
            (if truthy (headers requestConfig)
             then enumerate (spread [] (own_entries (headers requestConfig)))
             else [])
            (own_entries (parseHeaderDirective directive))).
Proof.
  intros Hnote Hne Hparse. unfold effective_config. rewrite Hnote, Hparse.
  destruct directive as [|c r]; [contradiction|]. cbn [is_empty].
  match goal with
  | |- match ?d with Some bd => if is_empty bd then Returned ?w else _ | None => _ end = _
       -> _ =>
    assert (Hw : headers w
                 = JObj (mergeHeaders
                           (if truthy (headers requestConfig)
                            then enumerate (spread [] (own_entries (headers requestConfig)))
                            else [])
                           (own_entries (parseHeaderDirective (String c r)))));
    [|destruct d as [bd|]; [destruct (is_empty bd)|];
      [intros [= <-]; exact Hw
      |intro H; apply applyBodyDirective_headers in H; destruct H as [-> _]; exact Hw
      |intros [= <-]; exact Hw]]
  end.
  cbn [headers]. unfold or_else.
  destruct (truthy (headers requestConfig)) eqn:Htruthy; reflexivity.
Qed.

Lemma fold_left_pointwise {A B : Type} (f g : A -> B -> A) (l : list B) (a : A) :
  (forall x y, f x y = g x y) -> fold_left f l a = fold_left g l a.
Proof.
  intro H. revert a. induction l as [|y l IH]; intro a; cbn [fold_left]; [reflexivity|].
  now rewrite H, IH.
Qed.

(** Assignments under distinct keys: every entry is appended, but for the
    one of [__proto__]. *)
Lemma assign_all_filter (l own : Props) :
  ~ In "__proto__" (obj_keys own) ->
  NoDup (obj_keys (own ++ l)%list) ->
  fold_left (fun a kv => assign a (fst kv) (snd kv)) l own
  = (own ++ filter (fun kv => negb (String.eqb (fst kv) "__proto__")) l)%list.
Proof.
  revert own. induction l as [|[k v] l IH]; intros own Hown Hnd.
  - cbn. now rewrite app_nil_r.
  - cbn [fold_left fst snd filter].
    assert (Hnd' : NoDup (obj_keys ((own ++ [(k, v)]) ++ l)%list))
      by (now rewrite <- app_assoc).
    assert (Hfresh : ~ In k (obj_keys own)).
    { rewrite obj_keys_app in Hnd. cbn [obj_keys map fst] in Hnd.
      apply NoDup_remove_2 in Hnd. intro Hin. apply Hnd. apply in_or_app. now left. }
    unfold assign at 2. destruct (String.eqb k "__proto__") eqn:E.
    + apply String.eqb_eq in E. subst k.
      assert (Hkey : has_key own "__proto__" = false).
      { destruct (has_key own "__proto__") eqn:Hk; [|reflexivity].
        apply has_key_in in Hk. contradiction. }
      rewrite Hkey. cbn [negb andb]. apply IH; [assumption|].
      rewrite obj_keys_app in *. cbn [obj_keys map fst] in Hnd.
      now apply NoDup_remove_1 in Hnd.
    + cbn [negb andb]. apply String.eqb_neq in E.
      rewrite (obj_set_keys_fresh own k v Hfresh).
      rewrite IH; [now rewrite <- app_assoc | | assumption].
      rewrite obj_keys_app. cbn [obj_keys map fst].
      intro H. apply in_app_or in H. destruct H as [H|[H|[]]];
        [contradiction | now apply E].
Qed.

(** The loop of lines 557-560 on headers with distinct keys. *)
Lemma resolve_headers_substituted (headers : Props) (context : TemplateContext) :
  NoDup (obj_keys headers) ->
  resolve_headers headers context = substitute_values headers context.
Proof.
  intro Hnd. unfold resolve_headers, substitute_values.
  rewrite (fold_left_pointwise _
             (fun resolved kv =>
                a <- resolved ;;
                v <- (text <- ToString (snd kv) ;;
                      value <- applyTemplate text context ;; Returned (JStr value)) ;;
                Returned (assign a (fst kv) v))).
  2:{ intros [acc|] kv; cbn [bind]; [|reflexivity].
      destruct (ToString (snd kv)) as [text|]; cbn [bind]; [|reflexivity].
      destruct (applyTemplate text context); reflexivity. }
  rewrite (fold_converted
             (fun kv => text <- ToString (snd kv) ;;
                        value <- applyTemplate text context ;; Returned (JStr value))
             assign (enumerate headers) []).
  rewrite (map_ext
             (fun kv => text <- ToString (snd kv) ;;
                        value <- applyTemplate text context ;;
                        Returned (fst kv, JStr value))
             (fun kv => v <- (text <- ToString (snd kv) ;;
                              value <- applyTemplate text context ;;
                              Returned (JStr value)) ;;
                        Returned (fst kv, v))).
  2:{ intro kv. destruct (ToString (snd kv)) as [text|]; cbn [bind]; [|reflexivity].
      destruct (applyTemplate text context); reflexivity. }
  destruct (all_returned _) as [converted|] eqn:E; [|reflexivity].
  cbn [bind]. f_equal.
  apply (assign_all_filter converted [] (fun H => H)).
  cbn [app]. unfold obj_keys. rewrite (all_returned_keys _ _ _ E).
  now apply enumerate_keys_distinct.
Qed.

(** C3, as the code has it.  The request of a configuration whose [url] is
    a string and whose method, when there is one, is a string: the URL is
    token-substituted and the method upper-cased, ['POST'] when none is
    configured.  The headers start from a copy of the configuration's; the
    cookie [JSESSIONID=<jsessionid>] is injected first, when no header
    named cookie exists and the context has a [jsessionid]; then every
    value, the cookie's included, is converted to a string and
    token-substituted, in the order of enumeration, keys untouched and a
    key [__proto__] left out; then the referer is injected unsubstituted
    when no header named referer exists and the context has one.  For the
    method GET no body is computed and no [Content-Type] is added, whatever
    [body] and [bodyType] hold.  A step that throws makes the assembly
    throw.  The configuration a submission assembles its request from is
    the parsed template with the directives of the note applied, its
    [#header] directive merged by [mergeHeaders] into a copy of the
    template's headers; the request is then the one that is sent, and a
    throw ends the submission after the load with the message of the
    [catch] and no request. *)
Theorem request_assembly_order (config : CustomRequestConfig)
    (context : TemplateContext) (u m : string) :
  url config = JStr u ->
  or_else (method config) (JStr "POST") = JStr m ->
  let template_headers :=
    spread [] (own_entries (or_else (headers config) (JObj []))) in
  let jsessionid := get_prop (JObj context) "jsessionid" in
  let referer := get_prop (JObj context) "referer" in
  let request_headers : Outcome Props :=
    match
      (if (negb (hasHeader template_headers "cookie") && truthy jsessionid)%bool
       then match ToString jsessionid with
            | Returned session =>
              Returned (setHeader template_headers "Cookie"
                                  (JStr ("JSESSIONID=" ++ session)))
            | Thrown => Thrown
            end
       else Returned template_headers)
    with
    | Returned with_cookie =>
      match substitute_values with_cookie context with
      | Returned substituted =>
        Returned (if (negb (hasHeader substituted "referer") && truthy referer)%bool
                  then setHeader substituted "Referer" referer
                  else substituted)
      | Thrown => Thrown
      end
    | Thrown => Thrown
    end in
  let resolvedBodyType :=
    or_else (bodyType config)
            (if typeof_object (body config) then JStr "form" else JUndefined) in
  (toUpperCase m = "GET" ->
   assemble_request config context
   = match applyTemplate u context, request_headers with
     | Returned resolvedUrl, Returned with_referer =>
       Returned {| req_url := resolvedUrl; req_method := "GET";
                   req_headers := with_referer; req_body := None |}
     | _, _ => Thrown
     end)
  /\ (toUpperCase m <> "GET" ->
      assemble_request config context
      = match applyTemplate u context, request_headers with
        | Returned resolvedUrl, Returned with_referer =>
          match buildRequestBody (body config) resolvedBodyType context with
          | Returned body =>
            Returned {| req_url := resolvedUrl;
                        req_method := toUpperCase m;
                        req_headers := default_content_type resolvedBodyType with_referer;
                        req_body := body |}
          | Thrown => Thrown
          end
        | _, _ => Thrown
        end)
  /\ (forall requestConfig noteRaw directive,
         note_directive noteRaw "header" = Some directive ->
         directive <> "" ->
         truthy (parseHeaderDirective directive) = true ->
         effective_config requestConfig noteRaw = Returned config ->
         headers config
         = JObj (mergeHeaders
                   (if truthy (headers requestConfig)
                    then enumerate (spread [] (own_entries (headers requestConfig)))
                    else [])
                   (own_entries (parseHeaderDirective directive))))
  /\ (forall store network plateNumber discountTypeCode contextOverrides discountType
             raw requestConfig,
         discountTypeCode <> "none" ->
         store discountTypeCode = Returned (Some discountType) ->
         broken_response_template discountType = false ->
         useCustomRequest discountType = true ->
         requestTemplate discountType = Some raw ->
         trim raw <> "" ->
         parseRequestTemplate (trim raw) = Returned (Some requestConfig) ->
         build_context plateNumber discountTypeCode discountType contextOverrides
         = Returned context ->
         effective_config requestConfig (noteRaw_of contextOverrides) = Returned config ->
         run store network
             (sendParkingDiscount plateNumber discountTypeCode contextOverrides)
         = match assemble_request config context with
           | Returned request =>
             (match network request with
              | Returned response =>
                match custom_result (parseResponseTemplate (responseTemplate discountType))
                                    response with
                | Returned result => result
                | Thrown =>
                  {| success := false;
                     message := Some "Failed to request parking system";
                     rawResponse := None; redirectUrl := None; discountInfo := None |}
                end
              | Thrown =>
                {| success := false;
                   message := Some "Failed to request parking system";
                   rawResponse := None; redirectUrl := None; discountInfo := None |}
              end,
              [Loaded discountTypeCode; Fetched request])
           | Thrown =>
             ({| success := false;
                 message := Some "Failed to request parking system";
                 rawResponse := None; redirectUrl := None; discountInfo := None |},
              [Loaded discountTypeCode])
           end).
Proof.
  intros Hurl Hmethod template_headers jsessionid referer request_headers
         resolvedBodyType.
  assert (Hdistinct : NoDup (obj_keys template_headers))
    by (apply spread_keys_distinct; constructor).
  assert (Hheaders :
            forall A (k : Props -> Outcome A),
              (headers <-
                 (if (negb (hasHeader template_headers "cookie") && truthy jsessionid)%bool
                  then session <- ToString jsessionid ;;
                       Returned (setHeader template_headers "Cookie"
                                           (JStr ("JSESSIONID=" ++ session)))
                  else Returned template_headers) ;;
               resolvedHeaders <- resolve_headers headers context ;;
               k (if (negb (hasHeader resolvedHeaders "referer") && truthy referer)%bool
                  then setHeader resolvedHeaders "Referer" referer
                  else resolvedHeaders))
              = (with_referer <- request_headers ;; k with_referer)).
  { intros A k. subst request_headers.
    destruct (negb (hasHeader template_headers "cookie") && truthy jsessionid)%bool.
    - destruct (ToString jsessionid) as [session|]; cbn [bind]; [|reflexivity].
      rewrite resolve_headers_substituted by now apply setHeader_keys_distinct.
      destruct (substitute_values _ context); reflexivity.
    - cbn [bind]. rewrite resolve_headers_substituted by assumption.
      destruct (substitute_values _ context); reflexivity. }
  split; [|split; [|split]].
  - intro Hget. unfold assemble_request. rewrite Hurl, Hmethod, Hget.
    fold template_headers jsessionid referer.
    destruct (applyTemplate u context) as [resolvedUrl|]; cbn [bind]; [|reflexivity].
    cbn [String.eqb Ascii.eqb Bool.eqb negb].
    rewrite (Hheaders _ (fun hs => Returned {| req_url := resolvedUrl; req_method := "GET";
                                              req_headers := hs; req_body := None |})).
    destruct request_headers; reflexivity.
  - intro Hother. unfold assemble_request. rewrite Hurl, Hmethod.
    fold template_headers jsessionid referer resolvedBodyType.
    destruct (applyTemplate u context) as [resolvedUrl|]; cbn [bind]; [|reflexivity].
    apply String.eqb_neq in Hother. rewrite Hother. cbn [negb].
    subst request_headers.
    destruct (negb (hasHeader template_headers "cookie") && truthy jsessionid)%bool.
    + destruct (ToString jsessionid) as [session|]; cbn [bind]; [|reflexivity].
      rewrite resolve_headers_substituted by now apply setHeader_keys_distinct.
      destruct (substitute_values _ context); cbn [bind]; [|reflexivity].
      destruct (buildRequestBody _ _ _); reflexivity.
    + cbn [bind]. rewrite resolve_headers_substituted by assumption.
      destruct (substitute_values _ context); cbn [bind]; [|reflexivity].
      destruct (buildRequestBody _ _ _); reflexivity.
  - intros requestConfig noteRaw directive H1 H2 H3 H4.
    exact (effective_config_headers requestConfig config noteRaw directive H1 H2 H3 H4).
  - intros store network plateNumber discountTypeCode contextOverrides discountType
           raw requestConfig Hcode Hstore Hbroken Hcustom Hraw Hne Hparse Hcontext
           Heffective.
    rewrite (run_loaded store network plateNumber _ contextOverrides _ Hcode Hstore).
    rewrite (submit_custom store network plateNumber discountTypeCode contextOverrides
               discountType raw requestConfig Hbroken Hcustom Hraw Hne Hparse).
    rewrite Hcontext, Heffective. cbn [bind].
    destruct (assemble_request config context) as [request|]; [|reflexivity].
    cbn [fst snd]. destruct (network request) as [response|]; [|reflexivity].
    cbn [bind]. destruct (custom_result _ response); reflexivity.
Qed.

End Assembly.

Section Directives.

Context {rt : Runtime}.

(** *** Body directives *)

Lemma is_empty_eq (s : string) : is_empty s = true <-> s = "".
Proof. destruct s; cbn; split; congruence. Qed.

Lemma is_empty_neq (s : string) : is_empty s = false <-> s <> "".
Proof. destruct s; cbn; split; congruence. Qed.

(** A directive comes out of [extractDirective] trimmed. *)
Lemma note_directive_trimmed (noteRaw : option string) (which directive : string) :
  note_directive noteRaw which = Some directive -> trim directive = directive.
Proof.
  unfold note_directive, extractDirective.
  destruct noteRaw as [n|]; [|discriminate].
  destruct (is_empty n); [discriminate|].
  destruct (search (match_directive which) n) as [[inner len]|]; [|discriminate].
  intros [= <-]. apply trim_twice.
Qed.

(** The [#body] directive of the note is applied to a copy of the
    configuration. *)
Lemma effective_config_applies (requestConfig : CustomRequestConfig)
    (noteRaw : option string) (directive : string) :
  note_directive noteRaw "body" = Some directive ->
  directive <> "" ->
  exists copiedHeaders,
    effective_config requestConfig noteRaw
    = applyBodyDirective
        {| url := url requestConfig; method := method requestConfig;
           headers := copiedHeaders;
           body := if body_is_object requestConfig
                   then JObj (spread [] (own_entries (body requestConfig)))
                   else body requestConfig;
           bodyType := bodyType requestConfig |}
        directive.
Proof.
  intros Hnote Hne. unfold effective_config. rewrite Hnote.
  apply is_empty_neq in Hne. rewrite Hne. unfold body_is_object.
  destruct (note_directive noteRaw "header") as [hd|]; [|eexists; reflexivity].
  destruct (is_empty hd); [eexists; reflexivity|].
  destruct (truthy (parseHeaderDirective hd)); eexists; reflexivity.
Qed.

(** A template that carries a [#body] directive comes out of the parse
    with that directive applied, after its [#header] directive. *)
Lemma parseRequestTemplate_applies_directive (raw : string)
    (parsed : CustomRequestConfig) (directive : string) :
  parseRequestTemplate raw = Returned (Some parsed) ->
  extractDirective raw "body" = Some directive ->
  directive <> "" ->
  exists base,
    template_config raw = Some base
    /\ applyBodyDirective (with_header_directive raw base) directive = Returned parsed.
Proof.
  intros Hparse Hdirective Hne. unfold parseRequestTemplate in Hparse.
  rewrite Hdirective in Hparse. apply is_empty_neq in Hne. rewrite Hne in Hparse.
  destruct (template_config raw) as [base|]; [|discriminate].
  exists base. split; [reflexivity|].
  destruct (applyBodyDirective _ directive) as [applied|]; [|discriminate].
  cbn [bind] in Hparse. now injection Hparse as <-.
Qed.

(** C6, as the code has it.  A [#body] directive that is blank changes
    nothing.  Otherwise: on an object body, overrides that parse are merged
    over a copy of the object; on a string body that is not empty,
    overrides that parse are set one by one ([URLSearchParams.set], each
    value converted to a string, in the order of enumeration) on the
    string read as URL-encoded, the result is serialized again and
    [bodyType] becomes [form] if it was unset, and the call throws when a
    conversion does; in every other case the trimmed directive text
    replaces the body and [bodyType] becomes [raw].  URL, method and
    headers are untouched.  The directive of the note is applied to a copy
    of the template as parsed, and the parse applies the directive of the
    template: the note's comes after the template's. *)
Theorem body_directive_application (config : CustomRequestConfig) (directive : string) :
  let trimmed := trim directive in
  let overrides := parseKeyValuePairs trimmed in
  (forall applied,
      applyBodyDirective config directive = Returned applied ->
      url applied = url config /\ method applied = method config
      /\ headers applied = headers config)
  /\ (trimmed = "" -> applyBodyDirective config directive = Returned config)
  /\ (trimmed <> "" ->
      (body_is_object config = true -> truthy overrides = true ->
       applyBodyDirective config directive
       = Returned
           {| url := url config; method := method config; headers := headers config;
              body := JObj (spread (spread [] (own_entries (body config)))
                                   (own_entries overrides));
              bodyType := bodyType config |})
      /\ (forall b, body config = JStr b -> b <> "" -> truthy overrides = true ->
          applyBodyDirective config directive
          = match set_all (own_entries overrides) (usp_parse b) with
            | Returned baseParams =>
              Returned
                {| url := url config; method := method config;
                   headers := headers config;
                   body := JStr (usp_toString baseParams);
                   bodyType := if truthy (bodyType config) then bodyType config
                               else JStr "form" |}
            | Thrown => Thrown
            end)
      /\ (truthy overrides = false
          \/ (body_is_object config = false /\ body_is_text config = false) ->
          applyBodyDirective config directive
          = Returned
              {| url := url config; method := method config; headers := headers config;
                 body := JStr trimmed; bodyType := JStr "raw" |}))
  /\ (forall entries params,
         set_all entries params
         = fold_left
             (fun ps kv =>
                match ps, ToString (snd kv) with
                | Returned acc, Returned text => Returned (usp_set acc (fst kv) text)
                | _, _ => Thrown
                end)
             entries (Returned params))
  /\ (forall noteRaw noteDirective,
         note_directive noteRaw "body" = Some noteDirective ->
         noteDirective <> "" ->
         exists copiedHeaders,
           effective_config config noteRaw
           = applyBodyDirective
               {| url := url config; method := method config;
                  headers := copiedHeaders;
                  body := if body_is_object config
                          then JObj (spread [] (own_entries (body config)))
                          else body config;
                  bodyType := bodyType config |}
               noteDirective)
  /\ (forall raw templateDirective,
         parseRequestTemplate raw = Returned (Some config) ->
         extractDirective raw "body" = Some templateDirective ->
         templateDirective <> "" ->
         exists base,
           template_config raw = Some base
           /\ applyBodyDirective (with_header_directive raw base) templateDirective
              = Returned config).
Proof.
  intros trimmed overrides.
  split; [|split; [|split; [|split; [|split]]]].
  - intros applied H.
    destruct (applyBodyDirective_headers config applied directive H) as [H1 [H2 H3]].
    tauto.
  - intro Hblank. unfold applyBodyDirective. fold trimmed. now rewrite Hblank.
  - intro Hne. apply is_empty_neq in Hne.
    exact (applyBodyDirective_cases config directive Hne).
  - intros entries params. unfold set_all. apply fold_left_pointwise.
    intros [acc|] kv; cbn [bind]; [|reflexivity].
    destruct (ToString (snd kv)); reflexivity.
  - intros noteRaw noteDirective. apply effective_config_applies.
  - intros raw templateDirective. apply parseRequestTemplate_applies_directive.
Qed.

(** *** Enumeration of what is enumerated *)

Lemma insert_index_sorted {A : Type} (n : N) (kv : string * A)
    (l : list (N * (string * A))) :
  Sorted (fun a b => N.leb (fst a) (fst b) = true) l ->
  Sorted (fun a b => N.leb (fst a) (fst b) = true) (insert_index n kv l).
Proof.
  induction l as [|[m kv'] l IH]; cbn [insert_index]; intro H.
  - repeat constructor.
  - destruct (N.leb n m) eqn:E.
    + constructor; [exact H|]. constructor. exact E.
    + inversion H as [|x xs Hsorted Hhd]; subst.
      constructor; [now apply IH|].
      destruct l as [|[p kv''] l]; cbn [insert_index].
      * constructor. cbn [fst]. apply N.leb_le. apply N.leb_gt in E. lia.
      * destruct (N.leb n p); constructor; cbn [fst].
        -- apply N.leb_le. apply N.leb_gt in E. lia.
        -- now inversion Hhd.
Qed.

Lemma index_entries_sorted {A : Type} (o : list (string * A)) :
  Sorted (fun a b => N.leb (fst a) (fst b) = true) (index_entries o).
Proof.
  induction o as [|kv o IH]; cbn [index_entries]; [constructor|].
  destruct (array_index (fst kv)); [now apply insert_index_sorted | exact IH].
Qed.

Lemma insert_index_tagged {A : Type} (n : N) (kv : string * A)
    (l : list (N * (string * A))) :
  array_index (fst kv) = Some n ->
  Forall (fun e => array_index (fst (snd e)) = Some (fst e)) l ->
  Forall (fun e => array_index (fst (snd e)) = Some (fst e)) (insert_index n kv l).
Proof.
  intros Hkv H. induction H as [|[m kv'] l He Hl IH]; cbn [insert_index].
  - repeat constructor. exact Hkv.
  - destruct (N.leb n m); repeat constructor; assumption.
Qed.

Lemma index_entries_tagged {A : Type} (o : list (string * A)) :
  Forall (fun e => array_index (fst (snd e)) = Some (fst e)) (index_entries o).
Proof.
  induction o as [|kv o IH]; cbn [index_entries]; [constructor|].
  destruct (array_index (fst kv)) eqn:E; [now apply insert_index_tagged | exact IH].
Qed.

Lemma index_entries_named {A : Type} (front back : list (string * A)) :
  Forall (fun kv => array_index (fst kv) = None) back ->
  index_entries (front ++ back) = index_entries front.
Proof.
  intro H. induction front as [|kv front IH]; cbn [app index_entries].
  - induction H as [|kv back Hkv _ IH]; cbn [index_entries]; [reflexivity|].
    now rewrite Hkv.
  - now rewrite IH.
Qed.

Lemma index_entries_of_sorted {A : Type} (l : list (N * (string * A))) :
  Sorted (fun a b => N.leb (fst a) (fst b) = true) l ->
  Forall (fun e => array_index (fst (snd e)) = Some (fst e)) l ->
  index_entries (map snd l) = l.
Proof.
  intros Hsorted Htagged. induction Hsorted as [|[n kv] l Hl IH Hhd];
    cbn [map snd index_entries]; [reflexivity|].
  inversion Htagged as [|x xs Hx Hxs]; subst. cbn [fst snd] in Hx.
  rewrite Hx, (IH Hxs).
  destruct Hhd as [|[m kv'] l' Hle]; cbn [insert_index]; [reflexivity|].
  cbn [fst] in Hle. now rewrite Hle.
Qed.

Lemma named_entries_named {A : Type} (o : list (string * A)) :
  Forall (fun kv => array_index (fst kv) = None) (named_entries o).
Proof.
  unfold named_entries. apply Forall_forall. intros kv H. apply filter_In in H.
  destruct H as [_ H]. now destruct (array_index (fst kv)).
Qed.

Lemma enumerate_of_parts {A : Type} (indexed : list (N * (string * A)))
    (named : list (string * A)) :
  Sorted (fun a b => N.leb (fst a) (fst b) = true) indexed ->
  Forall (fun e => array_index (fst (snd e)) = Some (fst e)) indexed ->
  Forall (fun kv => array_index (fst kv) = None) named ->
  enumerate (map snd indexed ++ named) = (map snd indexed ++ named)%list.
Proof.
  intros Hsorted Htagged Hnamed. unfold enumerate.
  rewrite (index_entries_named _ _ Hnamed).
  rewrite (index_entries_of_sorted _ Hsorted Htagged).
  f_equal. unfold named_entries. rewrite filter_app.
  assert (Hfront : filter (fun kv : string * A =>
                             match array_index (fst kv) with
                             | Some _ => false
                             | None => true
                             end) (map snd indexed) = []).
  { clear Hsorted. induction Htagged as [|e l He _ IH]; cbn [map filter]; [reflexivity|].
    now rewrite He. }
  rewrite Hfront. cbn [app].
  induction Hnamed as [|kv l Hkv _ IH]; cbn [filter]; [reflexivity|].
  rewrite Hkv. now f_equal.
Qed.

(** What is enumerated is in the order of enumeration. *)
Lemma enumerate_twice {A : Type} (o : list (string * A)) :
  enumerate (enumerate o) = enumerate o.
Proof.
  exact (enumerate_of_parts (index_entries o) (named_entries o)
           (index_entries_sorted o) (index_entries_tagged o) (named_entries_named o)).
Qed.

Lemma obj_set_present (o : Props) (k : string) (v : JValue) :
  NoDup (obj_keys o) -> In (k, v) o -> obj_set o k v = o.
Proof.
  unfold obj_keys. induction o as [|[k' v'] o IH]; cbn [map fst obj_set]; intros Hnd Hin;
    [destruct Hin|].
  inversion Hnd as [|x xs Hnot Hnd']; subst.
  destruct Hin as [[= -> ->]|Hin].
  - now rewrite String.eqb_refl.
  - destruct (String.eqb k' k) eqn:E.
    + apply String.eqb_eq in E. subst k'. exfalso. apply Hnot.
      change k with (fst (k, v)). now apply in_map.
    + f_equal. now apply IH.
Qed.

Lemma spread_present (o more : Props) :
  NoDup (obj_keys o) -> (forall kv, In kv more -> In kv o) -> spread o more = o.
Proof.
  intros Hnd. unfold spread. induction more as [|[k v] more IH]; cbn [fold_left fst snd];
    intro H; [reflexivity|].
  rewrite obj_set_present; [|assumption | apply H; now left].
  apply IH. intros kv Hin. apply H. now right.
Qed.

Lemma obj_set_in (o : Props) (k : string) (v : JValue) : In (k, v) (obj_set o k v).
Proof.
  induction o as [|[k' v'] o IH]; cbn [obj_set]; [now left|].
  destruct (String.eqb k' k) eqn:E.
  - apply String.eqb_eq in E. subst. now left.
  - now right.
Qed.

Lemma obj_set_in_other (o : Props) (k k' : string) (v v' : JValue) :
  k <> k' -> In (k, v) o -> In (k, v) (obj_set o k' v').
Proof.
  intro Hne. induction o as [|[n x] o IH]; cbn [obj_set]; intro H; [destruct H|].
  destruct (String.eqb n k') eqn:E.
  - apply String.eqb_eq in E. subst n. destruct H as [[= -> _]|H]; [contradiction|].
    now right.
  - destruct H as [H|H]; [now left | right; now apply IH].
Qed.

Lemma spread_keeps (base more : Props) (k : string) (v : JValue) :
  ~ In k (obj_keys more) -> In (k, v) base -> In (k, v) (spread base more).
Proof.
  unfold spread, obj_keys. revert base.
  induction more as [|[k' v'] more IH]; cbn [map fst fold_left snd]; intros base Hnot H;
    [exact H|].
  apply IH; [intro Hin; apply Hnot; now right|]. apply obj_set_in_other; [|exact H].
  intro; subst; apply Hnot; now left.
Qed.

(** What is spread with distinct keys is in the result. *)
Lemma spread_in (base more : Props) (kv : string * JValue) :
  NoDup (obj_keys more) -> In kv more -> In kv (spread base more).
Proof.
  revert base.
  induction more as [|[k v] more IH]; intros base Hnd Hin; [destruct Hin|].
  unfold obj_keys in Hnd. cbn [map fst] in Hnd.
  inversion Hnd as [|x xs Hnot Hnd']; subst.
  change (spread base ((k, v) :: more)) with (spread (obj_set base k v) more).
  destruct Hin as [<-|Hin]; [|now apply IH].
  apply spread_keeps; [exact Hnot | apply obj_set_in].
Qed.

(** *** A directive applied twice *)

(** What [parseKeyValuePairs] yields for a trimmed text that is read as a
    query string. *)
Lemma query_pairs (text : string) :
  trim text = text ->
  startsWith text "{" = false ->
  truthy (parseKeyValuePairs text) = true ->
  let result :=
    fold_left (fun res nv => assign res (fst nv) (JStr (snd nv))) (usp_parse text) [] in
  parseKeyValuePairs text = JObj result /\ result <> [].
Proof.
  intros Htrim Hbrace. unfold parseKeyValuePairs. rewrite Htrim, Hbrace.
  destruct (is_empty text); [discriminate|].
  destruct (negb (includes text "=") && negb (includes text ":"))%bool; [discriminate|].
  cbv zeta.
  match goal with
  | |- truthy (match ?r with [] => _ | _ :: _ => _ end) = true -> _ =>
    destruct r as [|kv result]; [discriminate|]
  end.
  intros _. split; [reflexivity | discriminate].
Qed.

(** Every entry of such a result is a decoded name with a decoded string. *)
Lemma query_pairs_decoded (params : URLSearchParams) (acc : Props) :
  decoded_params params ->
  Forall (fun kv => exists s, snd kv = JStr s /\ utf8_decode (fst kv) = fst kv
                              /\ utf8_decode s = s) acc ->
  Forall (fun kv => exists s, snd kv = JStr s /\ utf8_decode (fst kv) = fst kv
                              /\ utf8_decode s = s)
         (fold_left (fun res nv => assign res (fst nv) (JStr (snd nv))) params acc).
Proof.
  intro Hparams. revert acc.
  induction Hparams as [|[n v] params [Hn Hv] _ IH]; cbn [fold_left]; intros acc Hacc;
    [assumption|].
  apply IH. cbn [fst snd] in *.
  destruct (assign_cases acc n (JStr v)) as [-> | ->]; [|exact Hacc].
  clear IH. induction Hacc as [|[k x] acc Hkx Hrest IHacc]; cbn.
  - repeat constructor. exists v. cbn. tauto.
  - destruct (String.eqb k n) eqn:E.
    + apply String.eqb_eq in E. subst. constructor; [|assumption].
      exists v. cbn. tauto.
    + constructor; assumption.
Qed.

Lemma query_pairs_keys (params : URLSearchParams) (acc : Props) :
  NoDup (obj_keys acc) ->
  NoDup (obj_keys
           (fold_left (fun res nv => assign res (fst nv) (JStr (snd nv))) params acc)).
Proof.
  revert acc. induction params as [|[n v] params IH]; cbn [fold_left]; intros acc Hacc;
    [assumption|].
  apply IH. now apply assign_keys_distinct.
Qed.

(** Setting entries whose values are strings does not throw. *)
Lemma set_all_strings (entries : Props) (l : URLSearchParams) :
  Forall (fun kv => exists s, snd kv = JStr s) entries ->
  set_all entries l
  = Returned
      (fold_left (fun ps nv => usp_set ps (fst nv) (snd nv))
                 (map (fun kv => (fst kv, match snd kv with
                                          | JStr s => s
                                          | _ => EmptyString
                                          end)) entries) l).
Proof.
  unfold set_all. intro H. revert l.
  induction H as [|kv entries [s Hs] _ IH]; intro l; cbn [fold_left map fst snd bind];
    [reflexivity|].
  rewrite Hs. cbn [ToString bind]. apply IH.
Qed.

Lemma fold_set_decoded (overrides l : URLSearchParams) :
  decoded_params overrides -> decoded_params l ->
  decoded_params (fold_left (fun ps nv => usp_set ps (fst nv) (snd nv)) overrides l).
Proof.
  intro Ho. revert l. induction Ho as [|[k v] o [Hk Hv] _ IH]; cbn [fold_left];
    intros l Hl; [assumption|].
  apply IH. now apply usp_set_decoded.
Qed.

Lemma fold_set_not_nil (overrides l : URLSearchParams) :
  overrides <> [] ->
  fold_left (fun ps nv => usp_set ps (fst nv) (snd nv)) overrides l <> [].
Proof.
  intro Hne.
  assert (H : forall o l, l <> [] ->
                          fold_left (fun ps nv => usp_set ps (fst nv) (snd nv)) o l <> []).
  { induction o as [|[k v] o IH]; cbn [fold_left]; intros l0 Hl; [assumption|].
    apply IH. apply usp_set_not_nil. }
  destruct overrides as [|[k v] o]; [contradiction|]. cbn [fold_left].
  apply H. apply usp_set_not_nil.
Qed.

(** C8, as the code has it.  For a directive that is read as [k=v] pairs
    (its text does not open an object literal) no application throws.
    Applied to a string body that is not empty, twice equals once.  Applied
    to an object body, twice leaves the fields other than the body as once
    does, and the body with the same properties in the same order of
    enumeration.  When the body is absent, empty or neither of the two, the
    first application stores the trimmed text as it is and the second
    serializes its pairs: the two agree exactly when the directive is
    blank, its pairs do not parse, or the text already is that
    serialization. *)
Theorem body_directive_twice (config : CustomRequestConfig) (directive : string) :
  (forall s, utf8_decode (utf8_decode s) = utf8_decode s) ->
  startsWith (trim directive) "{" = false ->
  let trimmed := trim directive in
  let overrides := parseKeyValuePairs trimmed in
  let once := applyBodyDirective config directive in
  let twice :=
    match once with
    | Returned applied => applyBodyDirective applied directive
    | Thrown => Thrown
    end in
  (exists applied, once = Returned applied)
  /\ (exists applied, twice = Returned applied)
  /\ (body_is_text config = true -> twice = once)
  /\ (body_is_object config = true ->
      forall first second,
        once = Returned first -> twice = Returned second ->
        url second = url first /\ method second = method first
        /\ headers second = headers first /\ bodyType second = bodyType first
        /\ (body second = body first
            \/ exists props props',
                body first = JObj props /\ body second = JObj props'
                /\ enumerate props' = enumerate props))
  /\ (body_is_object config = false -> body_is_text config = false ->
      (twice = once <->
       trimmed = "" \/ truthy overrides = false
       \/ exists params,
            set_all (own_entries overrides) (usp_parse trimmed) = Returned params
            /\ usp_toString params = trimmed)).
Proof.
  intros Hidem Hbrace trimmed overrides once twice.
  destruct (is_empty trimmed) eqn:Hblank.
  { assert (Honce : once = Returned config)
      by (subst once; unfold applyBodyDirective; fold trimmed; now rewrite Hblank).
    assert (Htwice : twice = Returned config)
      by (subst twice; rewrite Honce; unfold applyBodyDirective; fold trimmed;
          now rewrite Hblank).
    rewrite Honce, Htwice.
    split; [now exists config|]. split; [now exists config|].
    split; [reflexivity|]. split.
    - intros _ first second [= <-] [= <-]. tauto.
    - intros _ _. split; [|reflexivity]. intros _. left. now apply is_empty_eq. }
  assert (Htrimmed : trim trimmed = trimmed) by apply trim_twice.
  pose proof (applyBodyDirective_cases config directive Hblank) as Hcases.
  cbv zeta in Hcases. fold trimmed in Hcases. fold overrides in Hcases.
  fold once in Hcases. destruct Hcases as [Hobj1 [Htext1 Helse1]].
  (* the overrides of a text that is read as pairs *)
  assert (Hpairs :
            truthy overrides = true ->
            exists strings,
              (forall l, set_all (own_entries overrides) l
                         = Returned (fold_left (fun ps nv => usp_set ps (fst nv) (snd nv))
                                               strings l))
              /\ decoded_params strings /\ strings <> []
              /\ NoDup (map fst strings)
              /\ NoDup (obj_keys (own_entries overrides))).
  { intro Hov. destruct (query_pairs trimmed Htrimmed Hbrace Hov) as [Hresult Hnil].
    fold overrides in Hresult.
    set (result := fold_left (fun res nv => assign res (fst nv) (JStr (snd nv)))
                             (usp_parse trimmed) []) in *.
    assert (Hkeys : NoDup (obj_keys result))
      by (apply query_pairs_keys; constructor).
    assert (Hdecoded :
              Forall (fun kv => exists s, snd kv = JStr s /\ utf8_decode (fst kv) = fst kv
                                          /\ utf8_decode s = s) (enumerate result)).
    { apply Forall_forall. intros kv Hin. apply (proj1 (enumerate_in result kv)) in Hin. revert kv Hin.
      apply Forall_forall.
      apply (query_pairs_decoded (usp_parse trimmed) []);
        [now apply usp_parse_decoded | constructor]. }
    assert (Hentries : own_entries overrides = enumerate result) by now rewrite Hresult.
    rewrite Hentries.
    exists (map (fun kv => (fst kv, match snd kv with
                                    | JStr s => s
                                    | _ => EmptyString
                                    end)) (enumerate result)).
    split; [|split; [|split; [|split]]].
    - intro l. apply set_all_strings.
      apply Forall_forall. intros kv Hin.
      destruct (proj1 (Forall_forall _ _) Hdecoded kv Hin) as [s [Hs _]]. now exists s.
    - unfold decoded_params. apply Forall_map. apply Forall_forall. intros kv Hin.
      destruct (proj1 (Forall_forall _ _) Hdecoded kv Hin) as [s [Hs [Hk Hv]]].
      cbn [fst snd]. rewrite Hs. tauto.
    - intro Hmap. apply map_eq_nil in Hmap.
      pose proof (enumerate_perm result) as Hperm. rewrite Hmap in Hperm.
      apply Permutation_nil in Hperm. contradiction.
    - rewrite map_map. cbn [fst]. now apply enumerate_keys_distinct.
    - now apply enumerate_keys_distinct. }
  set (replaced :=
         {| url := url config; method := method config; headers := headers config;
            body := JStr trimmed; bodyType := JStr "raw" |}) in *.
  assert (Hagain : truthy overrides = false ->
                   applyBodyDirective replaced directive = Returned replaced).
  { intro Hov.
    destruct (applyBodyDirective_cases replaced directive Hblank) as [_ [_ Helse]].
    cbv zeta in Helse. fold trimmed in Helse. fold overrides in Helse.
    exact (Helse (or_introl Hov)). }
  assert (Hreplaced : truthy overrides = false ->
                      once = Returned replaced /\ twice = Returned replaced).
  { intro Hov. pose proof (Helse1 (or_introl Hov)) as Honce.
    split; [exact Honce|]. subst twice. rewrite Honce. now apply Hagain. }
  (* a body of text *)
  assert (Htext :
            forall b, body config = JStr b -> b <> "" -> truthy overrides = true ->
                      exists applied, once = Returned applied /\ twice = Returned applied).
  { intros b Hb Hbne Hov. destruct (Hpairs Hov) as [strings [Hset [Hstrings [Hsome [Hnd _]]]]].
    pose proof (Htext1 b Hb Hbne Hov) as Honce. rewrite Hset in Honce.
    set (params := fold_left (fun ps nv => usp_set ps (fst nv) (snd nv)) strings
                             (usp_parse b)) in *.
    eexists. split; [exact Honce|]. subst twice. rewrite Honce.
    assert (Hparams : decoded_params params)
      by (apply fold_set_decoded; [assumption | now apply usp_parse_decoded]).
    assert (Hnonempty : usp_toString params <> "").
    { assert (Hp : params <> []) by now apply fold_set_not_nil.
      destruct params as [|nv params']; [contradiction|].
      apply is_empty_neq, usp_toString_not_empty. }
    match goal with
    | |- applyBodyDirective ?c directive = _ =>
      destruct (applyBodyDirective_cases c directive Hblank) as [_ [Htext2 _]]
    end.
    cbv zeta in Htext2. fold trimmed in Htext2. fold overrides in Htext2.
    rewrite (Htext2 (usp_toString params) eq_refl Hnonempty Hov).
    rewrite Hset. cbn [url method headers body bodyType].
    rewrite usp_parse_toString, (decoded_params_stable _ Hparams).
    subst params. rewrite (usp_set_all_twice strings (usp_parse b) Hnd).
    f_equal. f_equal.
    destruct (truthy (bodyType config)) eqn:Htruthy; [now rewrite Htruthy | reflexivity]. }
  (* a body that is an object *)
  assert (Hobject :
            body_is_object config = true -> truthy overrides = true ->
            exists props,
              once = Returned
                       {| url := url config; method := method config;
                          headers := headers config; body := JObj props;
                          bodyType := bodyType config |}
              /\ twice = Returned
                           {| url := url config; method := method config;
                              headers := headers config; body := JObj (enumerate props);
                              bodyType := bodyType config |}).
  { intros Hshape Hov. destruct (Hpairs Hov) as [_ [_ [_ [_ [_ Hnd]]]]].
    pose proof (Hobj1 Hshape Hov) as Honce.
    set (props := spread (spread [] (own_entries (body config))) (own_entries overrides))
      in *.
    exists props. split; [exact Honce|]. subst twice. rewrite Honce.
    match goal with
    | |- applyBodyDirective ?c directive = _ =>
      destruct (applyBodyDirective_cases c directive Hblank) as [Hobj2 _]
    end.
    cbv zeta in Hobj2. fold trimmed in Hobj2. fold overrides in Hobj2.
    rewrite (Hobj2 eq_refl Hov). cbn [url method headers body bodyType own_entries].
    assert (Hkeys : NoDup (obj_keys props))
      by (apply spread_keys_distinct, spread_keys_distinct; constructor).
    rewrite spread_copy by now apply enumerate_keys_distinct.
    rewrite spread_present; [reflexivity | now apply enumerate_keys_distinct |].
    intros kv Hin. apply (proj2 (enumerate_in props kv)). now apply spread_in. }
  split; [|split; [|split; [|split]]].
  - destruct (truthy overrides) eqn:Hov; [|eexists; exact (proj1 (Hreplaced eq_refl))].
    destruct (body_is_object config) eqn:Hshape.
    { destruct (Hobject eq_refl eq_refl) as [props [H _]]. eexists; exact H. }
    destruct (body_is_text config) eqn:Hshape'.
    { unfold body_is_text in Hshape'.
      destruct (body config) as [| | | |b| | | |] eqn:Hbody; try discriminate.
      apply negb_true_iff, is_empty_neq in Hshape'.
      destruct (Htext b eq_refl Hshape' eq_refl) as [applied [H _]]. eexists; exact H. }
    eexists. exact (Helse1 (or_intror (conj eq_refl eq_refl))).
  - destruct (truthy overrides) eqn:Hov; [|eexists; exact (proj2 (Hreplaced eq_refl))].
    destruct (body_is_object config) eqn:Hshape.
    { destruct (Hobject eq_refl eq_refl) as [props [_ H]]. eexists; exact H. }
    destruct (body_is_text config) eqn:Hshape'.
    { unfold body_is_text in Hshape'.
      destruct (body config) as [| | | |b| | | |] eqn:Hbody; try discriminate.
      apply negb_true_iff, is_empty_neq in Hshape'.
      destruct (Htext b eq_refl Hshape' eq_refl) as [applied [_ H]]. eexists; exact H. }
    subst twice. rewrite (Helse1 (or_intror (conj eq_refl eq_refl))).
    fold replaced.
    destruct (Hpairs eq_refl) as [strings [Hset _]].
    destruct (applyBodyDirective_cases replaced directive Hblank) as [_ [Htext2 _]].
    cbv zeta in Htext2. fold trimmed in Htext2. fold overrides in Htext2.
    apply is_empty_neq in Hblank.
    rewrite (Htext2 trimmed eq_refl Hblank Hov), Hset. eexists; reflexivity.
  - intro Hshape. destruct (truthy overrides) eqn:Hov.
    + unfold body_is_text in Hshape.
      destruct (body config) as [| | | |b| | | |] eqn:Hbody; try discriminate.
      apply negb_true_iff, is_empty_neq in Hshape.
      destruct (Htext b eq_refl Hshape eq_refl) as [applied [H1 H2]]. congruence.
    + destruct (Hreplaced eq_refl). congruence.
  - intros Hshape first second Hfirst Hsecond.
    destruct (truthy overrides) eqn:Hov.
    + destruct (Hobject Hshape eq_refl) as [props [H1 H2]].
      rewrite H1 in Hfirst. rewrite H2 in Hsecond.
      injection Hfirst as <-. injection Hsecond as <-.
      cbn [url method headers body bodyType].
      repeat split. right. exists props, (enumerate props).
      repeat split. apply enumerate_twice.
    + destruct (Hreplaced eq_refl) as [H1 H2].
      rewrite H1 in Hfirst. rewrite H2 in Hsecond.
      injection Hfirst as <-. injection Hsecond as <-. tauto.
  - intros Hshape Hshape'.
    pose proof (Helse1 (or_intror (conj Hshape Hshape'))) as Honce. fold replaced in Honce.
    apply is_empty_neq in Hblank.
    destruct (truthy overrides) eqn:Hov.
    2:{ destruct (Hreplaced eq_refl) as [H1 H2]. split; [tauto | congruence]. }
    destruct (Hpairs eq_refl) as [strings [Hset _]].
    assert (Htwice :
              twice = Returned
                        {| url := url config; method := method config;
                           headers := headers config;
                           body := JStr (usp_toString
                                           (fold_left
                                              (fun ps nv => usp_set ps (fst nv) (snd nv))
                                              strings (usp_parse trimmed)));
                           bodyType := JStr "raw" |}).
    { subst twice. rewrite Honce.
      destruct (applyBodyDirective_cases replaced directive (proj2 (is_empty_neq _) Hblank))
        as [_ [Htext2 _]].
      cbv zeta in Htext2. fold trimmed in Htext2. fold overrides in Htext2.
      rewrite (Htext2 trimmed eq_refl Hblank Hov), Hset. reflexivity. }
    rewrite Htwice, Honce. split.
    + intro Heq. right. right. eexists. split; [apply Hset|].
      unfold replaced in Heq. now injection Heq.
    + intros [Hempty|[Hfalse|[params [Hparams Hsame]]]];
        [contradiction | discriminate |].
      rewrite Hset in Hparams. injection Hparams as <-. unfold replaced.
      now rewrite Hsame.
Qed.

End Directives.

Section Responses.

Context {rt : Runtime}.

(** *** Response rules *)



End Responses.

Section Submission.

Context {rt : Runtime}.

Variable store : string -> Outcome (option DiscountTypeRecord).
Variable network : Request -> Outcome Response.

(** *** Configuration errors *)

(** C10.  A submission for the code ['none'] fails with 'Discount type not
    set' and calls neither the configuration store nor the network; a
    submission for a code the store has no record of fails with 'Discount
    type not found: <code>' after the one load, without a network request. *)
Theorem none_and_unknown_type_fail_without_request
    (plateNumber discountTypeCode : string) (contextOverrides : option ContextOverrides) :
  (discountTypeCode = "none" ->
   run store network (sendParkingDiscount plateNumber discountTypeCode contextOverrides)
   = ({| success := false; message := Some "Discount type not set";
         rawResponse := None; redirectUrl := None; discountInfo := None |},
      []))
  /\ (discountTypeCode <> "none" ->
      store discountTypeCode = Returned None ->
      run store network (sendParkingDiscount plateNumber discountTypeCode contextOverrides)
      = ({| success := false;
            message := Some ("Discount type not found: " ++ discountTypeCode);
            rawResponse := None; redirectUrl := None; discountInfo := None |},
         [Loaded discountTypeCode])).
Proof.
  split.
  - intros ->. reflexivity.
  - intros Hcode Hstore. unfold sendParkingDiscount.
    rewrite (not_none _ Hcode). cbn [run]. rewrite Hstore. reflexivity.
Qed.

(** C9.  A response template that is not empty and is not valid JSON makes
    the submission fail with 'Custom response template parse failed for
    <name>' right after the load, without a network request, whatever the
    mode of the discount type. *)
Theorem broken_response_template_fails_early
    (plateNumber discountTypeCode : string) (contextOverrides : option ContextOverrides)
    (discountType : DiscountTypeRecord) (template : string) :
  discountTypeCode <> "none" ->
  store discountTypeCode = Returned (Some discountType) ->
  responseTemplate discountType = Some template ->
  template <> "" ->
  JSON_parse template = None ->
  run store network (sendParkingDiscount plateNumber discountTypeCode contextOverrides)
  = ({| success := false;
        message := Some ("Custom response template parse failed for "
                           ++ name discountType);
        rawResponse := None; redirectUrl := None; discountInfo := None |},
     [Loaded discountTypeCode]).
Proof.
  intros Hcode Hstore Htemplate Hne Hparse.
  rewrite (run_loaded store network plateNumber _ contextOverrides _ Hcode Hstore).
  unfold submit, parseResponseTemplate, safeJsonParse, is_truthy_string.
  rewrite Htemplate, Hparse.
  destruct template as [|c r]; [contradiction|]. reflexivity.
Qed.

Lemma submit_broken_response (plateNumber discountTypeCode : string)
    (contextOverrides : option ContextOverrides) (discountType : DiscountTypeRecord) :
  broken_response_template discountType = true ->
  submit plateNumber discountTypeCode contextOverrides discountType
  = Done {| success := false;
            message := Some ("Custom response template parse failed for "
                               ++ name discountType);
            rawResponse := None; redirectUrl := None; discountInfo := None |}.
Proof.
  unfold broken_response_template, submit. intros ->. reflexivity.
Qed.

(** C1.  With [useCustomRequest] enabled, a blank request template, or one
    that [parseRequestTemplate] gives [null] for, ends the submission right
    after the load with [success = false] and the message of that error,
    and with no network request (so no legacy request either); in legacy
    mode a missing [jsessionid] does the same with its own message.  The
    one check that comes before them is the response template's: when that
    template is broken its message is the one returned, again without a
    request. *)
Theorem configuration_errors_are_definitive
    (plateNumber discountTypeCode : string) (contextOverrides : option ContextOverrides)
    (discountType : DiscountTypeRecord) :
  discountTypeCode <> "none" ->
  store discountTypeCode = Returned (Some discountType) ->
  let result :=
    run store network (sendParkingDiscount plateNumber discountTypeCode contextOverrides) in
  let failed_with msg :=
    result
    = ({| success := false;
          message :=
            Some (if broken_response_template discountType
                  then "Custom response template parse failed for " ++ name discountType
                  else msg);
          rawResponse := None; redirectUrl := None; discountInfo := None |},
       [Loaded discountTypeCode]) in
  (useCustomRequest discountType = true ->
   blank_template discountType = true ->
   failed_with ("Custom request enabled but template is empty for " ++ name discountType))
  /\ (useCustomRequest discountType = true ->
      forall raw,
        requestTemplate discountType = Some raw ->
        trim raw <> "" ->
        parseRequestTemplate (trim raw) = Returned None ->
        failed_with ("Custom request template parse failed for " ++ name discountType))
  /\ (useCustomRequest discountType = false ->
      no_session discountType = true ->
      failed_with ("Discount type " ++ name discountType
                     ++ " missing Session ID. Configure in settings.")).
Proof.
  intros Hcode Hstore result failed_with. subst result failed_with. cbv beta.
  rewrite (run_loaded store network plateNumber _ contextOverrides _ Hcode Hstore).
  destruct (broken_response_template discountType) eqn:Hbroken.
  { rewrite (submit_broken_response plateNumber discountTypeCode contextOverrides
               discountType Hbroken).
    repeat split; reflexivity. }
  unfold broken_response_template in Hbroken.
  repeat split.
  - intros Hcustom Hblank. unfold submit. rewrite Hbroken, Hcustom.
    unfold blank_template in Hblank.
    destruct (requestTemplate discountType) as [raw|].
    + destruct (trim raw); [reflexivity | discriminate].
    + reflexivity.
  - intros Hcustom raw Hraw Hne Hparse. unfold submit.
    rewrite Hbroken, Hcustom, Hraw.
    destruct (trim raw) as [|c r] eqn:Htrim; [contradiction|].
    cbn [is_truthy_string is_empty negb andb]. rewrite Hparse. reflexivity.
  - intros Hlegacy Hsession. unfold submit. rewrite Hbroken, Hlegacy.
    unfold no_session, is_truthy_string in Hsession.
    cbn [is_truthy_string is_empty negb andb].
    destruct (jsessionid discountType) as [[|c r]|]; [reflexivity | discriminate | reflexivity].
Qed.

(** *** The fallback without a response rule *)

Lemma extractDiscountInfo_or_undefined (json : JValue) :
  extractDiscountInfo (or_else json JUndefined) = extractDiscountInfo json.
Proof.
  unfold or_else. destruct (truthy json) eqn:E; [reflexivity|].
  unfold extractDiscountInfo. now rewrite E.
Qed.

Lemma no_rule_evaluates_to_null (responseText : string) (template : option string) :
  is_truthy_string template = false ->
  evaluateCustomResponse responseText (parseResponseTemplate template) = Returned None.
Proof.
  unfold is_truthy_string, parseResponseTemplate.
  destruct template as [[|c r]|]; [reflexivity | discriminate | reflexivity].
Qed.

(** A submission that reached the network did so in one of the two modes,
    and its result is that mode's reading of the response. *)
Lemma submit_fetched (plateNumber discountTypeCode : string)
    (contextOverrides : option ContextOverrides) (discountType : DiscountTypeRecord)
    (result : ParkingRequestResult) (request : Request) :
  run store network (submit plateNumber discountTypeCode contextOverrides discountType)
  = (result, [Fetched request]) ->
  result
  = settle (bind (network request)
              (if useCustomRequest discountType
               then custom_result (parseResponseTemplate (responseTemplate discountType))
               else legacy_result)).
Proof.
  unfold submit.
  destruct (is_truthy_string (responseTemplate discountType)
            && negb (truthy (parseResponseTemplate (responseTemplate discountType))))%bool;
    [cbn [run]; discriminate|].
  destruct (useCustomRequest discountType).
  - destruct (requestTemplate discountType) as [raw|]; [|cbn; discriminate].
    destruct (trim raw) as [|c r]; [cbn; discriminate|].
    cbn [is_truthy_string is_empty negb andb].
    destruct (parseRequestTemplate (String c r)) as [[requestConfig|]|];
      try (cbn [run]; discriminate).
    destruct (bind _ _); [|cbn [run]; discriminate].
    cbn [run]. intros [= <- <-]. reflexivity.
  - cbn [is_truthy_string is_empty negb andb].
    destruct (jsessionid discountType) as [[|c r]|]; try (cbn [run]; discriminate).
    destruct (legacy_request _ _ _); [|cbn [run]; discriminate].
    cbn [run]. intros [= <- <-]. reflexivity.
Qed.

(** C5, as the code has it.  With no response rule, a response whose JSON
    holds [info.discountcharge] gives [success = true] and the fields of
    [info] (plate and times as strings, [needcharge] defaulting to ["0"],
    [discountcharge] as a number); when one of these conversions throws,
    the result is the failure of the [catch].  Without that shape the two
    modes differ: the custom flow returns the HTTP status ([response.ok],
    with 'Request failed' when it is false) and never looks at
    [info.errmsg]; the legacy flow always fails, with [info.errmsg] as its
    message when that is truthy and not ['ok'], and never looks at the HTTP
    status. *)
Theorem builtin_fallback_by_mode
    (plateNumber discountTypeCode : string) (contextOverrides : option ContextOverrides)
    (discountType : DiscountTypeRecord) (result : ParkingRequestResult)
    (request : Request) (response : Response) (responseText : string) :
  discountTypeCode <> "none" ->
  store discountTypeCode = Returned (Some discountType) ->
  (useCustomRequest discountType = true ->
   is_truthy_string (responseTemplate discountType) = false) ->
  run store network (sendParkingDiscount plateNumber discountTypeCode contextOverrides)
  = (result, [Loaded discountTypeCode; Fetched request]) ->
  network request = Returned response ->
  text response = Some responseText ->
  let json := tryParseJsonFromText responseText in
  let info := get_prop json "info" in
  let shape :=
    (truthy json && typeof_object info && negb (strict_eq info JNull)
     && has_prop info "discountcharge")%bool in
  let errmsg := get_prop (get_opt json "info") "errmsg" in
  let thrown :=
    {| success := false; message := Some "Failed to request parking system";
       rawResponse := None; redirectUrl := None; discountInfo := None |} in
  result =
  if shape then
    match ToString (or_else (get_prop info "plate") (JStr "")),
          Number_of (or_else (get_prop info "discountcharge") (JNum 0%float)),
          ToString (or_else (get_prop info "needcharge") (JStr "0")),
          ToString (or_else (get_prop info "entertime") (JStr "")),
          ToString (or_else (get_prop info "staytime") (JStr "")) with
    | Returned plate, Returned discountcharge, Returned needcharge, Returned entertime,
      Returned staytime =>
      {| success := true; message := None; rawResponse := Some responseText;
         redirectUrl := None;
         discountInfo :=
           Some {| plate := plate; discountcharge := discountcharge;
                   needcharge := needcharge; entertime := entertime;
                   staytime := staytime |} |}
    | _, _, _, _, _ => thrown
    end
  else if useCustomRequest discountType then
    {| success := ok response;
       message := if ok response then None else Some "Request failed";
       rawResponse := Some responseText; redirectUrl := None; discountInfo := None |}
  else
    if (truthy (get_opt json "info") && typeof_object (get_opt json "info")
        && truthy errmsg && negb (strict_eq errmsg (JStr "ok")))%bool
    then match ToString errmsg with
         | Returned message =>
           {| success := false; message := Some message;
              rawResponse := Some responseText; redirectUrl := None;
              discountInfo := None |}
         | Thrown => thrown
         end
    else {| success := false; message := Some "Parking discount request failed";
            rawResponse := Some responseText; redirectUrl := None;
            discountInfo := None |}.
Proof.
  intros Hcode Hstore Hrule Hrun Hnet Htext json info shape errmsg thrown.
  rewrite (run_loaded store network plateNumber _ contextOverrides _ Hcode Hstore) in Hrun.
  destruct (run store network (submit _ _ _ _)) as [r events] eqn:Hsubmit.
  cbn [fst snd] in Hrun. injection Hrun as -> ->.
  apply submit_fetched in Hsubmit. rewrite Hsubmit, Hnet. cbn [bind].
  assert (Hinfo : extractDiscountInfo json
                  = if shape then
                      plate <- ToString (or_else (get_prop info "plate") (JStr "")) ;;
                      discountcharge <-
                        Number_of (or_else (get_prop info "discountcharge")
                                           (JNum 0%float)) ;;
                      needcharge <-
                        ToString (or_else (get_prop info "needcharge") (JStr "0")) ;;
                      entertime <-
                        ToString (or_else (get_prop info "entertime") (JStr "")) ;;
                      staytime <-
                        ToString (or_else (get_prop info "staytime") (JStr "")) ;;
                      Returned (Some {| plate := plate; discountcharge := discountcharge;
                                        needcharge := needcharge; entertime := entertime;
                                        staytime := staytime |})
                    else Returned None).
  { subst shape info. unfold extractDiscountInfo.
    destruct (truthy json); [|reflexivity]. cbn [negb andb].
    destruct (typeof_object (get_prop json "info")); [|reflexivity]. cbn [negb orb andb].
    destruct (strict_eq (get_prop json "info") JNull); [reflexivity|]. cbn [negb andb].
    destruct (has_prop (get_prop json "info") "discountcharge"); reflexivity. }
  destruct (useCustomRequest discountType) eqn:Hmode.
  - unfold custom_result. rewrite Htext.
    rewrite (no_rule_evaluates_to_null responseText _ (Hrule eq_refl)). cbn [bind].
    fold json. rewrite extractDiscountInfo_or_undefined, Hinfo.
    destruct shape; [|reflexivity].
    destruct (ToString (or_else (get_prop info "plate") (JStr ""))); [|reflexivity].
    destruct (Number_of _); [|reflexivity].
    destruct (ToString (or_else (get_prop info "needcharge") (JStr "0"))); [|reflexivity].
    destruct (ToString (or_else (get_prop info "entertime") (JStr ""))); [|reflexivity].
    destruct (ToString (or_else (get_prop info "staytime") (JStr ""))); reflexivity.
  - unfold legacy_result. rewrite Htext.
    fold json. rewrite extractDiscountInfo_or_undefined, Hinfo.
    destruct shape.
    + destruct (ToString (or_else (get_prop info "plate") (JStr ""))); [|reflexivity].
      destruct (Number_of _); [|reflexivity].
      destruct (ToString (or_else (get_prop info "needcharge") (JStr "0")));
        [|reflexivity].
      destruct (ToString (or_else (get_prop info "entertime") (JStr "")));
        [|reflexivity].
      destruct (ToString (or_else (get_prop info "staytime") (JStr ""))); reflexivity.
    + cbn [bind]. subst errmsg.
      destruct (truthy (get_opt json "info") && typeof_object (get_opt json "info"))%bool;
        cbn [andb]; [|reflexivity].
      destruct (truthy (get_prop (get_opt json "info") "errmsg")
                && negb (strict_eq (get_prop (get_opt json "info") "errmsg") (JStr "ok")))%bool
      ; [|reflexivity].
      destruct (ToString _); reflexivity.
Qed.

End Submission.

(** * The engine on sample inputs

    The properties above applied to, and the engine evaluated on, the
    sample data, with the reference runtime. *)

Import Samples.

(** A blank request template, a request template that does not parse and
    a legacy record without session each end the submission after the
    load. *)
Lemma configuration_errors_witness :
  run (store_of (record true None (Some "   ") None)) (answer true "")
      (sendParkingDiscount "A1" "vip" None)
  = ({| success := false;
        message := Some "Custom request enabled but template is empty for VIP";
        rawResponse := None; redirectUrl := None; discountInfo := None |},
     [Loaded "vip"])
  /\ run (store_of (record true None (Some "fetch it") None)) (answer true "")
         (sendParkingDiscount "A1" "vip" None)
     = ({| success := false;
           message := Some "Custom request template parse failed for VIP";
           rawResponse := None; redirectUrl := None; discountInfo := None |},
        [Loaded "vip"])
  /\ run (store_of (record false None None None)) (answer true "")
         (sendParkingDiscount "A1" "vip" None)
     = ({| success := false;
           message := Some "Discount type VIP missing Session ID. Configure in settings.";
           rawResponse := None; redirectUrl := None; discountInfo := None |},
        [Loaded "vip"]).
Proof.
  assert (Hcode : "vip" <> "none") by discriminate.
  split; [|split].
  - exact (proj1 (configuration_errors_are_definitive
                    (store_of (record true None (Some "   ") None)) (answer true "")
                    "A1" "vip" None _ Hcode eq_refl) eq_refl eq_refl).
  - refine (proj1 (proj2 (configuration_errors_are_definitive
                    (store_of (record true None (Some "fetch it") None)) (answer true "")
                    "A1" "vip" None _ Hcode eq_refl)) eq_refl "fetch it" eq_refl _ eq_refl).
    discriminate.
  - exact (proj2 (proj2 (configuration_errors_are_definitive
                    (store_of (record false None None None)) (answer true "")
                    "A1" "vip" None _ Hcode eq_refl)) eq_refl eq_refl).
Defined.

(** A response template that is not JSON ends a legacy submission after
    the load. *)
Lemma broken_response_template_witness :
  run (store_of (record false (Some "S1") None (Some "{oops"))) (answer true "")
      (sendParkingDiscount "A1" "vip" None)
  = ({| success := false;
        message := Some "Custom response template parse failed for VIP";
        rawResponse := None; redirectUrl := None; discountInfo := None |},
     [Loaded "vip"]).
Proof.
  refine (broken_response_template_fails_early
            (store_of (record false (Some "S1") None (Some "{oops"))) (answer true "")
            "A1" "vip" None _ "{oops" _ eq_refl eq_refl _ eq_refl); discriminate.
Defined.

(** The code [none] loads nothing; the code [gold], unknown to the store,
    is loaded and not found. *)
Lemma none_and_unknown_type_witness :
  run (store_of (record false (Some "S1") None None)) (answer true "")
      (sendParkingDiscount "A1" "none" None)
  = ({| success := false; message := Some "Discount type not set";
        rawResponse := None; redirectUrl := None; discountInfo := None |},
     [])
  /\ run (store_of (record false (Some "S1") None None)) (answer true "")
         (sendParkingDiscount "A1" "gold" None)
     = ({| success := false; message := Some "Discount type not found: gold";
           rawResponse := None; redirectUrl := None; discountInfo := None |},
        [Loaded "gold"]).
Proof.
  split.
  - exact (proj1 (none_and_unknown_type_fail_without_request
                    (store_of (record false (Some "S1") None None)) (answer true "")
                    "A1" "none" None) eq_refl).
  - refine (proj2 (none_and_unknown_type_fail_without_request
                    (store_of (record false (Some "S1") None None)) (answer true "")
                    "A1" "gold" None) _ eq_refl).
    discriminate.
Defined.



(** A GET template with a body: the request has no body and no
    [Content-Type], and its headers come in the order cookie, substitution,
    referer; a submission sends the request assembled from the effective
    configuration. *)
Lemma request_assembly_witness :
  assemble_request get_config (session_context "S1")
  = Returned {| req_url := "https://x/y?p=A1"; req_method := "GET";
                req_headers := [("X-Plate", JStr "A1"); ("Cookie", JStr "JSESSIONID=S1");
                                ("Referer", JStr "https://x/")];
                req_body := None |}
  /\ run (store_of (record true (Some "S1") (Some get_template) None)) (answer true "")
         (sendParkingDiscount "A1" "vip" None)
     = ({| success := true; message := None; rawResponse := Some "";
           redirectUrl := None; discountInfo := None |},
        [Loaded "vip";
         Fetched {| req_url := "https://x/y?p=A1"; req_method := "GET";
                    req_headers := [("X-Plate", JStr "A1");
                                    ("Cookie", JStr "JSESSIONID=S1")];
                    req_body := None |}]).
Proof.
  split.
  - exact (proj1 (request_assembly_order get_config (session_context "S1")
                    "https://x/y?p={{plate}}" "get" eq_refl eq_refl) eq_refl).
  - refine (proj2 (proj2 (proj2 (request_assembly_order get_config (vip_context "S1")
                                   "https://x/y?p={{plate}}" "get" eq_refl eq_refl)))
              (store_of (record true (Some "S1") (Some get_template) None))
              (answer true "") "A1" "vip" None
              (record true (Some "S1") (Some get_template) None)
              get_template get_config _ eq_refl eq_refl eq_refl eq_refl _
              eq_refl eq_refl eq_refl); discriminate.
Defined.

(** C3 as stated fails: with the session [{{plate}}] the cookie that is
    sent reads [JSESSIONID=A1], the cookie being injected before the header
    values are substituted; injected after, as stated, it would read
    [JSESSIONID={{plate}}]. *)
Lemma cookie_is_token_substituted :
  parseRequestTemplate get_template = Returned (Some get_config)
  /\ snd (run (store_of (record true (Some "{{plate}}") (Some get_template) None))
              (answer true "") (sendParkingDiscount "A1" "vip" None))
     = [Loaded "vip";
        Fetched {| req_url := "https://x/y?p=A1"; req_method := "GET";
                   req_headers := [("X-Plate", JStr "A1");
                                   ("Cookie", JStr "JSESSIONID=A1")];
                   req_body := None |}]
  /\ build_context "A1" "vip"
       (record true (Some "{{plate}}") (Some get_template) None) None
     = Returned (vip_context "{{plate}}")
  /\ headers_in_stated_order get_config (vip_context "{{plate}}")
     = Returned [("X-Plate", JStr "A1"); ("Cookie", JStr "JSESSIONID={{plate}}")].
Proof. vm_compute. repeat split. Qed.



(** A legacy response that holds [info.discountcharge], and a custom one
    whose [plate] has no string form. *)
Lemma builtin_fallback_witness :
  fst (run (store_of (record false (Some "S1") None None)) (answer true charged)
           (sendParkingDiscount "A1" "vip" None))
  = {| success := true; message := None; rawResponse := Some charged;
       redirectUrl := None;
       discountInfo :=
         Some {| plate := "A1"; discountcharge := 5%float; needcharge := "0";
                 entertime := "t0"; staytime := "2h" |} |}
  /\ fst (run (store_of (record true None (Some plain_template) None))
              (answer true charged_odd) (sendParkingDiscount "A1" "vip" None))
     = {| success := false; message := Some "Failed to request parking system";
          rawResponse := None; redirectUrl := None; discountInfo := None |}.
Proof.
  split.
  - refine (builtin_fallback_by_mode
              (store_of (record false (Some "S1") None None)) (answer true charged)
              "A1" "vip" None (record false (Some "S1") None None) _
              {| req_url := PARKING_API_URL; req_method := "POST";
                 req_headers :=
                   [ ("X-Requested-With", JStr "XMLHttpRequest");
                     ("Content-Type",
                      JStr "application/x-www-form-urlencoded; charset=UTF-8");
                     ("Origin", JStr "http://www.szdaqin.cn");
                     ("Accept", JStr "text/plain, */*; q=0.01");
                     ("Accept-Language", JStr "zh-CN,zh;q=0.9,en;q=0.8");
                     ("User-Agent", JStr "Mozilla/5.0 (iPhone; CPU iPhone OS 18_7 like Mac OS X) AppleWebKit/605.1.15 (KHTML, like Gecko) Version/26.2 Mobile/15E148 Safari/604.1");
                     ("Cookie", JStr "JSESSIONID=S1") ];
                 req_body :=
                   Some "id=8&businessid=3&parkid=229&type=null&serialNumber=&orderno=&totalcount=1&plate=A1" |}
              {| ok := true; text := Some charged |} charged
              _ eq_refl _ _ eq_refl eq_refl).
    + discriminate.
    + discriminate.
    + vm_compute. reflexivity.
  - refine (builtin_fallback_by_mode
              (store_of (record true None (Some plain_template) None))
              (answer true charged_odd)
              "A1" "vip" None (record true None (Some plain_template) None) _
              {| req_url := "https://x/y"; req_method := "POST"; req_headers := [];
                 req_body := None |}
              {| ok := true; text := Some charged_odd |} charged_odd
              _ eq_refl _ _ eq_refl eq_refl).
    + discriminate.
    + reflexivity.
    + vm_compute. reflexivity.
Defined.

(** C5 as stated fails: without [info.discountcharge], the legacy flow
    fails on a 2xx response, and the custom flow reports 'Request failed'
    where [info.errmsg] is 'bad plate'. *)
Lemma fallback_differs_by_mode :
  (extractDiscountInfo (tryParseJsonFromText errmsg_ok) = Returned None
   /\ fst (run (store_of (record false (Some "S1") None None)) (answer true errmsg_ok)
               (sendParkingDiscount "A1" "vip" None))
      = {| success := false; message := Some "Parking discount request failed";
           rawResponse := Some errmsg_ok; redirectUrl := None; discountInfo := None |})
  /\ (extractDiscountInfo (tryParseJsonFromText errmsg_bad) = Returned None
      /\ fst (run (store_of (record true None (Some plain_template) None))
                  (answer false errmsg_bad) (sendParkingDiscount "A1" "vip" None))
         = {| success := false; message := Some "Request failed";
              rawResponse := Some errmsg_bad; redirectUrl := None;
              discountInfo := None |}).
Proof. vm_compute. repeat split. Qed.

(** Scenario B of the specification; pairs set on a form string, an index
    key coming first; a pair under [__proto__], which parses to nothing;
    and a text that replaces an absent body. *)
Lemma body_directive_scenario :
  applyBodyDirective (body_config (JObj [("totalcount", JStr "1")]) JUndefined)
    "adposid=5"
  = Returned (body_config (JObj [("totalcount", JStr "1"); ("adposid", JStr "5")])
                          JUndefined)
  /\ applyBodyDirective (body_config (JStr "a=1&b=2") JUndefined) "b=3&c=4"
     = Returned (body_config (JStr "a=1&b=3&c=4") (JStr "form"))
  /\ applyBodyDirective (body_config (JStr "a=1") JUndefined) "b=2&5=x"
     = Returned (body_config (JStr "a=1&5=x&b=2") (JStr "form"))
  /\ applyBodyDirective (body_config (JObj [("a", JStr "1")]) JUndefined) "__proto__=x"
     = Returned (body_config (JStr "__proto__=x") (JStr "raw"))
  /\ applyBodyDirective (body_config JUndefined (JStr "form")) "hello"
     = Returned (body_config (JStr "hello") (JStr "raw")).
Proof.
  split; [|split; [|split; [|split]]].
  - pose proof (body_directive_application
                  (body_config (JObj [("totalcount", JStr "1")]) JUndefined)
                  "adposid=5") as H.
    destruct H as [_ [_ [H _]]].
    destruct H as [H _]; [discriminate|].
    exact (H eq_refl eq_refl).
  - pose proof (body_directive_application
                  (body_config (JStr "a=1&b=2") JUndefined) "b=3&c=4") as H.
    destruct H as [_ [_ [H _]]].
    destruct H as [_ [H _]]; [discriminate|].
    refine (H "a=1&b=2" eq_refl _ eq_refl). discriminate.
  - pose proof (body_directive_application
                  (body_config (JStr "a=1") JUndefined) "b=2&5=x") as H.
    destruct H as [_ [_ [H _]]].
    destruct H as [_ [H _]]; [discriminate|].
    refine (H "a=1" eq_refl _ eq_refl). discriminate.
  - pose proof (body_directive_application
                  (body_config (JObj [("a", JStr "1")]) JUndefined) "__proto__=x") as H.
    destruct H as [_ [_ [H _]]].
    destruct H as [_ [_ H]]; [discriminate|].
    exact (H (or_introl eq_refl)).
  - pose proof (body_directive_application
                  (body_config JUndefined (JStr "form")) "hello") as H.
    destruct H as [_ [_ [H _]]].
    destruct H as [_ [_ H]]; [discriminate|].
    exact (H (or_introl eq_refl)).
Defined.

(** C6 as stated fails: a blank [#body] directive, whose content parses to
    no pairs, leaves an object body and a string body as they are instead
    of replacing them by its text. *)
Lemma blank_body_directive_is_ignored :
  extractDirective blank_directive_template "body" = Some ""
  /\ parseKeyValuePairs "" = JNull
  /\ parseRequestTemplate blank_directive_template
     = Returned (Some (body_config (JObj [("a", JStr "1")]) JUndefined))
  /\ applyBodyDirective (body_config (JObj [("a", JStr "1")]) JUndefined) " "
     = Returned (body_config (JObj [("a", JStr "1")]) JUndefined)
  /\ effective_config (body_config (JStr "a=1") JUndefined) (Some "#body{ }")
     = Returned (body_config (JStr "a=1") JUndefined).
Proof. vm_compute. repeat split. Qed.

(** A directive applied twice to a form string, to an absent body when its
    text is its own serialization, and to an object that it gives an index
    key. *)
Lemma body_directive_twice_witness :
  match applyBodyDirective (body_config (JStr "x=1&k=2&k=3") JUndefined) "k=a b" with
  | Returned applied => applyBodyDirective applied "k=a b"
  | Thrown => Thrown
  end
  = applyBodyDirective (body_config (JStr "x=1&k=2&k=3") JUndefined) "k=a b"
  /\ match applyBodyDirective (body_config JUndefined JUndefined) "k=v" with
     | Returned applied => applyBodyDirective applied "k=v"
     | Thrown => Thrown
     end
     = applyBodyDirective (body_config JUndefined JUndefined) "k=v"
  /\ (body (body_config (JObj [("5", JStr "x"); ("a", JStr "1")]) JUndefined)
      = body (body_config (JObj [("a", JStr "1"); ("5", JStr "x")]) JUndefined)
      \/ exists props props',
          body (body_config (JObj [("a", JStr "1"); ("5", JStr "x")]) JUndefined)
          = JObj props
          /\ body (body_config (JObj [("5", JStr "x"); ("a", JStr "1")]) JUndefined)
             = JObj props'
          /\ enumerate props' = enumerate props).
Proof.
  split; [|split].
  - refine (proj1 (proj2 (proj2 (body_directive_twice
                                   (body_config (JStr "x=1&k=2&k=3") JUndefined)
                                   "k=a b" _ eq_refl))) eq_refl).
    intro s. reflexivity.
  - refine (proj2 (proj2 (proj2 (proj2 (proj2 (body_directive_twice
                                                 (body_config JUndefined JUndefined)
                                                 "k=v" _ eq_refl))))
                     eq_refl eq_refl) _).
    + intro s. reflexivity.
    + right. right. eexists. split; reflexivity.
  - refine (proj2 (proj2 (proj2 (proj2
              (proj1 (proj2 (proj2 (proj2 (body_directive_twice
                                             (body_config (JObj [("a", JStr "1")])
                                                          JUndefined)
                                             "5=x" _ eq_refl))))
                 eq_refl
                 (body_config (JObj [("a", JStr "1"); ("5", JStr "x")]) JUndefined)
                 (body_config (JObj [("5", JStr "x"); ("a", JStr "1")]) JUndefined)
                 eq_refl eq_refl))))).
    intro s. reflexivity.
Defined.

(** C8 as stated fails: on an absent body the directive [k=a b] is stored
    as it is by the first application and URL-encoded by the second. *)
Lemma body_directive_not_idempotent :
  applyBodyDirective (body_config JUndefined JUndefined) "k=a b"
  = Returned (body_config (JStr "k=a b") (JStr "raw"))
  /\ applyBodyDirective (body_config (JStr "k=a b") (JStr "raw")) "k=a b"
     = Returned (body_config (JStr "k=a+b") (JStr "raw"))
  /\ JStr "k=a+b" <> JStr "k=a b".
Proof. vm_compute. repeat split. discriminate. Qed.

(** C7 fails on the code: a [#header] directive in the template text is
    merged by a plain spread (lines 295-300), so [content-type] is added
    next to [Content-Type]; [mergeHeaders], which the directive of the
    note goes through (lines 538-543), replaces the name on the same
    input. *)
Lemma template_header_directive_duplicates_name :
  parseRequestTemplate header_directive_template
  = Returned
      (Some {| url := JStr "https://x/y"; method := JUndefined;
               headers := JObj [("Content-Type", JStr "text/plain");
                                ("content-type", JStr "application/json")];
               body := JUndefined; bodyType := JUndefined |})
  /\ mergeHeaders [("Content-Type", JStr "text/plain")]
                  [("content-type", JStr "application/json")]
     = [("content-type", JStr "application/json")]
  /\ effective_config
       {| url := JStr "https://x/y"; method := JUndefined;
          headers := JObj [("Content-Type", JStr "text/plain")];
          body := JUndefined; bodyType := JUndefined |}
       (Some "#header{content-type=application/json}")
     = Returned
         {| url := JStr "https://x/y"; method := JUndefined;
            headers := JObj [("content-type", JStr "application/json")];
            body := JUndefined; bodyType := JUndefined |}.
Proof. vm_compute. repeat split. Qed.

(** Headers merged with overrides that repeat a name in another case. *)
Lemma mergeHeaders_witness :
  names_distinct
    (mergeHeaders [("Content-Type", JStr "text/plain"); ("Accept", JStr "*/*")]
                  [("content-type", JStr "application/json"); ("X-Plate", JStr "A1")]).
Proof.
  apply mergeHeaders_keeps_names_distinct.
  - intros [|c k] H; [reflexivity | discriminate H].
  - repeat constructor; cbn; intuition discriminate.
Defined.
